(** * pyspeckit: the generic [SpectralModel] wrapper

    A shallow embedding of [pyspeckit/spectrum/models/model.py] (Python 2,
    numpy) and the properties of its parameter-descriptor builder, its
    multi-peak composer, its fit driver and its result accessors.

    Conventions of the embedding:
    - a Python object held in a keyword argument is a [pyval];
    - a numpy array of samples is a [list float] of binary64 numbers, taken
      from the Standard Library's [spec_float] with precision 53 and
      exponent bound 1024;
    - the keyword mapping of a call ([**kwargs]) is a [gmap string pyval];
    - a raised exception is the [Err] branch of [result];
    - the instance ([self]) is the record [SpectralModel]; an attribute
      that has never been assigned is [None], so that [hasattr] and
      [AttributeError] can be told apart from an attribute holding Python's
      [None] (which is [Some VNone]);
    - the arrays the caller passes to the fit driver live in a [Heap] and
      are passed by location, because the driver writes into them.

    Embedded: [__init__], [_make_parinfo], [n_modelfunc], [mpfitfun],
    [fitter], [slope], [annotations] and [integral].  The solver, the model
    function, the axis object and the formatting of a label are external
    and enter as parameters. *)

From Stdlib Require Import ZArith List String Ascii Bool Lia.
From Stdlib Require Import Floats.SpecFloat DecimalString.
From stdpp Require Import gmap strings list fin_maps.

Set Warnings "-register-all".

Open Scope string_scope.
Open Scope Z_scope.

(* ===================================================================== *)
(** ** Exceptions and the error monad *)
(* ===================================================================== *)

(** The exceptions the module can raise.  [ValueError] and [Exception]
    carry the message the source gives them; the others are raised by the
    interpreter or by numpy.  [AttributeError] names the missing attribute.
    [Raised] is an exception coming out of an external collaborator (the
    model function, the axis object, the solver). *)
Inductive exn : Type :=
| ValueError (msg : string)
| Exception (msg : string)
| TypeError
| IndexError
| AttributeError (attr : string)
| ZeroDivisionError
| Raised (what : string).

Inductive result (A : Type) : Type :=
| OK (a : A)
| Err (e : exn).
Arguments OK {A} a.
Arguments Err {A} e.

Definition bind {A B : Type} (r : result A) (k : A -> result B) : result B :=
  match r with
  | OK a => k a
  | Err e => Err e
  end.

Declare Scope py_scope.
Delimit Scope py_scope with py.
Notation "x <- c ;; k" := (bind c (fun x => k))
  (at level 100, c at next level, right associativity) : py_scope.
Open Scope py_scope.

Definition is_ok {A : Type} (r : result A) : bool :=
  match r with OK _ => true | Err _ => false end.

(** Evaluate [f] on every element, left to right, stopping at the first
    exception: a list comprehension or a list of calls. *)
Fixpoint mapM {A B : Type} (f : A -> result B) (l : list A) : result (list B) :=
  match l with
  | [] => OK []
  | a :: t => b <- f a ;; bs <- mapM f t ;; OK (b :: bs)
  end.

(* ===================================================================== *)
(** ** binary64 numbers and one-dimensional numpy arrays *)
(* ===================================================================== *)

Definition float : Type := spec_float.

Definition f64_prec : Z := 53.
Definition f64_emax : Z := 1024.

Definition f64_add : float -> float -> float := SFadd f64_prec f64_emax.
Definition f64_sub : float -> float -> float := SFsub f64_prec f64_emax.
Definition f64_mul : float -> float -> float := SFmul f64_prec f64_emax.
Definition f64_div : float -> float -> float := SFdiv f64_prec f64_emax.

(** Conversion of a Python integer to a double. *)
Definition f64_of_Z (z : Z) : float := binary_normalize f64_prec f64_emax z 0 false.

Definition f64_zero : float := S754_zero false.
Definition f64_inf : float := S754_infinity false.
Definition f64_nan : float := S754_nan.

(** [np.isnan], [np.isinf], [np.isfinite] on one sample. *)
Definition isnan (x : float) : bool :=
  match x with S754_nan => true | _ => false end.

Definition isinf (x : float) : bool :=
  match x with S754_infinity _ => true | _ => false end.

Definition isfinite (x : float) : bool := negb (isnan x) && negb (isinf x).

(** [np.zeros(n)]. *)
Definition np_zeros (n : nat) : list float := repeat f64_zero n.

(** [np.any(mask)]. *)
Definition np_any (mask : list bool) : bool := existsb (fun b => b) mask.

(** A binary operation between two arrays with numpy's broadcasting of a
    one-element array; shapes that do not agree raise [ValueError]. *)
Definition np_binop (op : float -> float -> float) (a b : list float)
  : result (list float) :=
  if (length a =? length b)%nat then OK (zip_with op a b)
  else match a, b with
       | [x], _ => OK (map (op x) b)
       | _, [y] => OK (map (fun x => op x y) a)
       | _, _ => Err (ValueError "operands could not be broadcast together")
       end.

(** The in-place [v += w]: the result has the shape of [v], so only [w]
    may be broadcast. *)
Definition np_iadd (v w : list float) : result (list float) :=
  if (length v =? length w)%nat then OK (zip_with f64_add v w)
  else match w with
       | [y] => OK (map (fun x => f64_add x y) v)
       | _ => Err (ValueError "operands could not be broadcast together")
       end.

(** [np.add.reduce]: the samples are accumulated from left to right, the
    first one being the initial value; an empty array sums to 0.  (Later
    versions of numpy add long arrays pairwise; short ones are added in
    this order by all of them.) *)
Definition np_sum (a : list float) : float :=
  match a with
  | [] => f64_zero
  | x :: t => fold_left f64_add t x
  end.

(** [np.diff]: successive differences [a[i+1] - a[i]]. *)
Fixpoint np_diff (a : list float) : list float :=
  match a with
  | x :: ((y :: _) as t) => f64_sub y x :: np_diff t
  | _ => []
  end.

(** [np.average]: the sum divided by the number of samples (0/0 is NaN). *)
Definition np_average (a : list float) : float :=
  f64_div (np_sum a) (f64_of_Z (Z.of_nat (length a))).

(** A slice [l[a:b]] with bounds already known to be non-negative. *)
Definition py_slice {A : Type} (l : list A) (a b : nat) : list A :=
  firstn (b - a) (skipn a l).

(** A slice [l[a:b]] with integer bounds: a negative bound counts from the
    end, and both are clamped to the sequence. *)
Definition py_slice_Z {A : Type} (l : list A) (a b : Z) : list A :=
  let len := Z.of_nat (length l) in
  let clamp (i : Z) := Z.to_nat (Z.min len (Z.max 0 (if i <? 0 then i + len else i))) in
  py_slice l (clamp a) (clamp b).

(* ===================================================================== *)
(** ** Python values *)
(* ===================================================================== *)

(** The objects a keyword argument of the module can hold.  A numpy array
    given for a per-parameter sequence is a [VList]: the builder only
    indexes it. *)
Inductive pyval : Type :=
| VNone
| VBool (b : bool)
| VInt (z : Z)
| VFloat (f : float)
| VStr (s : string)
| VTuple (items : list pyval)
| VList (items : list pyval).

Abbreviation kwargs := (gmap string pyval).

(** [v is None]. *)
Definition is_none (v : pyval) : bool :=
  match v with VNone => true | _ => false end.

(** Truth value of an object ([if v:]). *)
Definition truthy (v : pyval) : bool :=
  match v with
  | VNone => false
  | VBool b => b
  | VInt z => negb (z =? 0)
  | VFloat f => negb (SFeqb f f64_zero)
  | VStr s => negb (String.length s =? 0)%nat
  | VTuple l | VList l => negb (length l =? 0)%nat
  end.

(** The characters of a string, each as a one-character string. *)
Fixpoint str_chars (s : string) : list pyval :=
  match s with
  | EmptyString => []
  | String c t => VStr (String c EmptyString) :: str_chars t
  end.

(** The items of an iterable, as [zip] and indexing see them. *)
Definition py_iter (v : pyval) : result (list pyval) :=
  match v with
  | VTuple l | VList l => OK l
  | VStr s => OK (str_chars s)
  | _ => Err TypeError
  end.

(** [len(v)]. *)
Definition py_len (v : pyval) : result nat :=
  l <- py_iter v ;; OK (length l).

(** [v[i]] for an index [i >= 0]. *)
Definition py_getitem (v : pyval) (i : nat) : result pyval :=
  l <- py_iter v ;;
  match l !! i with
  | Some x => OK x
  | None => Err IndexError
  end.

(** Python 2's [zip(a, b)]: the list of pairs, as long as the shorter
    argument. *)
Definition py_zip (a b : pyval) : result pyval :=
  la <- py_iter a ;;
  lb <- py_iter b ;;
  OK (VList (zip_with (fun x y => VTuple [x; y]) la lb)).

(** [(False,) * n]. *)
Definition false_tuple (n : nat) : pyval := VTuple (repeat (VBool false) n).

(** [np.zeros(n, dtype='bool')], whose items are all false. *)
Definition np_zeros_bool (n : Z) : result pyval :=
  if n <? 0 then Err (ValueError "negative dimensions are not allowed")
  else OK (VList (repeat (VBool false) (Z.to_nat n))).

(** [str.upper] on one character and on a string (ASCII letters). *)
Definition upper_ascii (c : ascii) : ascii :=
  let k := nat_of_ascii c in
  if ((97 <=? k) && (k <=? 122))%nat then ascii_of_nat (k - 32) else c.

Fixpoint upper (s : string) : string :=
  match s with
  | EmptyString => EmptyString
  | String c t => String (upper_ascii c) (upper t)
  end.

(** ["%0i" % jj] for a loop index: its decimal digits. *)
Definition fmt_index (jj : nat) : string :=
  NilEmpty.string_of_uint (Nat.to_uint jj).

(** [pat in s] for two strings. *)
Fixpoint str_contains (pat s : string) : bool :=
  String.prefix pat s ||
  match s with
  | EmptyString => false
  | String _ t => str_contains pat t
  end.

(* ===================================================================== *)
(** ** The data model *)
(* ===================================================================== *)

(** One entry of the parameter descriptor table ([parinfo]): the
    dictionary with keys ['n'], ['value'], ['step'], ['limits'],
    ['limited'], ['fixed'], ['parname'], ['error'] and ['tied']. *)
Record ParinfoEntry : Type := mkParinfoEntry {
  pi_n : Z;
  pi_value : pyval;
  pi_step : pyval;
  pi_limits : pyval;
  pi_limited : pyval;
  pi_fixed : pyval;
  pi_parname : string;
  pi_error : pyval;
  pi_tied : pyval
}.

Definition set_limited (v : pyval) (p : ParinfoEntry) : ParinfoEntry :=
  mkParinfoEntry (pi_n p) (pi_value p) (pi_step p) (pi_limits p) v
    (pi_fixed p) (pi_parname p) (pi_error p) (pi_tied p).

Definition set_limits (v : pyval) (p : ParinfoEntry) : ParinfoEntry :=
  mkParinfoEntry (pi_n p) (pi_value p) (pi_step p) v (pi_limited p)
    (pi_fixed p) (pi_parname p) (pi_error p) (pi_tied p).

Definition set_value (v : pyval) (p : ParinfoEntry) : ParinfoEntry :=
  mkParinfoEntry (pi_n p) v (pi_step p) (pi_limits p) (pi_limited p)
    (pi_fixed p) (pi_parname p) (pi_error p) (pi_tied p).

(** The spectroscopic axis, an external object: its samples and its two
    optional capabilities.  [ax_convert_to_unit unit quiet] gives the
    samples in the requested unit. *)
Record Axis : Type := mkAxis {
  ax_values : list float;
  ax_convert_to_unit : option (pyval -> bool -> result (list float));
  ax_x_to_pix : option (float -> result Z)
}.

(** What the solver hands back: [params], [perror], [fnorm], [status] and
    [errmsg]. *)
Record MpResult : Type := mkMpResult {
  mp_params : list float;
  mp_perror : option (list float);
  mp_fnorm : float;
  mp_status : Z;
  mp_errmsg : string
}.

(** The instance.  [modelfunc x pars kw] is the call
    [self.modelfunc(x, *pars, **kw)]. *)
Record SpectralModel : Type := mkSpectralModel {
  modelfunc : Axis -> list float -> kwargs -> result (list float);
  npars : Z;
  multisingle : string;
  parnames : option pyval;
  shortvarnames : option pyval;
  fitunits : option pyval;
  npeaks : option pyval;
  parinfo : option (list ParinfoEntry);
  modelfunc_kwargs : option kwargs;
  xax : option Axis;
  mp : option MpResult;
  mpp : option (list float);
  mpperr : option (list float);
  model : option (list float)
}.

Definition set_parnames (v : pyval) (s : SpectralModel) : SpectralModel :=
  mkSpectralModel (modelfunc s) (npars s) (multisingle s) (Some v)
    (shortvarnames s) (fitunits s) (npeaks s) (parinfo s)
    (modelfunc_kwargs s) (xax s) (mp s) (mpp s) (mpperr s) (model s).

Definition set_shortvarnames (v : pyval) (s : SpectralModel) : SpectralModel :=
  mkSpectralModel (modelfunc s) (npars s) (multisingle s) (parnames s)
    (Some v) (fitunits s) (npeaks s) (parinfo s)
    (modelfunc_kwargs s) (xax s) (mp s) (mpp s) (mpperr s) (model s).

Definition set_fitunits (v : pyval) (s : SpectralModel) : SpectralModel :=
  mkSpectralModel (modelfunc s) (npars s) (multisingle s) (parnames s)
    (shortvarnames s) (Some v) (npeaks s) (parinfo s)
    (modelfunc_kwargs s) (xax s) (mp s) (mpp s) (mpperr s) (model s).

Definition set_npeaks (v : pyval) (s : SpectralModel) : SpectralModel :=
  mkSpectralModel (modelfunc s) (npars s) (multisingle s) (parnames s)
    (shortvarnames s) (fitunits s) (Some v) (parinfo s)
    (modelfunc_kwargs s) (xax s) (mp s) (mpp s) (mpperr s) (model s).

Definition set_parinfo (v : list ParinfoEntry) (s : SpectralModel) : SpectralModel :=
  mkSpectralModel (modelfunc s) (npars s) (multisingle s) (parnames s)
    (shortvarnames s) (fitunits s) (npeaks s) (Some v)
    (modelfunc_kwargs s) (xax s) (mp s) (mpp s) (mpperr s) (model s).

Definition set_modelfunc_kwargs (v : kwargs) (s : SpectralModel) : SpectralModel :=
  mkSpectralModel (modelfunc s) (npars s) (multisingle s) (parnames s)
    (shortvarnames s) (fitunits s) (npeaks s) (parinfo s)
    (Some v) (xax s) (mp s) (mpp s) (mpperr s) (model s).

Definition set_xax (v : Axis) (s : SpectralModel) : SpectralModel :=
  mkSpectralModel (modelfunc s) (npars s) (multisingle s) (parnames s)
    (shortvarnames s) (fitunits s) (npeaks s) (parinfo s)
    (modelfunc_kwargs s) (Some v) (mp s) (mpp s) (mpperr s) (model s).

(** The four assignments that record a fit: [self.mp], [self.mpp],
    [self.mpperr]. *)
Definition set_fit (r : MpResult) (p e : list float) (s : SpectralModel)
  : SpectralModel :=
  mkSpectralModel (modelfunc s) (npars s) (multisingle s) (parnames s)
    (shortvarnames s) (fitunits s) (npeaks s) (parinfo s)
    (modelfunc_kwargs s) (xax s) (Some r) (Some p) (Some e) (model s).

Definition set_model (m : list float) (s : SpectralModel) : SpectralModel :=
  mkSpectralModel (modelfunc s) (npars s) (multisingle s) (parnames s)
    (shortvarnames s) (fitunits s) (npeaks s) (parinfo s)
    (modelfunc_kwargs s) (xax s) (mp s) (mpp s) (mpperr s) (Some m).

(** Reading an attribute: [AttributeError] when it was never assigned. *)
Definition getattr {A : Type} (name : string) (field : option A) : result A :=
  match field with
  | Some v => OK v
  | None => Err (AttributeError name)
  end.

(* ===================================================================== *)
(** ** The parameter descriptor builder: [SpectralModel._make_parinfo] *)
(* ===================================================================== *)

(** The names bound by the signature of [_make_parinfo]; every other key
    of a call is collected by its [**kwargs]. *)
Definition make_parinfo_keywords : list string :=
  [ "params"; "parnames"; "parvalues"; "parlimits"; "parlimited";
    "parfixed"; "parerror"; "partied"; "fitunits"; "parsteps"; "npeaks";
    "shortvarnames"; "parinfo"; "names"; "values"; "limits"; "limited";
    "fixed"; "error"; "tied"; "steps"; "negamp"; "limitedmin";
    "limitedmax"; "minpars"; "maxpars" ].

(** The value a named parameter is bound to: the one of the call, or its
    default. *)
Definition keyword (kw : kwargs) (name : string) (dflt : pyval) : pyval :=
  default dflt (kw !! name).

(** What is left for [**kwargs]. *)
Definition residual_kwargs (names : list string) (kw : kwargs) : kwargs :=
  foldr delete kw names.

(** The default of [shortvarnames]. *)
Definition default_shortvarnames : pyval :=
  VTuple [VStr "A"; VStr "\Delta x"; VStr "\sigma"].

(** Lines 76-80, one round of the loop: the short name, when given,
    replaces the [par]-prefixed one. *)
Definition alias (canonical short : pyval) : pyval :=
  if is_none short then canonical else short.

(** Lines 94-108: [limitedmin]/[limitedmax], then [minpars]/[maxpars],
    each assigning [parlimits]. *)
Definition limit_synthesis
  (parnames parlimits limitedmin limitedmax minpars maxpars : pyval)
  : result pyval :=
  parlimits <-
    (if negb (is_none limitedmin) then
       if negb (is_none limitedmax) then py_zip limitedmin limitedmax
       else n <- py_len parnames ;; py_zip limitedmin (false_tuple n)
     else if negb (is_none limitedmax) then
       n <- py_len parnames ;; py_zip (false_tuple n) limitedmax
     else OK parlimits) ;;
  if negb (is_none minpars) then
    if negb (is_none maxpars) then py_zip minpars maxpars
    else n <- py_len parnames ;; py_zip minpars (false_tuple n)
  else if negb (is_none maxpars) then
    n <- py_len parnames ;; py_zip (false_tuple n) maxpars
  else OK parlimits.

(** An object used as an integer ([xrange(v)], [int * v]); the peak count
    is documented as an integer and any other kind of object is refused. *)
Definition py_int (v : pyval) : result Z :=
  match v with
  | VInt z => OK z
  | VBool b => OK (Z.b2z b)
  | _ => Err TypeError
  end.

(** [self.npars*self.npeaks]. *)
Definition total_pars (npars : Z) (npeaks : pyval) : result Z :=
  k <- py_int npeaks ;; OK (npars * k).

(** The dictionary [temp_pardict], whose eight keys are fixed. *)
Record TempPardict : Type := mkTempPardict {
  td_parnames : pyval;
  td_parvalues : pyval;
  td_parsteps : pyval;
  td_parlimits : pyval;
  td_parlimited : pyval;
  td_parfixed : pyval;
  td_parerror : pyval;
  td_partied : pyval
}.

(** Lines 116-118, one item: a sequence left at [None] becomes an array
    of false. *)
Definition zeros_if_none (npars : Z) (npeaks v : pyval) : result pyval :=
  if is_none v then n <- total_pars npars npeaks ;; np_zeros_bool n else OK v.

(** Lines 119-120: [v if v is not None else [item] * (npars*npeaks)]. *)
Definition filled_if_none (npars : Z) (npeaks v item : pyval) : result pyval :=
  if is_none v then
    n <- total_pars npars npeaks ;; OK (VList (repeat item (Z.to_nat n)))
  else OK v.

(** Lines 116-120. *)
Definition make_temp_pardict (npars : Z) (npeaks : pyval)
  (parnames parvalues parsteps parlimits parlimited parfixed parerror
   partied : pyval) : result TempPardict :=
  d_names <- zeros_if_none npars npeaks parnames ;;
  d_values <- zeros_if_none npars npeaks parvalues ;;
  d_steps <- zeros_if_none npars npeaks parsteps ;;
  _ <- zeros_if_none npars npeaks parlimits ;;
  _ <- zeros_if_none npars npeaks parlimited ;;
  d_fixed <- zeros_if_none npars npeaks parfixed ;;
  d_error <- zeros_if_none npars npeaks parerror ;;
  d_tied <- zeros_if_none npars npeaks partied ;;
  d_limits <- filled_if_none npars npeaks parlimits (VTuple [VInt 0; VInt 0]) ;;
  d_limited <-
    filled_if_none npars npeaks parlimited (VTuple [VBool false; VBool false]) ;;
  OK (mkTempPardict d_names d_values d_steps d_limits d_limited d_fixed
        d_error d_tied).

(** [v.upper()]: only a string has the method. *)
Definition py_upper (v : pyval) : result string :=
  match v with
  | VStr s => OK (upper s)
  | _ => Err (AttributeError "upper")
  end.

(** Lines 125-133: the dictionary of peak [jj], parameter [ii].  The loops
    only run with [npars > 0] and [ii, jj >= 0], so the index
    [ii+self.npars*jj] is never negative. *)
Definition make_entry (npars : Z) (td : TempPardict) (jj ii : nat)
  : result ParinfoEntry :=
  let n := Z.of_nat ii + npars * Z.of_nat jj in
  let idx := Z.to_nat n in
  value <- py_getitem (td_parvalues td) idx ;;
  step <- py_getitem (td_parsteps td) idx ;;
  limits <- py_getitem (td_parlimits td) idx ;;
  limited <- py_getitem (td_parlimited td) idx ;;
  fixed <- py_getitem (td_parfixed td) idx ;;
  base <- py_getitem (td_parnames td) ii ;;
  name <- py_upper base ;;
  error <- py_getitem (td_parerror td) idx ;;
  t <- py_getitem (td_partied td) idx ;;
  tied <- (if truthy t then py_getitem (td_partied td) idx else OK (VStr "")) ;;
  OK (mkParinfoEntry n value step limits limited fixed
        (name ++ fmt_index jj) error tied).

(** The pairs [(jj, ii)] in the order of
    [for jj in xrange(npeaks) for ii in xrange(npars)]. *)
Definition peak_major (npeaks npars : nat) : list (nat * nat) :=
  flat_map (fun jj => map (fun ii => (jj, ii)) (seq 0 npars)) (seq 0 npeaks).

(** Lines 125-135. *)
Definition make_table (npars : Z) (npeaks : pyval) (td : TempPardict)
  : result (list ParinfoEntry) :=
  k <- py_int npeaks ;;
  mapM (fun '(jj, ii) => make_entry npars td jj ii)
       (peak_major (Z.to_nat k) (Z.to_nat npars)).

(** Lines 141-143, the body of the loop for [negamp] true.  The entry is
    updated in place: when the second statement raises, the first has
    already been done. *)
Definition amp_upper (p : ParinfoEntry) : ParinfoEntry * option exn :=
  if str_contains "AMP" (pi_parname p) then
    match py_getitem (pi_limited p) 0 with
    | Err e => (p, Some e)
    | OK l0 =>
        let p := set_limited (VTuple [l0; VBool true]) p in
        match py_getitem (pi_limits p) 0 with
        | Err e => (p, Some e)
        | OK m0 => (set_limits (VTuple [m0; VInt 0]) p, None)
        end
    end
  else (p, None).

(** Lines 146-148, the body of the loop for [negamp] false. *)
Definition amp_lower (p : ParinfoEntry) : ParinfoEntry * option exn :=
  if str_contains "AMP" (pi_parname p) then
    match py_getitem (pi_limited p) 1 with
    | Err e => (p, Some e)
    | OK l1 =>
        let p := set_limited (VTuple [VBool true; l1]) p in
        match py_getitem (pi_limits p) 1 with
        | Err e => (p, Some e)
        | OK m1 => (set_limits (VTuple [VInt 0; m1]) p, None)
        end
    end
  else (p, None).

(** [for p in self.parinfo: body], the entries being updated in place
    until an exception stops the loop. *)
Fixpoint for_each (body : ParinfoEntry -> ParinfoEntry * option exn)
  (tbl : list ParinfoEntry) : list ParinfoEntry * option exn :=
  match tbl with
  | [] => ([], None)
  | p :: rest =>
      match body p with
      | (p', Some e) => (p' :: rest, Some e)
      | (p', None) =>
          let (rest', oe) := for_each body rest in (p' :: rest', oe)
      end
  end.

(** Lines 138-148. *)
Definition apply_negamp (negamp : pyval) (tbl : list ParinfoEntry)
  : list ParinfoEntry * option exn :=
  if is_none negamp then (tbl, None)
  else if truthy negamp then for_each amp_upper tbl
  else for_each amp_lower tbl.

(** Lines 87-90: the names given replace the stored ones, else the stored
    ones are used. *)
Definition resolve_parnames (self : SpectralModel) (given : pyval)
  : result (SpectralModel * pyval) :=
  if negb (is_none given) then OK (set_parnames given self, given)
  else
    stored <- getattr "parnames" (parnames self) ;;
    if negb (is_none stored) then OK (self, stored) else OK (self, given).

Definition conflict_message : string :=
  "parvalues and params both specified; they're redundant so that's not allowed.".

(** The parameters of [_make_parinfo] once a call is bound to its
    signature, and [a_kwargs], the keys the signature does not name. *)
Record Bound : Type := mkBound {
  a_params : pyval;
  a_parnames : pyval;
  a_parvalues : pyval;
  a_parlimits : pyval;
  a_parlimited : pyval;
  a_parfixed : pyval;
  a_parerror : pyval;
  a_partied : pyval;
  a_fitunits : pyval;
  a_parsteps : pyval;
  a_npeaks : pyval;
  a_shortvarnames : pyval;
  a_parinfo : pyval;
  a_names : pyval;
  a_values : pyval;
  a_limits : pyval;
  a_limited : pyval;
  a_fixed : pyval;
  a_error : pyval;
  a_tied : pyval;
  a_steps : pyval;
  a_negamp : pyval;
  a_limitedmin : pyval;
  a_limitedmax : pyval;
  a_minpars : pyval;
  a_maxpars : pyval;
  a_kwargs : kwargs
}.

(** Binding a call to the signature (lines 64-73), with its defaults. *)
Definition bind_arguments (kw : kwargs) : Bound :=
  mkBound
    (keyword kw "params" VNone)
    (keyword kw "parnames" VNone)
    (keyword kw "parvalues" VNone)
    (keyword kw "parlimits" VNone)
    (keyword kw "parlimited" VNone)
    (keyword kw "parfixed" VNone)
    (keyword kw "parerror" VNone)
    (keyword kw "partied" VNone)
    (keyword kw "fitunits" VNone)
    (keyword kw "parsteps" VNone)
    (keyword kw "npeaks" (VInt 1))
    (keyword kw "shortvarnames" default_shortvarnames)
    (keyword kw "parinfo" VNone)
    (keyword kw "names" VNone)
    (keyword kw "values" VNone)
    (keyword kw "limits" VNone)
    (keyword kw "limited" VNone)
    (keyword kw "fixed" VNone)
    (keyword kw "error" VNone)
    (keyword kw "tied" VNone)
    (keyword kw "steps" VNone)
    (keyword kw "negamp" VNone)
    (keyword kw "limitedmin" VNone)
    (keyword kw "limitedmax" VNone)
    (keyword kw "minpars" VNone)
    (keyword kw "maxpars" VNone)
    (residual_kwargs make_parinfo_keywords kw).

(** The body of [_make_parinfo] (lines 75-150) on bound parameters: the
    instance after the call, and either the exception raised or the pair
    returned. *)
Definition make_parinfo_body (self : SpectralModel) (a : Bound)
  : SpectralModel * result (list ParinfoEntry * kwargs) :=
  let parnames := alias (a_parnames a) (a_names a) in
  let parvalues := alias (a_parvalues a) (a_values a) in
  let parsteps := alias (a_parsteps a) (a_steps a) in
  let parlimits := alias (a_parlimits a) (a_limits a) in
  let parlimited := alias (a_parlimited a) (a_limited a) in
  let parfixed := alias (a_parfixed a) (a_fixed a) in
  let parerror := alias (a_parerror a) (a_error a) in
  let partied := alias (a_partied a) (a_tied a) in
  if negb (is_none (a_params a)) && negb (is_none parvalues) then
    (self, Err (ValueError conflict_message))
  else
    let parvalues :=
      if negb (is_none (a_params a)) then a_params a else parvalues in
    match resolve_parnames self parnames with
    | Err e => (self, Err e)
    | OK (self, parnames) =>
        let self :=
          if negb (is_none (a_shortvarnames a))
          then set_shortvarnames (a_shortvarnames a) self else self in
        match limit_synthesis parnames parlimits (a_limitedmin a)
                (a_limitedmax a) (a_minpars a) (a_maxpars a) with
        | Err e => (self, Err e)
        | OK parlimits =>
            let self := set_npeaks (a_npeaks a) (set_fitunits (a_fitunits a) self) in
            match
              td <- make_temp_pardict (npars self) (a_npeaks a) parnames
                      parvalues parsteps parlimits parlimited parfixed
                      parerror partied ;;
              make_table (npars self) (a_npeaks a) td
            with
            | Err e => (self, Err e)
            | OK tbl =>
                match apply_negamp (a_negamp a) tbl with
                | (tbl', Some e) => (set_parinfo tbl' self, Err e)
                | (tbl', None) => (set_parinfo tbl' self, OK (tbl', a_kwargs a))
                end
            end
        end
    end.

(** [self._make_parinfo] called with the keyword mapping [kw]. *)
Definition _make_parinfo (self : SpectralModel) (kw : kwargs)
  : SpectralModel * result (list ParinfoEntry * kwargs) :=
  make_parinfo_body self (bind_arguments kw).

(** [SpectralModel.__init__]: the attributes of the new instance, then the
    first call of the builder.  The base class [fitter.SimpleFitter] decides
    whether a new instance already has [parnames]; [class_parnames] is
    what it provides ([None] when it provides nothing). *)
Definition __init__ (class_parnames : option pyval)
  (modelfunc : Axis -> list float -> kwargs -> result (list float))
  (npars : Z) (multisingle : string) (kw : kwargs)
  : SpectralModel * result unit :=
  let self :=
    mkSpectralModel modelfunc npars multisingle class_parnames
      None None None None None None None None None None in
  match _make_parinfo self kw with
  | (self, Err e) => (self, Err e)
  | (self, OK (tbl, kw')) =>
      (set_modelfunc_kwargs kw' (set_parinfo tbl self), OK tt)
  end.

(* ===================================================================== *)
(** ** The multi-peak composer: [SpectralModel.n_modelfunc] *)
(* ===================================================================== *)

(** The loop of [L]: [v += self.modelfunc(x, *pars[...], **kwargs)] for
    each peak in turn. *)
Fixpoint sum_peaks (peak : nat -> result (list float)) (peaks : list nat)
  (v : list float) : result (list float) :=
  match peaks with
  | [] => OK v
  | jj :: rest =>
      m <- peak jj ;;
      v' <- np_iadd v m ;;
      sum_peaks peak rest v'
  end.

(** [self.n_modelfunc(pars, **kw)], applied to the axis [x].  The integer
    division [len(pars)/self.npars] rounds down and fails on a zero
    divisor, when [L] is called. *)
Definition n_modelfunc (self : SpectralModel) (pars : list float) (kw : kwargs)
  : Axis -> result (list float) :=
  fun x =>
    let v := np_zeros (length (ax_values x)) in
    if npars self =? 0 then Err ZeroDivisionError
    else
      let k := Z.of_nat (length pars) / npars self in
      sum_peaks
        (fun jj =>
           modelfunc self x
             (py_slice_Z pars (Z.of_nat jj * npars self)
                ((Z.of_nat jj + 1) * npars self)) kw)
        (seq 0 (Z.to_nat k)) v.

(* ===================================================================== *)
(** ** The caller's arrays *)
(* ===================================================================== *)

(** The numpy arrays the caller owns, by location. *)
Abbreviation Heap := (gmap nat (list float)).

(** Reading the array behind a reference.  A reference always denotes an
    object in Python; a location outside the heap is reported as an
    exception of the environment. *)
Definition heap_read (h : Heap) (l : nat) : result (list float) :=
  match h !! l with
  | Some a => OK a
  | None => Err (Raised "no array at this location")
  end.

(** [np.isnan(data) + np.isinf(data)]: the sum of two boolean arrays is
    their disjunction. *)
Definition bad_mask (d : list float) : list bool :=
  zip_with orb (map isnan d) (map isinf d).

(** [a[mask] = v] for a boolean mask, which must have the length of [a]. *)
Definition np_setmask (a : list float) (mask : list bool) (v : float)
  : result (list float) :=
  if (length a =? length mask)%nat
  then OK (zip_with (fun x (b : bool) => if b then v else x) a mask)
  else Err IndexError.

(** Lines 228-230 of [fitter].  [err] is [None] when the caller gave no
    error array; assigning into [None] is a [TypeError]. *)
Definition sanitize (h : Heap) (data : nat) (err : option nat)
  : Heap * result unit :=
  match heap_read h data with
  | Err e => (h, Err e)
  | OK d =>
      if np_any (map isnan d) || np_any (map isinf d) then
        match err with
        | None => (h, Err TypeError)
        | Some el =>
            match e <- heap_read h el ;; np_setmask e (bad_mask d) f64_inf with
            | Err x => (h, Err x)
            | OK e' =>
                let h := <[el := e']> h in
                match
                  d <- heap_read h data ;;
                  np_setmask d (bad_mask d) (f64_of_Z 0)
                with
                | Err x => (h, Err x)
                | OK d' => (<[data := d']> h, OK tt)
                end
            end
        end
      else (h, OK tt)
  end.

(* ===================================================================== *)
(** ** The fit driver and the result accessors *)
(* ===================================================================== *)

(** [for i,p in enumerate(mpp)] of the verbose report: the fitted value is
    stored in [self.parinfo[i]] and [mpperr[i]] is printed. *)
Fixpoint store_values (i : nat) (mpp mpperr : list float)
  (tbl : list ParinfoEntry) : list ParinfoEntry * option exn :=
  match mpp with
  | [] => (tbl, None)
  | p :: rest =>
      match tbl !! i with
      | None => (tbl, Some IndexError)
      | Some e =>
          let tbl := <[i := set_value (VFloat p) e]> tbl in
          match mpperr !! i with
          | None => (tbl, Some IndexError)
          | Some _ => store_values (S i) rest mpperr tbl
          end
      end
  end.

(** [svn * k] on a sequence. *)
Definition py_repeat (v : pyval) (k : Z) : result pyval :=
  match v with
  | VTuple l => OK (VTuple (concat (repeat l (Z.to_nat k))))
  | VList l => OK (VList (concat (repeat l (Z.to_nat k))))
  | VStr s => OK (VStr (fold_right String.append "" (repeat s (Z.to_nat k))))
  | _ => Err TypeError
  end.

Section Collaborators.

(** The solver [mpfit(f, parinfo=..., quiet=..., **kwargs)], a black
    box: it may call the residual function [f] and returns its report
    or raises. *)
Variable mpfit :
  (list float -> result (list float)) -> list ParinfoEntry -> bool ->
  kwargs -> result MpResult.

(** The table [mpfit_messages], indexed by a status code. *)
Variable mpfit_messages : Z -> result string.

(** The text of one annotation: the format string of [annotations]
    applied to the short name, the peak index, the fitted value and its
    uncertainty, with [Decimal.quantize] doing the rounding. *)
Variable format_label : pyval -> nat -> float -> float -> result string.

(** [self.mpfitfun(x, y, err)]: the residual function handed to the
    solver, which reads the arrays [y] and [err] when the solver calls it.
    Of the pair [[0, residuals]] it returns, the residuals are kept. *)
Definition mpfitfun (self : SpectralModel) (h : Heap) (x : Axis) (y : nat)
  (err : option nat) : list float -> result (list float) :=
  fun p =>
    kw <- getattr "modelfunc_kwargs" (modelfunc_kwargs self) ;;
    m <- n_modelfunc self p kw x ;;
    yv <- heap_read h y ;;
    r <- np_binop f64_sub yv m ;;
    match err with
    | None => OK r
    | Some el => ev <- heap_read h el ;; np_binop f64_div r ev
    end.

(** Lines 221-226: the axis given to the model. *)
Definition fit_axis (self : SpectralModel) (xax : Axis) (quiet : bool)
  : result Axis :=
  match ax_convert_to_unit xax with
  | Some convert =>
      units <- getattr "fitunits" (fitunits self) ;;
      if negb (is_none units) then
        vals <- convert units quiet ;;
        OK (mkAxis vals (ax_convert_to_unit xax) (ax_x_to_pix xax))
      else OK xax
  | None => OK xax
  end.

(** Lines 245-252, the verbose report; only what can change the state or
    raise is kept of the [print] statements. *)
Definition verbose_report (self : SpectralModel) (r : MpResult)
  (mpperr : list float) : SpectralModel * result unit :=
  match mpfit_messages (mp_status r) with
  | Err e => (self, Err e)
  | OK _ =>
      match mp_params r with
      | [] => (self, OK tt)
      | _ :: _ =>
          match parinfo self with
          | None => (self, Err (AttributeError "parinfo"))
          | Some tbl =>
              match store_values 0 (mp_params r) mpperr tbl with
              | (tbl', Some e) => (set_parinfo tbl' self, Err e)
              | (tbl', None) => (set_parinfo tbl' self, OK tt)
              end
          end
      end
  end.

(** Lines 236-263: from the call of the solver to the end. *)
Definition run_solver (self : SpectralModel) (h : Heap) (xax : Axis)
  (data : nat) (err : option nat) (quiet veryverbose debug : bool)
  (tbl : list ParinfoEntry) (kw : kwargs)
  : SpectralModel * result (list float * list float * list float * float) :=
  match mpfit (mpfitfun self h xax data err) tbl quiet kw with
  | Err e => (self, Err e)
  | OK r =>
      let mpp := mp_params r in
      let mpperr :=
        match mp_perror r with
        | Some pe => pe
        | None => map (fun x => f64_mul x (f64_of_Z 0)) mpp
        end in
      let chi2 := mp_fnorm r in
      if mp_status r =? 0 then (self, Err (Exception (mp_errmsg r)))
      else
        match
          (if veryverbose then verbose_report self r mpperr
           else (self, OK tt))
        with
        | (self, Err e) => (self, Err e)
        | (self, OK _) =>
            let self := set_fit r mpp mpperr self in
            match
              kw' <- getattr "modelfunc_kwargs" (modelfunc_kwargs self) ;;
              n_modelfunc self mpp kw' xax
            with
            | Err e => (self, Err e)
            | OK m =>
                let self := set_model m self in
                if isnan chi2 && debug
                then (self, Err (ValueError "Error: chi^2 is nan"))
                else (self, OK (mpp, m, mpperr, chi2))
            end
        end
  end.

(** [self.fitter(xax, data, err, quiet, veryverbose, debug, parinfo,
    **kw)]: the caller's arrays and the instance after the call, and the
    exception raised or the tuple returned.  [data] and [err] are the
    locations of the caller's arrays.  An entry of a table is a typed
    record here, so the [print] statements of the debug mode cannot
    raise and are left out. *)
Definition fitter (self : SpectralModel) (h : Heap) (xax : Axis)
  (data : nat) (err : option nat) (quiet veryverbose debug : bool)
  (parinfo : option (list ParinfoEntry)) (kw : kwargs)
  : Heap * SpectralModel *
    result (list float * list float * list float * float) :=
  match _make_parinfo self kw with
  | (self, Err e) => (h, self, Err e)
  | (self, OK (built, kw)) =>
      let tbl := match parinfo with Some given => given | None => built end in
      let self := set_xax xax self in
      match fit_axis self xax quiet with
      | Err e => (h, self, Err e)
      | OK xax =>
          match sanitize h data err with
          | (h, Err e) => (h, self, Err e)
          | (h, OK _) =>
              let (self, r) :=
                run_solver self h xax data err quiet veryverbose debug tbl kw
              in (h, self, r)
          end
      end
  end.

(** [self.slope(xinp)]; the value returned is a float, the integer 0, or
    [None] when the method falls off its end. *)
Definition slope (self : SpectralModel) (xinp : float) : result pyval :=
  match model self with
  | Some m =>
      let dm := np_diff m in
      axis <- getattr "xax" (xax self) ;;
      x_to_pix <- getattr "x_to_pix" (ax_x_to_pix axis) ;;
      xpix <- x_to_pix xinp ;;
      let dmx := np_average (py_slice_Z dm (xpix - 1) (xpix + 1)) in
      if isfinite dmx then OK (VFloat dmx) else OK (VInt 0)
  | None => OK VNone
  end.

(** One label of [annotations], for peak [jj] and parameter [ii]. *)
Definition make_label (self : SpectralModel) (svn : pyval) (jj ii : nat)
  : result string :=
  let idx := Z.to_nat (Z.of_nat ii + Z.of_nat jj * npars self) in
  name <- py_getitem svn idx ;;
  values <- getattr "mpp" (mpp self) ;;
  v <- match values !! idx with Some v => OK v | None => Err IndexError end ;;
  errors <- getattr "mpperr" (mpperr self) ;;
  e <- match errors !! idx with Some e => OK e | None => Err IndexError end ;;
  format_label name jj v e.

(** [self.annotations(shortvarnames)]: the tuple of labels. *)
Definition annotations (self : SpectralModel) (given : pyval)
  : result (list string) :=
  svn <- (if is_none given
          then getattr "shortvarnames" (shortvarnames self)
          else OK given) ;;
  len <- py_len svn ;;
  peaks <- getattr "npeaks" (npeaks self) ;;
  k <- py_int peaks ;;
  svn <- (if Z.of_nat len <? k * npars self then py_repeat svn k else OK svn) ;;
  mapM (fun '(jj, ii) => make_label self svn jj ii)
       (peak_major (Z.to_nat k) (Z.to_nat (npars self))).


End Collaborators.

(* ===================================================================== *)
(** ** Notions used in the statements *)
(* ===================================================================== *)

(** What the sign constraint never touches: every field but [limits] and
    [limited]. *)
Definition same_identity (p p' : ParinfoEntry) : Prop :=
  pi_n p' = pi_n p /\ pi_parname p' = pi_parname p /\
  pi_value p' = pi_value p /\ pi_step p' = pi_step p /\
  pi_fixed p' = pi_fixed p /\ pi_error p' = pi_error p /\
  pi_tied p' = pi_tied p.

(** The instance once lines 91-92 and 111-112 have run. *)
Definition after_settings (a : Bound) (self : SpectralModel) : SpectralModel :=
  set_npeaks (a_npeaks a)
    (set_fitunits (a_fitunits a)
       (if negb (is_none (a_shortvarnames a))
        then set_shortvarnames (a_shortvarnames a) self else self)).

(** The first argument of the table: the values, after lines 75-85. *)
Definition effective_values (a : Bound) : pyval :=
  if negb (is_none (a_params a)) then a_params a
  else alias (a_parvalues a) (a_values a).

(** The bound parameters with [negamp] replaced. *)
Definition with_negamp (v : pyval) (a : Bound) : Bound :=
  mkBound (a_params a) (a_parnames a) (a_parvalues a) (a_parlimits a)
    (a_parlimited a) (a_parfixed a) (a_parerror a) (a_partied a)
    (a_fitunits a) (a_parsteps a) (a_npeaks a) (a_shortvarnames a)
    (a_parinfo a) (a_names a) (a_values a) (a_limits a) (a_limited a)
    (a_fixed a) (a_error a) (a_tied a) (a_steps a) v (a_limitedmin a)
    (a_limitedmax a) (a_minpars a) (a_maxpars a) (a_kwargs a).

(** An entry [p'] is the entry [p] with the negative-amplitude constraint:
    an amplitude entry has its upper bound 0 and enforced, its lower bound
    and the flag of the lower bound being those of [p]; any other entry is
    [p] itself. *)
Definition upper_constrained (p p' : ParinfoEntry) : Prop :=
  if str_contains "AMP" (pi_parname p) then
    same_identity p p' /\
    py_getitem (pi_limits p') 1 = OK (VInt 0) /\
    py_getitem (pi_limited p') 1 = OK (VBool true) /\
    py_getitem (pi_limits p') 0 = py_getitem (pi_limits p) 0 /\
    py_getitem (pi_limited p') 0 = py_getitem (pi_limited p) 0
  else p' = p.

(** The same for the positive-amplitude constraint, on the lower bound. *)
Definition lower_constrained (p p' : ParinfoEntry) : Prop :=
  if str_contains "AMP" (pi_parname p) then
    same_identity p p' /\
    py_getitem (pi_limits p') 0 = OK (VInt 0) /\
    py_getitem (pi_limited p') 0 = OK (VBool true) /\
    py_getitem (pi_limits p') 1 = py_getitem (pi_limits p) 1 /\
    py_getitem (pi_limited p') 1 = py_getitem (pi_limited p) 1
  else p' = p.

(** Every pair of the sequence [r] holds [False] at position [side]
    (0: the lower side, 1: the upper side). *)
Definition side_disabled (side : nat) (r : pyval) : Prop :=
  forall (i : nat) (pair : pyval),
    py_getitem r i = OK pair -> py_getitem pair side = OK (VBool false).

(** The composite model as the specification words it, to be compared
    with [n_modelfunc]: the flat vector is cut into [k] contiguous slices
    of [n] parameters, the single-peak model is evaluated on each slice,
    and the curves are summed sample by sample. *)
Fixpoint contiguous_slices {A : Type} (n k : nat) (pars : list A) : list (list A) :=
  match k with
  | O => []
  | S k' => firstn n pars :: contiguous_slices n k' (skipn n pars)
  end.

Definition elementwise_sum (len : nat) (curves : list (list float)) : list float :=
  fold_left (zip_with f64_add) curves (np_zeros len).

Definition spec_composite (self : SpectralModel) (k : nat) (pars : list float)
  (kw : kwargs) (x : Axis) : result (list float) :=
  curves <- mapM (fun slice => modelfunc self x slice kw)
              (contiguous_slices (Z.to_nat (npars self)) k pars) ;;
  OK (elementwise_sum (length (ax_values x)) curves).

(** Two samples are the same number: identical (two NaN included), or two
    zeros, whatever their signs.  This is the equality of
    [numpy.testing.assert_array_equal]. *)
Definition same_number (a b : float) : Prop :=
  match a, b with
  | S754_zero _, S754_zero _ => True
  | _, _ => a = b
  end.

(** A sample that is NaN or infinite. *)
Definition bad (y : float) : bool := isnan y || isinf y.

(** The condition of line 228. *)
Definition has_bad (d : list float) : bool :=
  np_any (map isnan d) || np_any (map isinf d).

(** The data once sanitized: 0 in place of every NaN or infinite sample. *)
Definition sanitized_data (d : list float) : list float :=
  map (fun y => if bad y then f64_of_Z 0 else y) d.

(** The errors once sanitized: infinity wherever the data sample is NaN
    or infinite. *)
Definition sanitized_error (d e : list float) : list float :=
  zip_with (fun y s => if bad y then f64_inf else s) d e.

(** The doubles 1.0 and 2.0 of the examples. *)
Definition f64_one : float := f64_of_Z 1.
Definition f64_two : float := f64_of_Z 2.



(* ===================================================================== *)
(** ** A worked instance *)
(* ===================================================================== *)

(** A three-parameter model whose curve is flat at its first parameter. *)
Definition flat_model : Axis -> list float -> kwargs -> result (list float) :=
  fun x pars _ => OK (map (fun _ => nth 0 pars f64_zero) (ax_values x)).

Definition demo_parnames : pyval :=
  VList [VStr "amplitude"; VStr "shift"; VStr "width"].

(** The instance made by
    [SpectralModel(flat_model, 3, parnames=['amplitude','shift','width'])]. *)
Definition demo_self : SpectralModel :=
  fst (__init__ None flat_model 3 "multi" (<["parnames" := demo_parnames]> ∅)).

(** Keywords of a call with two peaks and negative amplitudes; [quiet] is
    not a keyword of the builder. *)
Definition demo_kw : kwargs :=
  <["npeaks" := VInt 2]> (<["negamp" := VBool true]> (<["quiet" := VBool true]> ∅)).

Definition demo_params : pyval :=
  VList [VFloat f64_one; VFloat f64_zero; VFloat f64_two].

(** Keywords of a call giving [params], and lower limits on one side. *)
Definition demo_kw_params : kwargs :=
  <["params" := demo_params]>
    (<["minpars" := VList [VInt 0; VInt 0; VInt 0]]>
       (<["limitedmin" := VList [VBool true; VBool true; VBool true]]> ∅)).

(** What a call of the builder left and returned. *)
Definition state_after (self : SpectralModel) (kw : kwargs) : SpectralModel :=
  fst (_make_parinfo self kw).

Definition table_of (self : SpectralModel) (kw : kwargs) : list ParinfoEntry :=
  match snd (_make_parinfo self kw) with
  | OK (tbl, _) => tbl
  | Err _ => []
  end.

Definition residual_of (self : SpectralModel) (kw : kwargs) : kwargs :=
  match snd (_make_parinfo self kw) with
  | OK (_, kw') => kw'
  | Err _ => ∅
  end.

(** A solver that reports one flat peak of height 1 without iterating. *)
Definition demo_mpfit :
  (list float -> result (list float)) -> list ParinfoEntry -> bool ->
  kwargs -> result MpResult :=
  fun _ _ _ _ =>
    OK (mkMpResult [f64_one; f64_zero; f64_one] None f64_zero 1 "").

Definition demo_messages : Z -> result string := fun _ => OK "".

Definition demo_format_label : pyval -> nat -> float -> float -> result string :=
  fun _ _ _ _ => OK "".

Definition demo_axis : Axis :=
  mkAxis [f64_zero; f64_one; f64_two; f64_of_Z 3] None None.

(** The caller's arrays: the data at location 0, the errors at location 1. *)
Definition demo_heap : Heap :=
  <[0%nat := [f64_nan; f64_one; f64_inf; f64_two]]>
    (<[1%nat := [f64_one; f64_one; f64_one; f64_one]]> ∅).

(** Two flat peaks, of heights 1 and 2. *)
Definition demo_pars : list float :=
  [f64_one; f64_zero; f64_one; f64_two; f64_zero; f64_one].

(** A fit of the demo data with its error array, and what it returned. *)
Definition demo_outcome :
  Heap * SpectralModel * result (list float * list float * list float * float) :=
  fitter demo_mpfit demo_messages demo_self demo_heap demo_axis
    0%nat (Some 1%nat) true false false None ∅.

Definition demo_fitted :
  list float * list float * list float * float :=
  match snd demo_outcome with
  | OK res => res
  | Err _ => ([], [], [], f64_zero)
  end.

(** An instance holding the curve [1, 2, 3] over the axis [0, 10, 20]. *)
Definition demo_curve : list float := [f64_one; f64_two; f64_of_Z 3].




(* ===================================================================== *)
(** ** The per-peak curves: [SpectralModel.components] *)
(* ===================================================================== *)

(** The call [self.modelfunc(xarr, *slice, return_components=True,
    **self.modelfunc_kwargs)] of one peak: a keyword given twice is a
    [TypeError]. *)
Definition component_call (self : SpectralModel) (xarr : Axis)
  (slice : list float) : result (list float) :=
  kw <- getattr "modelfunc_kwargs" (modelfunc_kwargs self) ;;
  match kw !! "return_components" with
  | Some _ => Err TypeError
  | None => modelfunc self xarr slice (<["return_components" := VBool true]> kw)
  end.

(** [self.components(xarr, pars)]: one curve for each of the stored number
    of peaks. *)
Definition components (self : SpectralModel) (xarr : Axis) (pars : list float)
  : result (list (list float)) :=
  peaks <- getattr "npeaks" (npeaks self) ;;
  k <- py_int peaks ;;
  mapM (fun i =>
          component_call self xarr
            (py_slice_Z pars (Z.of_nat i * npars self)
               ((Z.of_nat i + 1) * npars self)))
       (seq 0 (Z.to_nat k)).

(* ===================================================================== *)
(** ** More notions used in the statements *)
(* ===================================================================== *)

(** The eight sequences of the builder, under their long and short
    keywords. *)
Definition alias_pairs : list (string * string) :=
  [ ("parnames", "names"); ("parvalues", "values"); ("parsteps", "steps");
    ("parlimits", "limits"); ("parlimited", "limited"); ("parfixed", "fixed");
    ("parerror", "error"); ("partied", "tied") ].

(** A sequence with [len()] has at least [n] items. *)
Definition at_least (n : Z) (seq : pyval) : Prop :=
  forall len, py_len seq = OK len -> n <= Z.of_nat len.

(** A sample that is a zero, of either sign. *)
Definition is_zero (y : float) : bool :=
  match y with S754_zero _ => true | _ => false end.

(** What lines 116-120 put in [temp_pardict] for the sequence [v]: [v]
    itself, or copies of [item] when [v] is [None]. *)
Definition default_or (v item r : pyval) : Prop :=
  if is_none v then exists n, r = VList (repeat item n) else r = v.

(** The sequence a call gives under a long keyword and its short form
    (lines 76-80). *)
Definition sequence_of (kw : kwargs) (long short : string) : pyval :=
  alias (keyword kw long VNone) (keyword kw short VNone).

(** Exactly one of the two keywords of a pair is given. *)
Definition one_sided (lower upper : pyval) : bool :=
  xorb (is_none lower) (is_none upper).

(** The second instance has the model of the first: the model function,
    [npars], the mode and the model options. *)
Definition keeps_model (self self' : SpectralModel) : Prop :=
  modelfunc self' = modelfunc self /\ npars self' = npars self /\
  multisingle self' = multisingle self /\
  modelfunc_kwargs self' = modelfunc_kwargs self.

(** The second instance records the fit the first records. *)
Definition keeps_fit (self self' : SpectralModel) : Prop :=
  mp self' = mp self /\ mpp self' = mpp self /\
  mpperr self' = mpperr self /\ model self' = model self.

(** The uncertainties a report gives, or the fitted values times 0
    (lines 238-239). *)
Definition report_errors (r : MpResult) : list float :=
  match mp_perror r with
  | Some pe => pe
  | None => map (fun x => f64_mul x (f64_of_Z 0)) (mp_params r)
  end.

(* ===================================================================== *)
(** ** More of the worked instance *)
(* ===================================================================== *)

(** An instance that has never been given names. *)
Definition blank_self : SpectralModel :=
  mkSpectralModel flat_model 3 "multi" None None None None None None None
    None None None None.

(** A call that gives the names under both keywords. *)
Definition demo_kw_names : kwargs :=
  <["names" := demo_parnames]>
    (<["parnames" := VList [VStr "a"; VStr "b"; VStr "c"]]> ∅).

(** Two data samples against one error sample. *)
Definition demo_heap_short : Heap :=
  <[0%nat := [f64_nan; f64_one]]> (<[1%nat := [f64_one]]> ∅).

(** A solver that gives up, and one whose chi-square is NaN. *)
Definition failing_mpfit :
  (list float -> result (list float)) -> list ParinfoEntry -> bool ->
  kwargs -> result MpResult :=
  fun _ _ _ _ => OK (mkMpResult [] None f64_zero 0 "no convergence").

Definition demo_nan_report : MpResult :=
  mkMpResult [f64_one; f64_zero; f64_one] None f64_nan 1 "".

Definition nan_mpfit :
  (list float -> result (list float)) -> list ParinfoEntry -> bool ->
  kwargs -> result MpResult :=
  fun _ _ _ _ => OK demo_nan_report.

Definition demo_report : MpResult :=
  mkMpResult [f64_one; f64_zero; f64_one] None f64_zero 1 "".

(** An axis of three samples that maps every coordinate to pixel 1, and an
    instance holding the curve [1, 2, 3] over it. *)
Definition demo_pixel_axis : Axis :=
  mkAxis [f64_zero; f64_one; f64_two] None (Some (fun _ => OK 1)).

Definition demo_sloped : SpectralModel :=
  set_model demo_curve (set_xax demo_pixel_axis demo_self).

(** The instance after the fit of the example. *)
Definition demo_fit_state : SpectralModel := snd (fst demo_outcome).

(** The heap after the sanitization of the example. *)
Definition demo_clean_heap : Heap := fst (sanitize demo_heap 0%nat (Some 1%nat)).


(* ===================================================================== *)
(** ** General facts *)
(* ===================================================================== *)

Lemma bind_OK {A B : Type} (r : result A) (k : A -> result B) (b : B) :
  bind r k = OK b -> exists a, r = OK a /\ k a = OK b.
Proof.
  destruct r as [a|e]; simpl; intros H; [eauto | discriminate].
Qed.

(** Undo one [bind] in a hypothesis that says a computation succeeded. *)
Ltac inv_bind H :=
  let a := fresh "a" in
  let Ha := fresh "Ha" in
  apply bind_OK in H; destruct H as (a & Ha & H).

Lemma mapM_OK_Forall2 {A B : Type} (f : A -> result B) (l : list A) (r : list B) :
  mapM f l = OK r -> Forall2 (fun a b => f a = OK b) l r.
Proof.
  revert r; induction l as [|a l IH]; simpl; intros r H.
  - injection H as <-. constructor.
  - inv_bind H. inv_bind H. injection H as <-.
    constructor; [assumption | apply IH; assumption].
Qed.

Lemma peak_major_length (npeaks npars : nat) :
  length (peak_major npeaks npars) = (npeaks * npars)%nat.
Proof.
  unfold peak_major.
  generalize 0%nat at 2.
  induction npeaks as [|k IH]; intros s; simpl; [reflexivity|].
  rewrite length_app, length_map, length_seq, IH. reflexivity.
Qed.

Lemma peak_major_from_lookup (npars s npeaks jj ii : nat) :
  (jj < npeaks)%nat -> (ii < npars)%nat ->
  flat_map (fun j => map (fun i => (j, i)) (seq 0 npars)) (seq s npeaks)
    !! (jj * npars + ii)%nat = Some ((s + jj)%nat, ii).
Proof.
  revert s jj; induction npeaks as [|k IH]; intros s jj Hj Hi; [lia|].
  simpl. destruct jj as [|jj].
  - simpl. rewrite lookup_app_l by (rewrite length_map, length_seq; lia).
    rewrite list_lookup_fmap, lookup_seq_lt by lia.
    simpl. f_equal. f_equal. lia.
  - rewrite lookup_app_r by (rewrite length_map, length_seq; simpl; lia).
    rewrite length_map, length_seq.
    replace (S jj * npars + ii - npars)%nat with (jj * npars + ii)%nat by lia.
    rewrite IH by lia. f_equal. f_equal. lia.
Qed.

Lemma peak_major_lookup (npeaks npars jj ii : nat) :
  (jj < npeaks)%nat -> (ii < npars)%nat ->
  peak_major npeaks npars !! (jj * npars + ii)%nat = Some (jj, ii).
Proof.
  intros Hj Hi. unfold peak_major.
  rewrite peak_major_from_lookup by assumption. reflexivity.
Qed.

(* ===================================================================== *)
(** ** The descriptor builder: shape of the table *)
(* ===================================================================== *)

Lemma for_each_Forall2 (R : ParinfoEntry -> ParinfoEntry -> Prop)
  (body : ParinfoEntry -> ParinfoEntry * option exn) :
  (forall p, R p p) -> (forall p, R p (fst (body p))) ->
  forall tbl, Forall2 R tbl (fst (for_each body tbl)).
Proof.
  intros Hrefl Hbody tbl. induction tbl as [|p rest IH]; simpl; [constructor|].
  specialize (Hbody p). destruct (body p) as [p' [e|]]; simpl in *.
  - constructor; [assumption|]. clear IH. induction rest; constructor; auto.
  - destruct (for_each body rest) as [rest' oe]; simpl in *.
    constructor; assumption.
Qed.

Lemma for_each_done (body : ParinfoEntry -> ParinfoEntry * option exn)
  (tbl tbl' : list ParinfoEntry) :
  for_each body tbl = (tbl', None) ->
  Forall2 (fun p p' => body p = (p', None)) tbl tbl'.
Proof.
  revert tbl'; induction tbl as [|p rest IH]; simpl; intros tbl' H.
  - injection H as <-. constructor.
  - destruct (body p) as [p' [e|]] eqn:Hb; [discriminate|].
    destruct (for_each body rest) as [rest' oe] eqn:Hr.
    injection H as <- ->. constructor; [assumption | apply IH; reflexivity].
Qed.

Lemma amp_upper_identity (p : ParinfoEntry) : same_identity p (fst (amp_upper p)).
Proof.
  unfold amp_upper, same_identity.
  destruct (str_contains "AMP" (pi_parname p)); [|simpl; tauto].
  destruct (py_getitem (pi_limited p) 0); [|simpl; tauto].
  cbv zeta. destruct (py_getitem _ 0); simpl; tauto.
Qed.

Lemma amp_lower_identity (p : ParinfoEntry) : same_identity p (fst (amp_lower p)).
Proof.
  unfold amp_lower, same_identity.
  destruct (str_contains "AMP" (pi_parname p)); [|simpl; tauto].
  destruct (py_getitem (pi_limited p) 1); [|simpl; tauto].
  cbv zeta. destruct (py_getitem _ 1); simpl; tauto.
Qed.

Lemma apply_negamp_identity (negamp : pyval) (tbl : list ParinfoEntry) :
  Forall2 same_identity tbl (fst (apply_negamp negamp tbl)).
Proof.
  assert (Hrefl : forall p, same_identity p p) by (unfold same_identity; tauto).
  unfold apply_negamp. destruct (is_none negamp).
  - simpl. induction tbl; constructor; auto.
  - destruct (truthy negamp); apply for_each_Forall2;
      auto using amp_upper_identity, amp_lower_identity.
Qed.

Lemma make_entry_shape (npars : Z) (td : TempPardict) (jj ii : nat)
  (e : ParinfoEntry) :
  make_entry npars td jj ii = OK e ->
  pi_n e = Z.of_nat ii + npars * Z.of_nat jj /\
  exists base, py_getitem (td_parnames td) ii = OK (VStr base) /\
               pi_parname e = upper base ++ fmt_index jj.
Proof.
  unfold make_entry. intros H.
  do 6 inv_bind H.
  destruct a4 as [| | | |s| |]; simpl in H; try discriminate.
  do 3 inv_bind H. injection H as <-. simpl.
  split; [reflexivity|]. exists s. split; [assumption | reflexivity].
Qed.

Lemma resolve_parnames_npars (self self1 : SpectralModel) (given names : pyval) :
  resolve_parnames self given = OK (self1, names) -> npars self1 = npars self.
Proof.
  unfold resolve_parnames. destruct (negb (is_none given)).
  - intros H. injection H as <- _. reflexivity.
  - intros H. inv_bind H.
    destruct (negb (is_none a)); injection H as <- _; reflexivity.
Qed.

Lemma after_settings_npars (a : Bound) (self : SpectralModel) :
  npars (after_settings a self) = npars self.
Proof.
  unfold after_settings. destruct (negb (is_none (a_shortvarnames a))); reflexivity.
Qed.

Lemma after_settings_parnames (a : Bound) (self : SpectralModel) :
  parnames (after_settings a self) = parnames self.
Proof.
  unfold after_settings. destruct (negb (is_none (a_shortvarnames a))); reflexivity.
Qed.

(** The stages a successful run of the body went through. *)
Lemma make_parinfo_body_stages (self self' : SpectralModel) (a : Bound)
  (kw' : kwargs) (tbl : list ParinfoEntry) :
  make_parinfo_body self a = (self', OK (tbl, kw')) ->
  exists self1 names parlimits td tbl0,
    (is_none (a_params a) = true \/
     is_none (alias (a_parvalues a) (a_values a)) = true) /\
    resolve_parnames self (alias (a_parnames a) (a_names a)) = OK (self1, names) /\
    limit_synthesis names (alias (a_parlimits a) (a_limits a))
      (a_limitedmin a) (a_limitedmax a) (a_minpars a) (a_maxpars a)
      = OK parlimits /\
    make_temp_pardict (npars self) (a_npeaks a) names (effective_values a)
      (alias (a_parsteps a) (a_steps a)) parlimits
      (alias (a_parlimited a) (a_limited a))
      (alias (a_parfixed a) (a_fixed a))
      (alias (a_parerror a) (a_error a))
      (alias (a_partied a) (a_tied a)) = OK td /\
    make_table (npars self) (a_npeaks a) td = OK tbl0 /\
    apply_negamp (a_negamp a) tbl0 = (tbl, None) /\
    kw' = a_kwargs a /\
    self' = set_parinfo tbl (after_settings a self1).
Proof.
  unfold make_parinfo_body. cbv zeta.
  destruct (negb (is_none (a_params a)) &&
            negb (is_none (alias (a_parvalues a) (a_values a)))) eqn:Hc;
    [discriminate|].
  destruct (resolve_parnames self _) as [[self1 names]|e] eqn:Hn; [|discriminate].
  destruct (limit_synthesis names _ _ _ _ _) as [parlimits|e] eqn:Hl; [|discriminate].
  fold (after_settings a self1). fold (effective_values a).
  rewrite after_settings_npars, (resolve_parnames_npars _ _ _ _ Hn).
  destruct (make_temp_pardict _ _ _ _ _ _ _ _ _ _) as [td|e] eqn:Htd;
    [|discriminate].
  unfold bind.
  destruct (make_table _ _ td) as [tbl0|e] eqn:Ht; [|discriminate].
  destruct (apply_negamp _ tbl0) as [tbl' [e|]] eqn:Ha; [discriminate|].
  intros H. injection H as <- <- <-.
  exists self1, names, parlimits, td, tbl0.
  repeat (split; [first [assumption | reflexivity | idtac]|]); [|reflexivity].
  apply andb_false_iff in Hc. destruct Hc as [Hc|Hc];
    apply negb_false_iff in Hc; auto.
Qed.

Lemma resolve_parnames_stored (self self1 : SpectralModel) (given names : pyval) :
  resolve_parnames self given = OK (self1, names) ->
  is_none names = false -> parnames self1 = Some names.
Proof.
  unfold resolve_parnames. destruct (is_none given) eqn:Hg; simpl.
  - intros H Hn. inv_bind H. destruct (is_none a) eqn:Hs; simpl in H.
    + injection H as <- <-. congruence.
    + injection H as <- <-. destruct (parnames self); [|discriminate].
      simpl in Ha. congruence.
  - intros H _. injection H as <- <-. reflexivity.
Qed.

Lemma make_temp_pardict_names (npars : Z) (npeaks : pyval)
  (names values steps limits limited fixed error tied : pyval) (td : TempPardict) :
  make_temp_pardict npars npeaks names values steps limits limited fixed
    error tied = OK td ->
  if is_none names
  then exists n, td_parnames td = VList (repeat (VBool false) n)
  else td_parnames td = names.
Proof.
  unfold make_temp_pardict. intros H.
  inv_bind H. do 9 inv_bind H. injection H as <-. simpl.
  unfold zeros_if_none in Ha. destruct (is_none names).
  - inv_bind Ha. unfold np_zeros_bool in Ha.
    destruct (a9 <? 0); [discriminate|]. injection Ha as <-. eauto.
  - injection Ha as <-. reflexivity.
Qed.

Lemma getitem_zeros_not_string (n i : nat) (s : string) :
  py_getitem (VList (repeat (VBool false) n)) i <> OK (VStr s).
Proof.
  unfold py_getitem. simpl. destruct (repeat (VBool false) n !! i) eqn:H.
  - apply list_elem_of_lookup_2, list_elem_of_In, repeat_spec in H.
    subst. discriminate.
  - discriminate.
Qed.

(** C1 - Shape of the table.  Whenever the builder returns, for a number
    of parameters [npars >= 1] and a number of peaks [k >= 1], the table
    has [npars * k] entries; the entry of peak [jj] and parameter [ii]
    sits at position [jj * npars + ii] (peak-major), its field ['n'] is
    that position and its ['parname'] is the upper-cased name of parameter
    [ii] followed by the digits of [jj].  The names are the ones the
    instance holds after the call. *)
Theorem make_parinfo_table_shape (self self' : SpectralModel) (kw kw' : kwargs)
  (tbl : list ParinfoEntry) (k : Z) :
  1 <= npars self ->
  keyword kw "npeaks" (VInt 1) = VInt k ->
  1 <= k ->
  _make_parinfo self kw = (self', OK (tbl, kw')) ->
  Z.of_nat (length tbl) = npars self * k /\
  exists names,
    parnames self' = Some names /\
    forall jj ii : nat,
      Z.of_nat jj < k -> Z.of_nat ii < npars self ->
      exists e base,
        tbl !! (jj * Z.to_nat (npars self) + ii)%nat = Some e /\
        pi_n e = Z.of_nat jj * npars self + Z.of_nat ii /\
        py_getitem names ii = OK (VStr base) /\
        pi_parname e = upper base ++ fmt_index jj.
Proof.
  intros Hnp Hk Hk1 H. unfold _make_parinfo in H.
  assert (Hpeaks : a_npeaks (bind_arguments kw) = VInt k) by exact Hk.
  remember (bind_arguments kw) as a eqn:Ea. clear Ea Hk.
  apply make_parinfo_body_stages in H.
  destruct H as (self1 & names & parlimits & td & tbl0 &
                 _ & Hn & _ & Htd & Ht & Ha & _ & ->).
  unfold make_table in Ht. rewrite Hpeaks in Ht. simpl in Ht.
  apply mapM_OK_Forall2 in Ht.
  pose proof (apply_negamp_identity (a_negamp a) tbl0) as Hid.
  rewrite Ha in Hid. simpl in Hid.
  pose proof (Forall2_length _ _ _ Ht) as Hlen0.
  pose proof (Forall2_length _ _ _ Hid) as Hlen.
  rewrite peak_major_length in Hlen0.
  (* every position of the table *)
  assert (Hpos : forall jj ii : nat,
    Z.of_nat jj < k -> Z.of_nat ii < npars self ->
    exists e base,
      tbl !! (jj * Z.to_nat (npars self) + ii)%nat = Some e /\
      pi_n e = Z.of_nat jj * npars self + Z.of_nat ii /\
      py_getitem (td_parnames td) ii = OK (VStr base) /\
      pi_parname e = upper base ++ fmt_index jj).
  { intros jj ii Hj Hi.
    assert (Hl : peak_major (Z.to_nat k) (Z.to_nat (npars self))
                   !! (jj * Z.to_nat (npars self) + ii)%nat = Some (jj, ii))
      by (apply peak_major_lookup; lia).
    destruct (Forall2_lookup_l _ _ _ _ _ Ht Hl) as (e0 & He0 & Hmk).
    destruct (Forall2_lookup_l _ _ _ _ _ Hid He0) as (e & He & Hsame).
    apply make_entry_shape in Hmk. destruct Hmk as (Hn0 & base & Hb & Hp).
    destruct Hsame as (Hn1 & Hp1 & _).
    exists e, base. repeat split; [assumption | | assumption | ].
    - rewrite Hn1, Hn0. lia.
    - rewrite Hp1. exact Hp. }
  split; [lia|].
  (* the names are the stored ones: the first entry needs a string *)
  destruct (Hpos 0%nat 0%nat) as (e0 & base0 & _ & _ & Hb0 & _); [lia | lia |].
  apply make_temp_pardict_names in Htd.
  destruct (is_none names) eqn:Hnone.
  - destruct Htd as [n Htd]. rewrite Htd in Hb0.
    exfalso. exact (getitem_zeros_not_string _ _ _ Hb0).
  - exists names. split.
    + change (parnames (set_parinfo tbl (after_settings a self1)))
        with (parnames (after_settings a self1)).
      rewrite after_settings_parnames.
      apply (resolve_parnames_stored _ _ _ _ Hn Hnone).
    + rewrite <- Htd. exact Hpos.
Qed.

(* ===================================================================== *)
(** ** The descriptor builder: keyword binding *)
(* ===================================================================== *)

Lemma lookup_residual (names : list string) (kw : kwargs) (x : string) :
  residual_kwargs names kw !! x = if decide (x ∈ names) then None else kw !! x.
Proof.
  unfold residual_kwargs. induction names as [|name names IH]; simpl.
  - destruct (decide (x ∈ [])) as [H|H]; [inversion H | reflexivity].
  - rewrite lookup_delete. destruct (decide (name = x)) as [->|Hne].
    + destruct (decide (x ∈ x :: names)) as [H|H]; [reflexivity|].
      exfalso. apply H. left.
    + rewrite IH. destruct (decide (x ∈ names)) as [Hin|Hin];
        destruct (decide (x ∈ name :: names)) as [H|H]; try reflexivity.
      * exfalso. apply H. right. assumption.
      * exfalso. inversion H; subst; contradiction.
Qed.

Lemma residual_insert_named (names : list string) (kw : kwargs) (x : string)
  (v : pyval) :
  x ∈ names -> residual_kwargs names (<[x := v]> kw) = residual_kwargs names kw.
Proof.
  intros Hx. apply map_eq. intros y. rewrite !lookup_residual.
  destruct (decide (y ∈ names)) as [Hy|Hy]; [reflexivity|].
  apply lookup_insert_ne. intros ->. contradiction.
Qed.

Lemma residual_delete_named (names : list string) (kw : kwargs) (x : string) :
  x ∈ names -> residual_kwargs names (delete x kw) = residual_kwargs names kw.
Proof.
  intros Hx. apply map_eq. intros y. rewrite !lookup_residual.
  destruct (decide (y ∈ names)) as [Hy|Hy]; [reflexivity|].
  apply lookup_delete_ne. intros ->. contradiction.
Qed.

Lemma keyword_insert_ne (kw : kwargs) (x y : string) (v d : pyval) :
  x <> y -> keyword (<[x := v]> kw) y d = keyword kw y d.
Proof. intros H. unfold keyword. rewrite lookup_insert_ne by exact H. reflexivity. Qed.

Lemma keyword_insert_eq (kw : kwargs) (x : string) (v d : pyval) :
  keyword (<[x := v]> kw) x d = v.
Proof. unfold keyword. rewrite lookup_insert_eq. reflexivity. Qed.

Lemma keyword_delete_ne (kw : kwargs) (x y : string) (d : pyval) :
  x <> y -> keyword (delete x kw) y d = keyword kw y d.
Proof. intros H. unfold keyword. rewrite lookup_delete_ne by exact H. reflexivity. Qed.

Lemma keyword_delete_eq (kw : kwargs) (x : string) (d : pyval) :
  keyword (delete x kw) x d = d.
Proof. unfold keyword. rewrite lookup_delete_eq. reflexivity. Qed.

Lemma negamp_is_keyword : "negamp" ∈ make_parinfo_keywords.
Proof. unfold make_parinfo_keywords. repeat (first [left | right]). Qed.

Lemma bind_arguments_insert_negamp (kw : kwargs) (v : pyval) :
  bind_arguments (<["negamp" := v]> kw) = with_negamp v (bind_arguments kw).
Proof.
  unfold bind_arguments, with_negamp; cbn [a_params a_parnames a_parvalues
    a_parlimits a_parlimited a_parfixed a_parerror a_partied a_fitunits
    a_parsteps a_npeaks a_shortvarnames a_parinfo a_names a_values a_limits
    a_limited a_fixed a_error a_tied a_steps a_negamp a_limitedmin
    a_limitedmax a_minpars a_maxpars a_kwargs].
  rewrite keyword_insert_eq, (residual_insert_named _ _ _ _ negamp_is_keyword).
  rewrite !keyword_insert_ne by discriminate. reflexivity.
Qed.

Lemma bind_arguments_delete_negamp (kw : kwargs) :
  bind_arguments (delete "negamp" kw) = with_negamp VNone (bind_arguments kw).
Proof.
  unfold bind_arguments, with_negamp; cbn [a_params a_parnames a_parvalues
    a_parlimits a_parlimited a_parfixed a_parerror a_partied a_fitunits
    a_parsteps a_npeaks a_shortvarnames a_parinfo a_names a_values a_limits
    a_limited a_fixed a_error a_tied a_steps a_negamp a_limitedmin
    a_limitedmax a_minpars a_maxpars a_kwargs].
  rewrite keyword_delete_eq, (residual_delete_named _ _ _ negamp_is_keyword).
  rewrite !keyword_delete_ne by discriminate. reflexivity.
Qed.

(* ===================================================================== *)
(** ** The descriptor builder: the sign constraint [negamp] *)
(* ===================================================================== *)

(** A call is the same call without [negamp], followed by the loop of
    lines 138-148 on the table it stored. *)
Lemma make_parinfo_body_negamp (self : SpectralModel) (a : Bound) :
  make_parinfo_body self a =
  match make_parinfo_body self (with_negamp VNone a) with
  | (self0, OK (tbl0, kw0)) =>
      match apply_negamp (a_negamp a) tbl0 with
      | (tbl, Some e) => (set_parinfo tbl self0, Err e)
      | (tbl, None) => (set_parinfo tbl self0, OK (tbl, kw0))
      end
  | (self0, Err e) => (self0, Err e)
  end.
Proof.
  unfold make_parinfo_body. cbv zeta.
  cbn [with_negamp a_params a_parnames a_parvalues
    a_parlimits a_parlimited a_parfixed a_parerror a_partied a_fitunits
    a_parsteps a_npeaks a_shortvarnames a_parinfo a_names a_values a_limits
    a_limited a_fixed a_error a_tied a_steps a_negamp a_limitedmin
    a_limitedmax a_minpars a_maxpars a_kwargs].
  destruct (negb (is_none (a_params a)) && _); [reflexivity|].
  destruct (resolve_parnames self _) as [[self1 names]|e]; [|reflexivity].
  destruct (limit_synthesis names _ _ _ _ _) as [parlimits|e]; [|reflexivity].
  match goal with |- context [bind ?m ?k] => destruct (bind m k) as [tbl0|e] end;
    [|reflexivity].
  cbn [apply_negamp is_none].
  destruct (apply_negamp (a_negamp a) tbl0) as [tbl [e|]]; reflexivity.
Qed.

Lemma amp_upper_done (p p' : ParinfoEntry) :
  amp_upper p = (p', None) -> upper_constrained p p'.
Proof.
  unfold amp_upper, upper_constrained.
  destruct (str_contains "AMP" (pi_parname p)).
  - destruct (py_getitem (pi_limited p) 0) as [l0|e] eqn:Hl; [|discriminate].
    cbn [set_limited pi_limits].
    destruct (py_getitem (pi_limits p) 0) as [m0|e] eqn:Hm; [|discriminate].
    intros H. injection H as <-. unfold same_identity. simpl. tauto.
  - intros H. injection H as <-. reflexivity.
Qed.

Lemma amp_lower_done (p p' : ParinfoEntry) :
  amp_lower p = (p', None) -> lower_constrained p p'.
Proof.
  unfold amp_lower, lower_constrained.
  destruct (str_contains "AMP" (pi_parname p)).
  - destruct (py_getitem (pi_limited p) 1) as [l1|e] eqn:Hl; [|discriminate].
    cbn [set_limited pi_limits].
    destruct (py_getitem (pi_limits p) 1) as [m1|e] eqn:Hm; [|discriminate].
    intros H. injection H as <-. unfold same_identity. simpl. tauto.
  - intros H. injection H as <-. reflexivity.
Qed.

(** C4 - The sign constraint.  Take a call of the builder that returns,
    and the same call with [negamp] left out.  The second returns too,
    with the same residual keywords, and its table [tbl0] is the table
    before the constraint.  With [negamp] unset ([None]) the table is
    [tbl0]; with [negamp] true every entry whose name contains 'AMP' has
    upper bound 0, enforced, its lower bound and the flag of the lower
    bound being those of [tbl0], and every other entry is the one of
    [tbl0]; with [negamp] false the same holds for the lower bound.  The
    number of peaks is any. *)
Theorem make_parinfo_negamp (self self' : SpectralModel) (kw kw' : kwargs)
  (tbl : list ParinfoEntry) :
  _make_parinfo self kw = (self', OK (tbl, kw')) ->
  exists tbl0,
    _make_parinfo self (delete "negamp" kw)
      = (set_parinfo tbl0 self', OK (tbl0, kw')) /\
    (keyword kw "negamp" VNone = VNone -> tbl = tbl0) /\
    (keyword kw "negamp" VNone = VBool true ->
     Forall2 upper_constrained tbl0 tbl) /\
    (keyword kw "negamp" VNone = VBool false ->
     Forall2 lower_constrained tbl0 tbl).
Proof.
  unfold _make_parinfo. rewrite bind_arguments_delete_negamp.
  assert (Hneg : a_negamp (bind_arguments kw) = keyword kw "negamp" VNone)
    by reflexivity.
  revert Hneg. generalize (keyword kw "negamp" VNone) as negamp.
  generalize (bind_arguments kw) as a. intros a negamp Hneg.
  rewrite (make_parinfo_body_negamp self a).
  destruct (make_parinfo_body self (with_negamp VNone a))
    as [self0 [[tbl0 kw0]|e]] eqn:Hbody; [|discriminate].
  apply make_parinfo_body_stages in Hbody.
  destruct Hbody as (self1 & _ & _ & _ & _ & _ & _ & _ & _ & _ & _ & _ & Hself0).
  rewrite Hneg.
  destruct (apply_negamp negamp tbl0) as [tbl1 [e|]] eqn:Ha; [discriminate|].
  intros H. injection H as <- <- <-.
  exists tbl0. split; [rewrite Hself0; reflexivity|].
  unfold apply_negamp in Ha.
  split; [|split]; intros ->; simpl in Ha.
  - injection Ha as <-. reflexivity.
  - apply for_each_done in Ha.
    eapply Forall2_impl; [exact Ha | exact amp_upper_done].
  - apply for_each_done in Ha.
    eapply Forall2_impl; [exact Ha | exact amp_lower_done].
Qed.

(* ===================================================================== *)
(** ** The descriptor builder: where the fields come from *)
(* ===================================================================== *)

Lemma make_entry_fields (npars : Z) (td : TempPardict) (jj ii : nat)
  (e : ParinfoEntry) :
  make_entry npars td jj ii = OK e ->
  py_getitem (td_parvalues td) (Z.to_nat (pi_n e)) = OK (pi_value e) /\
  py_getitem (td_parlimits td) (Z.to_nat (pi_n e)) = OK (pi_limits e) /\
  py_getitem (td_parlimited td) (Z.to_nat (pi_n e)) = OK (pi_limited e).
Proof.
  unfold make_entry. intros H.
  do 10 inv_bind H. injection H as <-. simpl. auto.
Qed.

Lemma zeros_if_none_given (npars : Z) (npeaks v r : pyval) :
  zeros_if_none npars npeaks v = OK r -> is_none v = false -> r = v.
Proof. unfold zeros_if_none. intros H Hv. rewrite Hv in H. congruence. Qed.

Lemma filled_if_none_given (npars : Z) (npeaks v item r : pyval) :
  filled_if_none npars npeaks v item = OK r -> is_none v = false -> r = v.
Proof. unfold filled_if_none. intros H Hv. rewrite Hv in H. congruence. Qed.

Lemma make_temp_pardict_fields (npars : Z) (npeaks : pyval)
  (names values steps limits limited fixed error tied : pyval) (td : TempPardict) :
  make_temp_pardict npars npeaks names values steps limits limited fixed
    error tied = OK td ->
  (is_none values = false -> td_parvalues td = values) /\
  (is_none limits = false -> td_parlimits td = limits) /\
  (is_none limits = true ->
   exists n, td_parlimits td = VList (repeat (VTuple [VInt 0; VInt 0]) n)).
Proof.
  unfold make_temp_pardict. intros H.
  inv_bind H. apply bind_OK in H. destruct H as (dv & Hdv & H).
  do 6 inv_bind H.
  apply bind_OK in H. destruct H as (dl & Hdl & H).
  inv_bind H. injection H as <-. simpl.
  split; [|split].
  - intros Hv. eapply zeros_if_none_given; eassumption.
  - intros Hv. eapply filled_if_none_given; eassumption.
  - intros Hv. unfold filled_if_none in Hdl. rewrite Hv in Hdl.
    inv_bind Hdl. injection Hdl as <-. eauto.
Qed.

Lemma make_table_fields (npars : Z) (npeaks : pyval) (td : TempPardict)
  (tbl : list ParinfoEntry) :
  make_table npars npeaks td = OK tbl ->
  Forall (fun e =>
    py_getitem (td_parvalues td) (Z.to_nat (pi_n e)) = OK (pi_value e) /\
    py_getitem (td_parlimits td) (Z.to_nat (pi_n e)) = OK (pi_limits e) /\
    py_getitem (td_parlimited td) (Z.to_nat (pi_n e)) = OK (pi_limited e)) tbl.
Proof.
  unfold make_table. intros H. inv_bind H.
  apply mapM_OK_Forall2 in H.
  induction H as [|[jj ii] e l l' He _ IH]; constructor; [|exact IH].
  eapply make_entry_fields; exact He.
Qed.

(* ===================================================================== *)
(** ** The descriptor builder: [params] and [parvalues] *)
(* ===================================================================== *)


(* ===================================================================== *)
(** ** The descriptor builder: synthesis of the limits *)
(* ===================================================================== *)

Lemma lookup_repeat_Some {A : Type} (x y : A) (n i : nat) :
  repeat x n !! i = Some y -> y = x.
Proof.
  intros H. apply list_elem_of_lookup_2, list_elem_of_In, repeat_spec in H.
  exact H.
Qed.

Lemma zip_false_right (a r : pyval) (n : nat) :
  py_zip a (false_tuple n) = OK r -> side_disabled 1 r.
Proof.
  unfold py_zip. intros H. inv_bind H. simpl in H. injection H as <-.
  intros i pair Hi. unfold py_getitem in Hi. simpl in Hi.
  rewrite lookup_zip_with in Hi.
  destruct (a0 !! i) as [x|]; simpl in Hi; [|discriminate].
  destruct (repeat (VBool false) n !! i) as [y|] eqn:Hy; simpl in Hi;
    [|discriminate].
  apply lookup_repeat_Some in Hy. subst y. injection Hi as <-. reflexivity.
Qed.

Lemma zip_false_left (b r : pyval) (n : nat) :
  py_zip (false_tuple n) b = OK r -> side_disabled 0 r.
Proof.
  unfold py_zip. simpl. intros H. inv_bind H. injection H as <-.
  intros i pair Hi. unfold py_getitem in Hi. simpl in Hi.
  rewrite lookup_zip_with in Hi.
  destruct (repeat (VBool false) n !! i) as [x|] eqn:Hx; simpl in Hi;
    [|discriminate].
  destruct (a !! i) as [y|]; simpl in Hi; [|discriminate].
  apply lookup_repeat_Some in Hx. subst x. injection Hi as <-. reflexivity.
Qed.

(** Lines 94-108 on their own: the second pair of keywords has the last
    word, and a pair given on one side only disables the other side. *)
Lemma limit_synthesis_order (names parlimits lmin lmax minp maxp r : pyval) :
  limit_synthesis names parlimits lmin lmax minp maxp = OK r ->
  (exists r1, limit_synthesis names parlimits lmin lmax VNone VNone = OK r1) /\
  (is_none minp = false \/ is_none maxp = false ->
   limit_synthesis names VNone VNone VNone minp maxp = OK r) /\
  (is_none minp = true -> is_none maxp = true ->
   is_none lmin = false \/ is_none lmax = false ->
   limit_synthesis names VNone lmin lmax VNone VNone = OK r) /\
  (is_none minp = true -> is_none maxp = true ->
   is_none lmin = true -> is_none lmax = true -> r = parlimits) /\
  (is_none minp = false -> is_none maxp = true -> side_disabled 1 r) /\
  (is_none minp = true -> is_none maxp = false -> side_disabled 0 r) /\
  (is_none minp = true -> is_none maxp = true ->
   is_none lmin = false -> is_none lmax = true -> side_disabled 1 r) /\
  (is_none minp = true -> is_none maxp = true ->
   is_none lmin = true -> is_none lmax = false -> side_disabled 0 r).
Proof.
  unfold limit_synthesis. intros H.
  apply bind_OK in H. destruct H as (r1 & Hr1 & H).
  split; [exists r1; simpl; rewrite Hr1; reflexivity|].
  destruct (is_none minp) eqn:Emin, (is_none maxp) eqn:Emax; simpl in H |- *.
  - injection H as <-.
    destruct (is_none lmin) eqn:Elmin, (is_none lmax) eqn:Elmax; simpl in Hr1 |- *.
    all: repeat split; intros; try discriminate.
    all: try solve [match goal with Hd : _ \/ _ |- _ =>
                      destruct Hd; discriminate end].
    all: try solve [congruence | rewrite Hr1; reflexivity].
    + inv_bind Hr1. eapply zip_false_left; exact Hr1.
    + inv_bind Hr1. eapply zip_false_right; exact Hr1.
  - repeat split; intros; try discriminate.
    + exact H.
    + inv_bind H. eapply zip_false_left; exact H.
  - repeat split; intros; try discriminate.
    + exact H.
    + inv_bind H. eapply zip_false_right; exact H.
  - repeat split; intros; try discriminate. exact H.
Qed.

(** C6 - Synthesis of the limits.  In a call of the builder that returns,
    the sequence [r] that lines 94-108 leave in [parlimits] is the one
    the table reads its ['limits'] from (shown for [negamp] unset, which
    leaves the table as built).  [limitedmin]/[limitedmax] are evaluated
    first, then [minpars]/[maxpars], and the last assignment stays: when
    [minpars] or [maxpars] is given, [r] is what these two alone produce,
    whatever [limitedmin], [limitedmax] and [parlimits] were; otherwise,
    when [limitedmin] or [limitedmax] is given, [r] is what these two
    alone produce; otherwise [r] is [parlimits].  When only one keyword of
    a pair is given, every pair of [r] holds [False] on the other side. *)
Theorem make_parinfo_limit_synthesis (self self' : SpectralModel)
  (kw kw' : kwargs) (tbl : list ParinfoEntry) :
  _make_parinfo self kw = (self', OK (tbl, kw')) ->
  let parlimits := alias (keyword kw "parlimits" VNone) (keyword kw "limits" VNone) in
  let lmin := keyword kw "limitedmin" VNone in
  let lmax := keyword kw "limitedmax" VNone in
  let minp := keyword kw "minpars" VNone in
  let maxp := keyword kw "maxpars" VNone in
  exists names r,
    (is_none names = false -> parnames self' = Some names) /\
    limit_synthesis names parlimits lmin lmax minp maxp = OK r /\
    (keyword kw "negamp" VNone = VNone -> is_none r = false ->
     Forall (fun e => py_getitem r (Z.to_nat (pi_n e)) = OK (pi_limits e)) tbl) /\
    (exists r1, limit_synthesis names parlimits lmin lmax VNone VNone = OK r1) /\
    (is_none minp = false \/ is_none maxp = false ->
     limit_synthesis names VNone VNone VNone minp maxp = OK r) /\
    (is_none minp = true -> is_none maxp = true ->
     is_none lmin = false \/ is_none lmax = false ->
     limit_synthesis names VNone lmin lmax VNone VNone = OK r) /\
    (is_none minp = true -> is_none maxp = true ->
     is_none lmin = true -> is_none lmax = true -> r = parlimits) /\
    (is_none minp = false -> is_none maxp = true -> side_disabled 1 r) /\
    (is_none minp = true -> is_none maxp = false -> side_disabled 0 r) /\
    (is_none minp = true -> is_none maxp = true ->
     is_none lmin = false -> is_none lmax = true -> side_disabled 1 r) /\
    (is_none minp = true -> is_none maxp = true ->
     is_none lmin = true -> is_none lmax = false -> side_disabled 0 r).
Proof.
  intros H parlimits lmin lmax minp maxp.
  unfold _make_parinfo in H.
  assert (Hneg : a_negamp (bind_arguments kw) = keyword kw "negamp" VNone)
    by reflexivity.
  assert (Hsyn : forall names,
    limit_synthesis names
      (alias (a_parlimits (bind_arguments kw)) (a_limits (bind_arguments kw)))
      (a_limitedmin (bind_arguments kw)) (a_limitedmax (bind_arguments kw))
      (a_minpars (bind_arguments kw)) (a_maxpars (bind_arguments kw))
    = limit_synthesis names parlimits lmin lmax minp maxp) by reflexivity.
  revert H Hneg Hsyn.
  generalize (keyword kw "negamp" VNone) as negamp.
  generalize (bind_arguments kw) as a.
  clearbody parlimits lmin lmax minp maxp.
  intros a negamp H Hneg Hsyn.
  apply make_parinfo_body_stages in H.
  destruct H as (self1 & names & r & td & tbl0 &
                 _ & Hn & Hl & Htd & Ht & Ha & _ & ->).
  rewrite Hsyn in Hl.
  exists names, r. split; [|split; [exact Hl|split]].
  - intros Hnone.
    change (parnames (set_parinfo tbl (after_settings a self1)))
      with (parnames (after_settings a self1)).
    rewrite after_settings_parnames.
    exact (resolve_parnames_stored _ _ _ _ Hn Hnone).
  - intros Hunset Hr. rewrite Hneg, Hunset in Ha.
    unfold apply_negamp in Ha. simpl in Ha. injection Ha as <-.
    apply make_temp_pardict_fields in Htd. destruct Htd as (_ & Hlim & _).
    rewrite <- (Hlim Hr).
    apply make_table_fields in Ht.
    eapply Forall_impl; [exact Ht|]. intros e (_ & He & _). exact He.
  - exact (limit_synthesis_order _ _ _ _ _ _ _ Hl).
Qed.

(* ===================================================================== *)
(** ** The descriptor builder: calling it twice *)
(* ===================================================================== *)

(** What a second run reads of the instance is what the first run left:
    the names are resolved to the same sequence, and the instance does
    not change any more. *)
Lemma resolve_parnames_again (self self1 s2 : SpectralModel) (given names : pyval) :
  resolve_parnames self given = OK (self1, names) ->
  parnames s2 = parnames self1 ->
  resolve_parnames s2 given
    = OK (if is_none given then s2 else set_parnames given s2, names).
Proof.
  unfold resolve_parnames. destruct (is_none given) eqn:Hg; simpl.
  - intros H Hp. inv_bind H.
    assert (self1 = self) as -> by (destruct (is_none a); simpl in H; congruence).
    rewrite Hp, Ha. simpl. destruct (is_none a); simpl in *; congruence.
  - intros H _. injection H as _ <-. reflexivity.
Qed.

Lemma resolve_parnames_failed (self s2 : SpectralModel) (given : pyval) (e : exn) :
  resolve_parnames self given = Err e ->
  parnames s2 = parnames self ->
  resolve_parnames s2 given = Err e.
Proof.
  unfold resolve_parnames. destruct (is_none given); simpl; [|discriminate].
  intros H ->. destruct (parnames self); simpl in *; [|exact H].
  destruct (is_none p); discriminate.
Qed.

Lemma resolve_parnames_given (self self1 : SpectralModel) (given names : pyval) :
  resolve_parnames self given = OK (self1, names) ->
  is_none given = false -> self1 = set_parnames given self.
Proof.
  unfold resolve_parnames. intros H Hg. rewrite Hg in H. simpl in H. congruence.
Qed.

Lemma make_parinfo_body_idempotent (self : SpectralModel) (a : Bound) :
  make_parinfo_body (fst (make_parinfo_body self a)) a = make_parinfo_body self a.
Proof.
  unfold make_parinfo_body. cbv zeta.
  destruct (negb (is_none (a_params a)) && _) eqn:Hc; [reflexivity|].
  destruct (resolve_parnames self _) as [[self1 names]|e] eqn:Hn.
  2:{ cbn [fst]. rewrite Hn. reflexivity. }
  pose proof (resolve_parnames_npars _ _ _ _ Hn) as Hnp.
  assert (Hagain : forall s2, parnames s2 = parnames self1 -> npars s2 = npars self1 ->
    (is_none (alias (a_parnames a) (a_names a)) = false ->
     set_parnames (alias (a_parnames a) (a_names a)) s2 = s2) ->
    resolve_parnames s2 (alias (a_parnames a) (a_names a)) = OK (s2, names)).
  { intros s2 Hp _ Hfix. rewrite (resolve_parnames_again _ _ s2 _ _ Hn Hp).
    destruct (is_none (alias (a_parnames a) (a_names a))); [reflexivity|].
    rewrite Hfix; reflexivity. }
  assert (Hfix1 : is_none (alias (a_parnames a) (a_names a)) = false ->
                  self1 = set_parnames (alias (a_parnames a) (a_names a)) self)
    by (intros Hg; exact (resolve_parnames_given _ _ _ _ Hn Hg)).
  destruct (negb (is_none (a_shortvarnames a))) eqn:Hs;
  (destruct (limit_synthesis names _ _ _ _ _) as [parlimits|e] eqn:Hl;
   [| cbn [fst]; rewrite Hagain;
      [rewrite ?Hs, Hl; reflexivity | reflexivity | reflexivity
      | intros Hg; rewrite (Hfix1 Hg); reflexivity] ]).
  all: cbn [npars set_npeaks set_fitunits set_shortvarnames].
  all: match goal with |- context [bind ?m ?k] =>
         destruct (bind m k) as [tbl|e] eqn:Hb end.
  all: try (cbn [fst]; rewrite Hagain;
      [rewrite ?Hs, Hl; cbn [npars set_npeaks set_fitunits set_shortvarnames];
       rewrite Hb; reflexivity
      | reflexivity | reflexivity
      | intros Hg; rewrite (Hfix1 Hg); reflexivity]).
  all: destruct (apply_negamp (a_negamp a) tbl) as [tbl' [e|]] eqn:Ha.
  all: cbn [fst]; rewrite Hagain;
      [rewrite ?Hs, Hl; cbn [npars set_npeaks set_fitunits set_shortvarnames
                             set_parinfo];
       rewrite Hb, Ha; reflexivity
      | reflexivity | reflexivity
      | intros Hg; rewrite (Hfix1 Hg); reflexivity].
Qed.

(** C9 - The builder called twice.  A second call with the same keyword
    mapping, on the instance the first call left, has the outcome of the
    first: the same table, field by field and in the same order, the same
    residual keywords (or the same exception), and it leaves the instance
    as the first call left it. *)
Theorem make_parinfo_idempotent (self : SpectralModel) (kw : kwargs) :
  _make_parinfo (fst (_make_parinfo self kw)) kw
  = (fst (_make_parinfo self kw), snd (_make_parinfo self kw)).
Proof.
  unfold _make_parinfo. rewrite make_parinfo_body_idempotent.
  destruct (make_parinfo_body self (bind_arguments kw)); reflexivity.
Qed.

(* ===================================================================== *)
(** ** The multi-peak composer *)
(* ===================================================================== *)

Lemma contiguous_slices_map {A : Type} (n k : nat) (pars : list A) :
  contiguous_slices n k pars
  = map (fun jj => firstn n (skipn (jj * n) pars)) (seq 0 k).
Proof.
  revert pars. induction k as [|k IH]; intros pars; [reflexivity|].
  cbn [contiguous_slices seq map]. f_equal.
  rewrite IH, <- seq_shift, map_map. apply map_ext. intros jj.
  rewrite skipn_skipn. do 2 f_equal. lia.
Qed.

Lemma py_slice_Z_inside {A : Type} (l : list A) (a b : nat) :
  (a <= b)%nat -> (b <= length l)%nat ->
  py_slice_Z l (Z.of_nat a) (Z.of_nat b) = firstn (b - a) (skipn a l).
Proof.
  intros Hab Hb. unfold py_slice_Z, py_slice.
  destruct (Z.ltb_spec (Z.of_nat a) 0) as [?|_]; [lia|].
  destruct (Z.ltb_spec (Z.of_nat b) 0) as [?|_]; [lia|].
  rewrite !Z.max_r, !Z.min_r by lia. rewrite !Nat2Z.id. reflexivity.
Qed.

Lemma mapM_map {A B C : Type} (g : A -> B) (f : B -> result C) (l : list A) :
  mapM f (map g l) = mapM (fun a => f (g a)) l.
Proof.
  induction l as [|a l IH]; simpl; [reflexivity|]. rewrite IH. reflexivity.
Qed.

Lemma mapM_ext_in {A B : Type} (f g : A -> result B) (l : list A) :
  (forall a, In a l -> f a = g a) -> mapM f l = mapM g l.
Proof.
  induction l as [|a l IH]; simpl; intros H; [reflexivity|].
  rewrite (H a) by (left; reflexivity). rewrite IH by auto. reflexivity.
Qed.

Lemma sum_peaks_ext_in (f g : nat -> result (list float)) (peaks : list nat)
  (v : list float) :
  (forall jj, In jj peaks -> f jj = g jj) -> sum_peaks f peaks v = sum_peaks g peaks v.
Proof.
  revert v. induction peaks as [|jj rest IH]; simpl; intros v H; [reflexivity|].
  rewrite (H jj) by (left; reflexivity).
  destruct (g jj) as [m|e]; simpl; [|reflexivity].
  destruct (np_iadd v m) as [v'|e]; simpl; [|reflexivity].
  apply IH. auto.
Qed.

Lemma np_iadd_same_length (v m : list float) :
  length m = length v -> np_iadd v m = OK (zip_with f64_add v m).
Proof.
  intros H. unfold np_iadd. rewrite <- H, Nat.eqb_refl. reflexivity.
Qed.

(** The loop of the composer, when every curve has the length of the
    accumulator: all the curves, summed onto it from left to right. *)
Lemma sum_peaks_fold (f : nat -> result (list float)) (peaks : list nat)
  (v : list float) :
  (forall jj c, In jj peaks -> f jj = OK c -> length c = length v) ->
  sum_peaks f peaks v
  = (curves <- mapM f peaks ;; OK (fold_left (zip_with f64_add) curves v)).
Proof.
  revert v. induction peaks as [|jj rest IH]; simpl; intros v H; [reflexivity|].
  destruct (f jj) as [m|e] eqn:Hf; simpl; [|reflexivity].
  assert (Hm : length m = length v) by (apply (H jj); auto).
  rewrite (np_iadd_same_length _ _ Hm). simpl.
  rewrite IH.
  - destruct (mapM f rest); reflexivity.
  - intros jj' c Hin Hc. rewrite length_zip_with, Hm, Nat.min_id.
    apply (H jj'); auto.
Qed.

Lemma add_zero_same_number (y : float) : same_number (f64_add f64_zero y) y.
Proof.
  destruct y as [s|s| |s m e]; simpl; try reflexivity.
  destruct s; exact I.
Qed.

Lemma add_zero_exact (y : float) :
  y <> S754_zero true -> f64_add f64_zero y = y.
Proof.
  destruct y as [s|s| |s m e]; simpl; try reflexivity.
  destruct s; [congruence | reflexivity].
Qed.

Lemma zip_with_zeros (curve : list float) :
  zip_with f64_add (np_zeros (length curve)) curve = map (f64_add f64_zero) curve.
Proof.
  unfold np_zeros. induction curve as [|y t IH]; simpl; [reflexivity|].
  rewrite IH. reflexivity.
Qed.

Lemma n_modelfunc_unfold (self : SpectralModel) (pars : list float) (kw : kwargs)
  (x : Axis) (k : nat) :
  1 <= npars self ->
  Z.of_nat (length pars) = Z.of_nat k * npars self ->
  n_modelfunc self pars kw x
  = sum_peaks
      (fun jj => modelfunc self x
                   (firstn (Z.to_nat (npars self))
                      (skipn (jj * Z.to_nat (npars self)) pars)) kw)
      (seq 0 k) (np_zeros (length (ax_values x))).
Proof.
  intros Hn Hlen. unfold n_modelfunc.
  destruct (Z.eqb_spec (npars self) 0) as [?|_]; [lia|].
  rewrite Hlen, Z.div_mul by lia. rewrite Nat2Z.id.
  apply sum_peaks_ext_in. intros jj Hjj. apply in_seq in Hjj.
  f_equal.
  replace (Z.of_nat jj * npars self)
    with (Z.of_nat (jj * Z.to_nat (npars self))) by lia.
  replace ((Z.of_nat jj + 1) * npars self)
    with (Z.of_nat ((jj + 1) * Z.to_nat (npars self))) by lia.
  rewrite py_slice_Z_inside by nia.
  f_equal. lia.
Qed.

(** C2 - The composer.  For a flat vector of [k] times [npars] parameters
    ([npars >= 1], [k >= 1]) and a model function that returns curves of
    the length of the axis, the composed function is the model evaluated
    on each of the [k] contiguous slices and summed sample by sample.  The
    stored number of peaks is not read: any instance with the same model
    function and the same [npars] composes the same function.  With one
    peak, the output is the curve of the model function with 0.0 added to
    every sample: the same numbers, and the same samples bit for bit
    wherever the curve has no negative zero. *)
Theorem n_modelfunc_composes (self : SpectralModel) (pars : list float)
  (kw : kwargs) (x : Axis) (k : nat) :
  1 <= npars self ->
  (1 <= k)%nat ->
  Z.of_nat (length pars) = Z.of_nat k * npars self ->
  (forall p curve,
     modelfunc self x p kw = OK curve -> length curve = length (ax_values x)) ->
  n_modelfunc self pars kw x = spec_composite self k pars kw x /\
  (forall other : SpectralModel,
     modelfunc other = modelfunc self -> npars other = npars self ->
     n_modelfunc other pars kw x = n_modelfunc self pars kw x) /\
  (k = 1%nat ->
   n_modelfunc self pars kw x
     = (curve <- modelfunc self x pars kw ;; OK (map (f64_add f64_zero) curve)) /\
   forall curve,
     modelfunc self x pars kw = OK curve ->
     exists out,
       n_modelfunc self pars kw x = OK out /\
       Forall2 same_number out curve /\
       (~ In (S754_zero true) curve -> out = curve)).
Proof.
  intros Hn Hk Hlen Hcontract.
  assert (Hspec : n_modelfunc self pars kw x = spec_composite self k pars kw x).
  { rewrite (n_modelfunc_unfold _ _ _ _ k Hn Hlen).
    rewrite sum_peaks_fold.
    - unfold spec_composite, elementwise_sum.
      rewrite contiguous_slices_map, mapM_map. reflexivity.
    - intros jj c _ Hc. unfold np_zeros. rewrite repeat_length.
      exact (Hcontract _ _ Hc). }
  split; [exact Hspec|]. split.
  - intros other Hf Hp. unfold n_modelfunc. rewrite Hf, Hp. reflexivity.
  - intros ->.
    assert (Hone : n_modelfunc self pars kw x
      = (curve <- modelfunc self x pars kw ;; OK (map (f64_add f64_zero) curve))).
    { rewrite Hspec. unfold spec_composite, elementwise_sum.
      cbn [contiguous_slices mapM].
      rewrite firstn_all2 by lia.
      destruct (modelfunc self x pars kw) as [curve|e] eqn:Hc; simpl; [|reflexivity].
      rewrite <- (Hcontract _ _ Hc), zip_with_zeros. reflexivity. }
    split; [exact Hone|].
    intros curve Hc. rewrite Hone, Hc. simpl.
    exists (map (f64_add f64_zero) curve). split; [reflexivity|]. split.
    + clear. induction curve as [|y t IH]; cbn [map]; constructor;
        [apply add_zero_same_number | exact IH].
    + clear. induction curve as [|y t IH]; cbn [map In]; intros Hz;
        [reflexivity|].
      rewrite add_zero_exact, IH; [reflexivity | tauto | intros ->; tauto].
Qed.

(* ===================================================================== *)
(** ** The fit driver: sanitization of the caller's arrays *)
(* ===================================================================== *)

Lemma bad_mask_map (d : list float) : bad_mask d = map bad d.
Proof.
  unfold bad_mask. induction d as [|y t IH]; simpl; [reflexivity|].
  rewrite IH. reflexivity.
Qed.

Lemma setmask_data (d : list float) :
  np_setmask d (bad_mask d) (f64_of_Z 0) = OK (sanitized_data d).
Proof.
  unfold np_setmask. rewrite bad_mask_map, length_map, Nat.eqb_refl.
  f_equal. unfold sanitized_data.
  induction d as [|y t IH]; cbn [map zip_with]; [reflexivity|].
  rewrite IH. reflexivity.
Qed.

Lemma setmask_error (d e : list float) :
  length e = length d ->
  np_setmask e (bad_mask d) f64_inf = OK (sanitized_error d e).
Proof.
  intros Hlen. unfold np_setmask.
  rewrite bad_mask_map, length_map, Hlen, Nat.eqb_refl.
  f_equal. unfold sanitized_error. clear Hlen.
  revert e. induction d as [|y t IH]; intros [|s e]; cbn [map zip_with];
    try reflexivity.
  rewrite IH. reflexivity.
Qed.

Lemma setmask_error_length (d e e' : list float) :
  np_setmask e (bad_mask d) f64_inf = OK e' -> length e = length d.
Proof.
  unfold np_setmask. rewrite bad_mask_map, length_map.
  destruct (Nat.eqb_spec (length e) (length d)); [auto | discriminate].
Qed.

Lemma np_any_false (f : float -> bool) (d : list float) :
  np_any (map f d) = false -> Forall (fun y => f y = false) d.
Proof.
  unfold np_any. induction d as [|y t IH]; simpl; intros H; constructor.
  - destruct (f y); [discriminate | reflexivity].
  - apply IH. destruct (f y); [discriminate | exact H].
Qed.

Lemma no_bad_unchanged (d : list float) :
  has_bad d = false -> Forall (fun y => bad y = false) d.
Proof.
  unfold has_bad. intros H. apply orb_false_iff in H. destruct H as [H1 H2].
  apply np_any_false in H1. apply np_any_false in H2.
  induction d as [|y t IH]; constructor.
  - unfold bad. apply Forall_inv in H1. apply Forall_inv in H2.
    rewrite H1, H2. reflexivity.
  - apply IH; eapply Forall_inv_tail; eassumption.
Qed.

Lemma sanitized_data_clean (d : list float) :
  has_bad d = false -> sanitized_data d = d.
Proof.
  intros H. apply no_bad_unchanged in H. unfold sanitized_data.
  induction H as [|y t Hy _ IH]; cbn [map]; [reflexivity|].
  rewrite Hy, IH. reflexivity.
Qed.

Lemma sanitized_error_clean (d e : list float) :
  has_bad d = false -> length e = length d -> sanitized_error d e = e.
Proof.
  intros H. apply no_bad_unchanged in H. unfold sanitized_error.
  revert e. induction H as [|y t Hy _ IH]; intros [|s e]; cbn [zip_with length];
    intros Hlen; try reflexivity; try discriminate.
  rewrite Hy, IH by lia. reflexivity.
Qed.

(** Lines 228-230 with an error array that is not the data array: the
    two arrays are overwritten in the caller's heap. *)
Lemma sanitize_arrays (h : Heap) (dl el : nat) (d e : list float) :
  h !! dl = Some d -> h !! el = Some e -> el <> dl ->
  length e = length d -> has_bad d = true ->
  sanitize h dl (Some el)
  = (<[dl := sanitized_data d]> (<[el := sanitized_error d e]> h), OK tt).
Proof.
  intros Hd He Hne Hlen Hbad. unfold sanitize, heap_read.
  rewrite Hd. fold (has_bad d). rewrite Hbad, He. cbn [bind].
  rewrite (setmask_error _ _ Hlen).
  rewrite lookup_insert_ne by exact Hne. rewrite Hd. cbn [bind].
  rewrite setmask_data. reflexivity.
Qed.

Lemma sanitize_clean (h : Heap) (dl : nat) (err : option nat) (d : list float) :
  h !! dl = Some d -> has_bad d = false -> sanitize h dl err = (h, OK tt).
Proof.
  intros Hd Hbad. unfold sanitize, heap_read.
  rewrite Hd. fold (has_bad d). rewrite Hbad. reflexivity.
Qed.

Lemma sanitize_no_errors (h : Heap) (dl : nat) (d : list float) :
  h !! dl = Some d -> has_bad d = true ->
  sanitize h dl None = (h, Err TypeError).
Proof.
  intros Hd Hbad. unfold sanitize, heap_read.
  rewrite Hd. fold (has_bad d). rewrite Hbad. reflexivity.
Qed.

Lemma sanitized_data_bad (d : list float) : sanitized_data d = d -> has_bad d = false.
Proof.
  unfold sanitized_data, has_bad, np_any.
  induction d as [|y t IH]; cbn [map existsb]; intros H; [reflexivity|].
  injection H as Hy Ht. specialize (IH Ht). apply orb_false_iff in IH.
  destruct IH as [IH1 IH2]. rewrite IH1, IH2.
  destruct y as [s|s| |s m x]; try reflexivity; discriminate Hy.
Qed.

Section Driver.

Variable mpfit :
  (list float -> result (list float)) -> list ParinfoEntry -> bool ->
  kwargs -> result MpResult.
Variable mpfit_messages : Z -> result string.

(** The driver up to the call of the solver, when the builder and the
    conversion of the axis go through. *)
Lemma fitter_unfold (self self1 : SpectralModel) (h : Heap) (xax xax1 : Axis)
  (dl : nat) (err : option nat) (quiet veryverbose debug : bool)
  (parinfo : option (list ParinfoEntry)) (kw kw1 : kwargs)
  (built : list ParinfoEntry) :
  _make_parinfo self kw = (self1, OK (built, kw1)) ->
  fit_axis (set_xax xax self1) xax quiet = OK xax1 ->
  fitter mpfit mpfit_messages self h xax dl err quiet veryverbose debug
    parinfo kw
  = match sanitize h dl err with
    | (h', Err e) => (h', set_xax xax self1, Err e)
    | (h', OK _) =>
        let (self', r) :=
          run_solver mpfit mpfit_messages (set_xax xax self1) h' xax1 dl err
            quiet veryverbose debug
            (match parinfo with Some given => given | None => built end) kw1
        in (h', self', r)
    end.
Proof.
  intros Hmk Hax. unfold fitter. rewrite Hmk, Hax. reflexivity.
Qed.

(** C3 - Sanitization in the fit driver.  Take a call in which the
    builder and the conversion of the axis go through and the data hold
    a NaN or an infinite sample.  With an error array (another array, of
    the same length), the solver and its residual function are run on
    the heap in which every such sample is 0 in the data and infinity in
    the errors, the other samples being untouched.  With no error array
    the call raises the [TypeError] of the assignment into [None].
    The example: data [NaN, 1, Inf, 2] with errors [1, 1, 1, 1] become
    [0, 1, 0, 2] and [Inf, 1, Inf, 1]. *)
Theorem fitter_sanitization (self self1 : SpectralModel) (h : Heap)
  (xax xax1 : Axis) (dl : nat) (err : option nat)
  (quiet veryverbose debug : bool) (parinfo : option (list ParinfoEntry))
  (kw kw1 : kwargs) (built : list ParinfoEntry) (d : list float) :
  _make_parinfo self kw = (self1, OK (built, kw1)) ->
  fit_axis (set_xax xax self1) xax quiet = OK xax1 ->
  h !! dl = Some d ->
  has_bad d = true ->
  (forall el e,
     err = Some el -> h !! el = Some e -> el <> dl -> length e = length d ->
     let h' := <[dl := sanitized_data d]> (<[el := sanitized_error d e]> h) in
     let tbl := match parinfo with Some given => given | None => built end in
     let run :=
       run_solver mpfit mpfit_messages (set_xax xax self1) h' xax1 dl err
         quiet veryverbose debug tbl kw1 in
     fitter mpfit mpfit_messages self h xax dl err quiet veryverbose debug
       parinfo kw = (h', fst run, snd run)) /\
  (err = None ->
   fitter mpfit mpfit_messages self h xax dl err quiet veryverbose debug
     parinfo kw = (h, set_xax xax self1, Err TypeError)) /\
  sanitize
    (<[0%nat := [f64_nan; f64_one; f64_inf; f64_two]]>
       (<[1%nat := [f64_one; f64_one; f64_one; f64_one]]> ∅))
    0%nat (Some 1%nat)
  = (<[0%nat := [f64_zero; f64_one; f64_zero; f64_two]]>
       (<[1%nat := [f64_inf; f64_one; f64_inf; f64_one]]> ∅), OK tt).
Proof.
  intros Hmk Hax Hd Hbad. split; [|split].
  - intros el e -> He Hne Hlen h' tbl run.
    rewrite (fitter_unfold _ _ _ _ _ _ _ _ _ _ _ _ _ _ Hmk Hax).
    rewrite (sanitize_arrays _ _ _ _ _ Hd He Hne Hlen Hbad).
    fold h'. fold tbl. fold run. destruct run; reflexivity.
  - intros ->.
    rewrite (fitter_unfold _ _ _ _ _ _ _ _ _ _ _ _ _ _ Hmk Hax).
    rewrite (sanitize_no_errors _ _ _ Hd Hbad). reflexivity.
  - vm_compute. reflexivity.
Qed.

(** C10 - The caller's arrays.  After a call of the driver that returns,
    with data holding a NaN or an infinite sample and an error array
    that is another array, the heap of the caller is the heap before the
    call with the two arrays overwritten in place: 0 in the data and
    infinity in the errors at these samples.  The data array has changed,
    and no other array has. *)
Theorem fitter_writes_callers_arrays (self self' : SpectralModel)
  (h h' : Heap) (xax : Axis) (dl el : nat)
  (quiet veryverbose debug : bool) (parinfo : option (list ParinfoEntry))
  (kw : kwargs) (d e : list float)
  (res : list float * list float * list float * float) :
  h !! dl = Some d ->
  h !! el = Some e ->
  el <> dl ->
  has_bad d = true ->
  fitter mpfit mpfit_messages self h xax dl (Some el) quiet veryverbose
    debug parinfo kw = (h', self', OK res) ->
  h' = <[dl := sanitized_data d]> (<[el := sanitized_error d e]> h) /\
  h' !! dl = Some (sanitized_data d) /\
  h' !! el = Some (sanitized_error d e) /\
  sanitized_data d <> d /\
  (forall l, l <> dl -> l <> el -> h' !! l = h !! l).
Proof.
  intros Hd He Hne Hbad Hfit.
  assert (Hh : h' = <[dl := sanitized_data d]> (<[el := sanitized_error d e]> h)).
  { unfold fitter in Hfit.
    destruct (_make_parinfo self kw) as [self1 [[built kw1]|x]]; [|discriminate].
    destruct (fit_axis (set_xax xax self1) xax quiet) as [xax1|x]; [|discriminate].
    destruct (sanitize h dl (Some el)) as [h1 [u|x]] eqn:Hs; [|discriminate].
    destruct (run_solver _ _ _ _ _ _ _ _ _ _ _ _) as [s r].
    injection Hfit as <- _ _.
    assert (Hlen : length e = length d).
    { unfold sanitize, heap_read in Hs. rewrite Hd in Hs.
      fold (has_bad d) in Hs. rewrite Hbad, He in Hs. cbn [bind] in Hs.
      destruct (np_setmask e (bad_mask d) f64_inf) as [e'|x] eqn:Hm;
        [|discriminate].
      exact (setmask_error_length _ _ _ Hm). }
    rewrite (sanitize_arrays _ _ _ _ _ Hd He Hne Hlen Hbad) in Hs.
    congruence. }
  split; [exact Hh|]. subst h'. split; [apply lookup_insert_eq|]. split.
  - rewrite lookup_insert_ne by congruence. apply lookup_insert_eq.
  - split.
    + intros Heq. apply sanitized_data_bad in Heq. congruence.
    + intros l Hl1 Hl2. rewrite !lookup_insert_ne by congruence. reflexivity.
Qed.

End Driver.

(* ===================================================================== *)
(** ** The result accessors *)
(* ===================================================================== *)





Section Accessors.

Variable mpfit :
  (list float -> result (list float)) -> list ParinfoEntry -> bool ->
  kwargs -> result MpResult.
Variable mpfit_messages : Z -> result string.
Variable format_label : pyval -> nat -> float -> float -> result string.






End Accessors.

(* ===================================================================== *)
(** ** The worked instance *)
(* ===================================================================== *)

Lemma demo_call :
  _make_parinfo demo_self demo_kw
  = (state_after demo_self demo_kw,
     OK (table_of demo_self demo_kw, residual_of demo_self demo_kw)).
Proof. vm_compute. reflexivity. Defined.

Lemma demo_call_params :
  _make_parinfo demo_self demo_kw_params
  = (state_after demo_self demo_kw_params,
     OK (table_of demo_self demo_kw_params,
         residual_of demo_self demo_kw_params)).
Proof. vm_compute. reflexivity. Defined.

(** Two peaks of three parameters: six entries, peak-major. *)
Lemma make_parinfo_table_shape_witness :
  Z.of_nat (length (table_of demo_self demo_kw)) = npars demo_self * 2 /\
  exists names,
    parnames (state_after demo_self demo_kw) = Some names /\
    forall jj ii : nat,
      Z.of_nat jj < 2 -> Z.of_nat ii < npars demo_self ->
      exists e base,
        table_of demo_self demo_kw
          !! (jj * Z.to_nat (npars demo_self) + ii)%nat = Some e /\
        pi_n e = Z.of_nat jj * npars demo_self + Z.of_nat ii /\
        py_getitem names ii = OK (VStr base) /\
        pi_parname e = upper base ++ fmt_index jj.
Proof.
  apply (make_parinfo_table_shape demo_self (state_after demo_self demo_kw)
           demo_kw (residual_of demo_self demo_kw)
           (table_of demo_self demo_kw) 2).
  - vm_compute. discriminate.
  - vm_compute. reflexivity.
  - lia.
  - exact demo_call.
Defined.

Lemma make_parinfo_negamp_witness :
  exists tbl0,
    _make_parinfo demo_self (delete "negamp" demo_kw)
      = (set_parinfo tbl0 (state_after demo_self demo_kw),
         OK (tbl0, residual_of demo_self demo_kw)) /\
    (keyword demo_kw "negamp" VNone = VNone ->
     table_of demo_self demo_kw = tbl0) /\
    (keyword demo_kw "negamp" VNone = VBool true ->
     Forall2 upper_constrained tbl0 (table_of demo_self demo_kw)) /\
    (keyword demo_kw "negamp" VNone = VBool false ->
     Forall2 lower_constrained tbl0 (table_of demo_self demo_kw)).
Proof.
  exact (make_parinfo_negamp demo_self (state_after demo_self demo_kw) demo_kw
           (residual_of demo_self demo_kw) (table_of demo_self demo_kw)
           demo_call).
Defined.


(** [minpars] alone beside [limitedmin]: the limits are the pairs
    [(minpars[i], False)]. *)
Lemma make_parinfo_limit_synthesis_witness :
  exists names r,
    limit_synthesis names VNone
      (VList [VBool true; VBool true; VBool true]) VNone
      (VList [VInt 0; VInt 0; VInt 0]) VNone = OK r /\
    limit_synthesis names VNone VNone VNone
      (VList [VInt 0; VInt 0; VInt 0]) VNone = OK r /\
    side_disabled 1 r /\
    Forall (fun e => py_getitem r (Z.to_nat (pi_n e)) = OK (pi_limits e))
      (table_of demo_self demo_kw_params).
Proof.
  destruct (make_parinfo_limit_synthesis demo_self
              (state_after demo_self demo_kw_params) demo_kw_params
              (residual_of demo_self demo_kw_params)
              (table_of demo_self demo_kw_params) demo_call_params)
    as (names & r & _ & Hr & Htbl & _ & Hlast & _ & _ & Hside & _).
  exists names, r. split; [exact Hr|]. split; [|split].
  - apply Hlast. left. reflexivity.
  - apply Hside; reflexivity.
  - apply Htbl; [reflexivity|].
    assert (H : limit_synthesis names VNone VNone VNone
                  (VList [VInt 0; VInt 0; VInt 0]) VNone = OK r)
      by (apply Hlast; left; reflexivity).
    unfold limit_synthesis in H. cbn [is_none negb bind] in H.
    destruct (py_len names); cbn [bind] in H; [|discriminate].
    unfold py_zip in H. cbn [py_iter bind false_tuple] in H.
    injection H as <-. reflexivity.
Defined.

Lemma n_modelfunc_composes_witness :
  n_modelfunc demo_self demo_pars ∅ demo_axis
    = spec_composite demo_self 2 demo_pars ∅ demo_axis /\
  n_modelfunc demo_self demo_pars ∅ demo_axis
    = OK [f64_of_Z 3; f64_of_Z 3; f64_of_Z 3; f64_of_Z 3].
Proof.
  destruct (n_modelfunc_composes demo_self demo_pars ∅ demo_axis 2) as (H & _).
  - vm_compute. discriminate.
  - lia.
  - reflexivity.
  - intros p curve H.
    change (modelfunc demo_self) with flat_model in H.
    unfold flat_model in H. injection H as <-. reflexivity.
  - split; [exact H|]. vm_compute. reflexivity.
Defined.

Lemma fitter_sanitization_witness :
  fst (fst demo_outcome)
    = <[0%nat := sanitized_data [f64_nan; f64_one; f64_inf; f64_two]]>
        (<[1%nat := sanitized_error [f64_nan; f64_one; f64_inf; f64_two]
                      [f64_one; f64_one; f64_one; f64_one]]> demo_heap) /\
  fitter demo_mpfit demo_messages demo_self demo_heap demo_axis
    0%nat None true false false None ∅
  = (demo_heap, set_xax demo_axis (state_after demo_self ∅), Err TypeError).
Proof.
  destruct (fitter_sanitization demo_mpfit demo_messages demo_self
              (state_after demo_self ∅) demo_heap demo_axis demo_axis 0%nat
              (Some 1%nat) true false false None ∅ (residual_of demo_self ∅)
              (table_of demo_self ∅) [f64_nan; f64_one; f64_inf; f64_two])
    as (Hsome & _ & _);
    [vm_compute; reflexivity | reflexivity | reflexivity | reflexivity |].
  destruct (fitter_sanitization demo_mpfit demo_messages demo_self
              (state_after demo_self ∅) demo_heap demo_axis demo_axis 0%nat
              None true false false None ∅ (residual_of demo_self ∅)
              (table_of demo_self ∅) [f64_nan; f64_one; f64_inf; f64_two])
    as (_ & Hnone & _);
    [vm_compute; reflexivity | reflexivity | reflexivity | reflexivity |].
  split.
  - unfold demo_outcome.
    rewrite (Hsome 1%nat [f64_one; f64_one; f64_one; f64_one]);
      [reflexivity | reflexivity | reflexivity | discriminate | reflexivity].
  - apply Hnone. reflexivity.
Defined.

Lemma demo_fit :
  fitter demo_mpfit demo_messages demo_self demo_heap demo_axis
    0%nat (Some 1%nat) true false false None ∅
  = (fst (fst demo_outcome), snd (fst demo_outcome), OK demo_fitted).
Proof. vm_compute. reflexivity. Defined.

(** After the fit of the example, the caller reads [0, 1, 0, 2] in the
    data array and [Inf, 1, Inf, 1] in the error array. *)
Lemma fitter_writes_callers_arrays_witness :
  fst (fst demo_outcome) !! 0%nat = Some [f64_zero; f64_one; f64_zero; f64_two] /\
  fst (fst demo_outcome) !! 1%nat = Some [f64_inf; f64_one; f64_inf; f64_one].
Proof.
  destruct (fitter_writes_callers_arrays demo_mpfit demo_messages demo_self
              (snd (fst demo_outcome)) demo_heap (fst (fst demo_outcome))
              demo_axis 0%nat 1%nat true false false None ∅
              [f64_nan; f64_one; f64_inf; f64_two]
              [f64_one; f64_one; f64_one; f64_one] demo_fitted)
    as (_ & Hd & He & _);
    [reflexivity | reflexivity | discriminate | reflexivity | exact demo_fit |].
  split; [exact Hd | exact He].
Defined.



(* ===================================================================== *)
(** ** The descriptor builder: further properties *)
(* ===================================================================== *)

Lemma make_entry_all_fields (npars : Z) (td : TempPardict) (jj ii : nat)
  (e : ParinfoEntry) :
  make_entry npars td jj ii = OK e ->
  let idx := Z.to_nat (pi_n e) in
  pi_n e = Z.of_nat ii + npars * Z.of_nat jj /\
  py_getitem (td_parvalues td) idx = OK (pi_value e) /\
  py_getitem (td_parsteps td) idx = OK (pi_step e) /\
  py_getitem (td_parlimits td) idx = OK (pi_limits e) /\
  py_getitem (td_parlimited td) idx = OK (pi_limited e) /\
  py_getitem (td_parfixed td) idx = OK (pi_fixed e) /\
  py_getitem (td_parerror td) idx = OK (pi_error e) /\
  (exists base, py_getitem (td_parnames td) ii = OK (VStr base)) /\
  exists t, py_getitem (td_partied td) idx = OK t /\
            pi_tied e = if truthy t then t else VStr "".
Proof.
  unfold make_entry. intros H.
  apply bind_OK in H. destruct H as (value & Hvalue & H).
  apply bind_OK in H. destruct H as (step & Hstep & H).
  apply bind_OK in H. destruct H as (limits & Hlimits & H).
  apply bind_OK in H. destruct H as (limited & Hlimited & H).
  apply bind_OK in H. destruct H as (fixed & Hfixed & H).
  apply bind_OK in H. destruct H as (base & Hbase & H).
  apply bind_OK in H. destruct H as (name & Hname & H).
  apply bind_OK in H. destruct H as (error & Herror & H).
  apply bind_OK in H. destruct H as (t & Ht & H).
  apply bind_OK in H. destruct H as (tied & Htied & H).
  injection H as <-. cbn [pi_n pi_value pi_step pi_limits pi_limited pi_fixed
                          pi_error pi_tied].
  repeat (split; [assumption || reflexivity|]).
  split.
  - destruct base; try discriminate. eauto.
  - exists t. split; [exact Ht|].
    destruct (truthy t); [rewrite Ht in Htied|]; congruence.
Qed.

Lemma make_table_entries (npars : Z) (npeaks : pyval) (td : TempPardict)
  (tbl : list ParinfoEntry) :
  make_table npars npeaks td = OK tbl ->
  exists k,
    py_int npeaks = OK k /\
    Forall2 (fun '(jj, ii) e => make_entry npars td jj ii = OK e)
      (peak_major (Z.to_nat k) (Z.to_nat npars)) tbl.
Proof.
  unfold make_table. intros H. apply bind_OK in H. destruct H as (k & Hk & H).
  exists k. split; [exact Hk|].
  apply mapM_OK_Forall2 in H.
  eapply Forall2_impl; [exact H|]. intros [jj ii] e He. exact He.
Qed.

(** The last entry of a table that is not empty. *)
Lemma make_table_last (npars k : Z) (npeaks : pyval) (td : TempPardict)
  (tbl : list ParinfoEntry) :
  make_table npars npeaks td = OK tbl ->
  py_int npeaks = OK k -> 1 <= npars -> 1 <= k ->
  exists e, make_entry npars td (Z.to_nat k - 1) (Z.to_nat npars - 1) = OK e /\
            pi_n e = npars * k - 1.
Proof.
  intros H Hk Hn Hk1. apply make_table_entries in H.
  destruct H as (k' & Hk' & H). rewrite Hk in Hk'. injection Hk' as <-.
  assert (Hl : peak_major (Z.to_nat k) (Z.to_nat npars)
                 !! ((Z.to_nat k - 1) * Z.to_nat npars + (Z.to_nat npars - 1))%nat
               = Some ((Z.to_nat k - 1)%nat, (Z.to_nat npars - 1)%nat))
    by (apply peak_major_lookup; lia).
  destruct (Forall2_lookup_l _ _ _ _ _ H Hl) as (e & _ & He).
  exists e. split; [exact He|].
  apply make_entry_shape in He. destruct He as (-> & _). nia.
Qed.

Lemma getitem_at_least (seq item : pyval) (i : nat) :
  py_getitem seq i = OK item -> at_least (Z.of_nat i + 1) seq.
Proof.
  unfold py_getitem, at_least, py_len. intros H len Hlen.
  destruct (py_iter seq) as [l|]; [|discriminate]. cbn [bind] in *.
  injection Hlen as <-.
  destruct (l !! i) eqn:Hi; [|discriminate].
  apply lookup_lt_Some in Hi. lia.
Qed.

Lemma zeros_if_none_default (npars : Z) (npeaks v r : pyval) :
  zeros_if_none npars npeaks v = OK r -> default_or v (VBool false) r.
Proof.
  unfold zeros_if_none, default_or. destruct (is_none v).
  - intros H. inv_bind H. unfold np_zeros_bool in H.
    destruct (a <? 0); [discriminate|]. injection H as <-. eauto.
  - congruence.
Qed.

Lemma filled_if_none_default (npars : Z) (npeaks v item r : pyval) :
  filled_if_none npars npeaks v item = OK r -> default_or v item r.
Proof.
  unfold filled_if_none, default_or. destruct (is_none v).
  - intros H. inv_bind H. injection H as <-. eauto.
  - congruence.
Qed.

Lemma make_temp_pardict_all (npars : Z) (npeaks : pyval)
  (names values steps limits limited fixed error tied : pyval) (td : TempPardict) :
  make_temp_pardict npars npeaks names values steps limits limited fixed
    error tied = OK td ->
  default_or names (VBool false) (td_parnames td) /\
  default_or values (VBool false) (td_parvalues td) /\
  default_or steps (VBool false) (td_parsteps td) /\
  default_or limits (VTuple [VInt 0; VInt 0]) (td_parlimits td) /\
  default_or limited (VTuple [VBool false; VBool false]) (td_parlimited td) /\
  default_or fixed (VBool false) (td_parfixed td) /\
  default_or error (VBool false) (td_parerror td) /\
  default_or tied (VBool false) (td_partied td).
Proof.
  unfold make_temp_pardict. intros H.
  apply bind_OK in H. destruct H as (dn & Hdn & H).
  apply bind_OK in H. destruct H as (dv & Hdv & H).
  apply bind_OK in H. destruct H as (ds & Hds & H).
  apply bind_OK in H. destruct H as (x1 & _ & H).
  apply bind_OK in H. destruct H as (x2 & _ & H).
  apply bind_OK in H. destruct H as (df & Hdf & H).
  apply bind_OK in H. destruct H as (de & Hde & H).
  apply bind_OK in H. destruct H as (dt & Hdt & H).
  apply bind_OK in H. destruct H as (dl & Hdl & H).
  apply bind_OK in H. destruct H as (dd & Hdd & H).
  injection H as <-. cbn.
  repeat split; eauto using zeros_if_none_default, filled_if_none_default.
Qed.

Lemma default_or_item (v item r x : pyval) (i : nat) :
  default_or v item r -> is_none v = true ->
  py_getitem r i = OK x -> x = item.
Proof.
  unfold default_or. intros H Hv Hx. rewrite Hv in H. destruct H as [n ->].
  unfold py_getitem in Hx. cbn in Hx.
  destruct (repeat item n !! i) eqn:Hi; [|discriminate].
  apply lookup_repeat_Some in Hi. congruence.
Qed.

Lemma default_or_given (v item r : pyval) :
  default_or v item r -> is_none v = false -> r = v.
Proof. unfold default_or. intros H Hv. rewrite Hv in H. exact H. Qed.

(** X1 - What is returned for [**kwargs]: the keys of the call that the
    signature of the builder does not name, with their values, and
    nothing else. *)
Theorem make_parinfo_residual (self self' : SpectralModel) (kw kw' : kwargs)
  (tbl : list ParinfoEntry) :
  _make_parinfo self kw = (self', OK (tbl, kw')) ->
  forall x : string,
    kw' !! x = if decide (x ∈ make_parinfo_keywords) then None else kw !! x.
Proof.
  intros H x. unfold _make_parinfo in H.
  apply make_parinfo_body_stages in H.
  destruct H as (_ & _ & _ & _ & _ & _ & _ & _ & _ & _ & _ & -> & _).
  apply lookup_residual.
Qed.

(** X2 - What a returning call leaves on the instance: the table it
    returns in [parinfo], the keyword [npeaks] (1 when not given) in
    [npeaks], the keyword [fitunits] ([None] when not given) in
    [fitunits], the keyword [shortvarnames] when it is not [None]; the
    model function, [npars], the mode, the model options, the stored axis
    and the recorded fit are the ones of before. *)
Theorem make_parinfo_records (self self' : SpectralModel) (kw kw' : kwargs)
  (tbl : list ParinfoEntry) :
  _make_parinfo self kw = (self', OK (tbl, kw')) ->
  parinfo self' = Some tbl /\
  npeaks self' = Some (keyword kw "npeaks" (VInt 1)) /\
  fitunits self' = Some (keyword kw "fitunits" VNone) /\
  shortvarnames self'
    = (if is_none (keyword kw "shortvarnames" default_shortvarnames)
       then shortvarnames self
       else Some (keyword kw "shortvarnames" default_shortvarnames)) /\
  modelfunc self' = modelfunc self /\ npars self' = npars self /\
  multisingle self' = multisingle self /\
  modelfunc_kwargs self' = modelfunc_kwargs self /\
  xax self' = xax self /\ mp self' = mp self /\ mpp self' = mpp self /\
  mpperr self' = mpperr self /\ model self' = model self.
Proof.
  intros H. unfold _make_parinfo in H.
  assert (Hs : a_shortvarnames (bind_arguments kw)
               = keyword kw "shortvarnames" default_shortvarnames) by reflexivity.
  assert (Hp : a_npeaks (bind_arguments kw) = keyword kw "npeaks" (VInt 1))
    by reflexivity.
  assert (Hf : a_fitunits (bind_arguments kw) = keyword kw "fitunits" VNone)
    by reflexivity.
  revert H Hs Hp Hf.
  generalize (keyword kw "shortvarnames" default_shortvarnames) as svn.
  generalize (keyword kw "npeaks" (VInt 1)) as pk.
  generalize (keyword kw "fitunits" VNone) as fu.
  generalize (bind_arguments kw) as a.
  intros a fu pk svn H Hs Hp Hf.
  apply make_parinfo_body_stages in H.
  destruct H as (self1 & names & _ & _ & _ & _ & Hn & _ & _ & _ & _ & _ & ->).
  assert (Hsame : modelfunc self1 = modelfunc self /\ npars self1 = npars self /\
    multisingle self1 = multisingle self /\
    modelfunc_kwargs self1 = modelfunc_kwargs self /\
    xax self1 = xax self /\ mp self1 = mp self /\ mpp self1 = mpp self /\
    mpperr self1 = mpperr self /\ model self1 = model self /\
    shortvarnames self1 = shortvarnames self).
  { unfold resolve_parnames in Hn.
    destruct (negb (is_none (alias (a_parnames a) (a_names a)))).
    - injection Hn as <- _. cbn. tauto.
    - inv_bind Hn. destruct (negb (is_none a0)); injection Hn as <- _; tauto. }
  unfold after_settings. rewrite Hs, Hp, Hf.
  destruct (is_none svn); cbn; tauto.
Qed.

(** X3 - No names at all.  When the call gives no names (neither
    [parnames] nor [names]) and the instance has never been given any, the
    call raises [AttributeError] on [parnames] and the instance is left as
    it was, unless [params] and [parvalues] are both given (the conflict
    is raised first).  Constructing an instance without names and without
    names from the base class fails in this way. *)
Theorem make_parinfo_no_names (self : SpectralModel) (kw : kwargs) :
  keyword kw "parnames" VNone = VNone ->
  keyword kw "names" VNone = VNone ->
  parnames self = None ->
  (is_none (keyword kw "params" VNone) = true \/
   (is_none (keyword kw "parvalues" VNone) = true /\
    is_none (keyword kw "values" VNone) = true)) ->
  _make_parinfo self kw = (self, Err (AttributeError "parnames")) /\
  (forall f n mode,
     self = mkSpectralModel f n mode None None None None None None None None
              None None None ->
     snd (__init__ None f n mode kw) = Err (AttributeError "parnames")).
Proof.
  intros Hpn Hn Hstored Hc.
  assert (Hcall : _make_parinfo self kw = (self, Err (AttributeError "parnames"))).
  { unfold _make_parinfo.
    assert (H1 : a_parnames (bind_arguments kw) = VNone) by exact Hpn.
    assert (H2 : a_names (bind_arguments kw) = VNone) by exact Hn.
    assert (H3 : is_none (a_params (bind_arguments kw)) = true \/
              (is_none (a_parvalues (bind_arguments kw)) = true /\
               is_none (a_values (bind_arguments kw)) = true)) by exact Hc.
    revert H1 H2 H3. generalize (bind_arguments kw) as a. intros a H1 H2 H3.
    unfold make_parinfo_body. cbv zeta. rewrite H1, H2.
    assert (Hcond : negb (is_none (a_params a)) &&
              negb (is_none (alias (a_parvalues a) (a_values a))) = false).
    { destruct H3 as [->|[H3 H4]]; [reflexivity|].
      unfold alias. rewrite H4, H3. apply andb_false_r. }
    rewrite Hcond. unfold resolve_parnames, alias. cbn [is_none negb].
    rewrite Hstored. reflexivity. }
  split; [exact Hcall|].
  intros f n mode Hself. unfold __init__. rewrite <- Hself, Hcall. reflexivity.
Qed.

(** The table before lines 138-148 and the dictionary it was read from,
    for a call that returns. *)
Lemma make_parinfo_built (self self' : SpectralModel) (kw kw' : kwargs)
  (tbl : list ParinfoEntry) :
  _make_parinfo self kw = (self', OK (tbl, kw')) ->
  exists names r td tbl0,
    (is_none names = false -> parnames self' = Some names) /\
    limit_synthesis names (sequence_of kw "parlimits" "limits")
      (keyword kw "limitedmin" VNone) (keyword kw "limitedmax" VNone)
      (keyword kw "minpars" VNone) (keyword kw "maxpars" VNone) = OK r /\
    default_or names (VBool false) (td_parnames td) /\
    default_or (if negb (is_none (keyword kw "params" VNone))
                then keyword kw "params" VNone
                else sequence_of kw "parvalues" "values")
      (VBool false) (td_parvalues td) /\
    default_or (sequence_of kw "parsteps" "steps") (VBool false) (td_parsteps td) /\
    default_or r (VTuple [VInt 0; VInt 0]) (td_parlimits td) /\
    default_or (sequence_of kw "parlimited" "limited")
      (VTuple [VBool false; VBool false]) (td_parlimited td) /\
    default_or (sequence_of kw "parfixed" "fixed") (VBool false) (td_parfixed td) /\
    default_or (sequence_of kw "parerror" "error") (VBool false) (td_parerror td) /\
    default_or (sequence_of kw "partied" "tied") (VBool false) (td_partied td) /\
    make_table (npars self) (keyword kw "npeaks" (VInt 1)) td = OK tbl0 /\
    apply_negamp (keyword kw "negamp" VNone) tbl0 = (tbl, None) /\
    Forall2 same_identity tbl0 tbl.
Proof.
  intros H. unfold _make_parinfo in H.
  apply make_parinfo_body_stages in H.
  destruct H as (self1 & names & r & td & tbl0 &
                 _ & Hn & Hl & Htd & Ht & Ha & _ & ->).
  exists names, r, td, tbl0.
  apply make_temp_pardict_all in Htd.
  destruct Htd as (H1 & H2 & H3 & H4 & H5 & H6 & H7 & H8).
  split.
  { intros Hnone.
    change (parnames (set_parinfo tbl (after_settings (bind_arguments kw) self1)))
      with (parnames (after_settings (bind_arguments kw) self1)).
    rewrite after_settings_parnames.
    exact (resolve_parnames_stored _ _ _ _ Hn Hnone). }
  split; [exact Hl|].
  do 8 (split; [assumption|]).
  split; [exact Ht|]. split; [exact Ha|].
  pose proof (apply_negamp_identity (a_negamp (bind_arguments kw)) tbl0) as Hid.
  rewrite Ha in Hid. exact Hid.
Qed.

Lemma make_table_Forall (npars : Z) (npeaks : pyval) (td : TempPardict)
  (tbl : list ParinfoEntry) (P : ParinfoEntry -> Prop) :
  make_table npars npeaks td = OK tbl ->
  (forall jj ii e, make_entry npars td jj ii = OK e -> P e) ->
  Forall P tbl.
Proof.
  intros H HP. apply make_table_entries in H. destruct H as (k & _ & H).
  induction H as [|[jj ii] e l l' He _ IH]; constructor; [|exact IH].
  exact (HP jj ii e He).
Qed.

Lemma Forall_same_identity (P : ParinfoEntry -> Prop) (tbl0 tbl : list ParinfoEntry) :
  Forall2 same_identity tbl0 tbl ->
  (forall p p', same_identity p p' -> P p -> P p') ->
  Forall P tbl0 -> Forall P tbl.
Proof.
  intros H HP. induction H as [|p p' l l' Hs _ IH]; intros HF; constructor.
  - apply (HP p p' Hs). exact (Forall_inv HF).
  - apply IH. exact (Forall_inv_tail HF).
Qed.

(** X4 - The ties.  In a returned table the ['tied'] of an entry is never
    a false value other than the empty string: it is the item given for
    the entry when that item is true, and [""] otherwise (also when no
    ties are given). *)
Theorem make_parinfo_tied (self self' : SpectralModel) (kw kw' : kwargs)
  (tbl : list ParinfoEntry) :
  _make_parinfo self kw = (self', OK (tbl, kw')) ->
  Forall (fun e => truthy (pi_tied e) = true \/ pi_tied e = VStr "") tbl /\
  (sequence_of kw "partied" "tied" = VNone ->
   Forall (fun e => pi_tied e = VStr "") tbl) /\
  (is_none (sequence_of kw "partied" "tied") = false ->
   Forall (fun e =>
     exists t, py_getitem (sequence_of kw "partied" "tied") (Z.to_nat (pi_n e))
               = OK t /\
               pi_tied e = if truthy t then t else VStr "") tbl).
Proof.
  intros H. apply make_parinfo_built in H.
  destruct H as (names & r & td & tbl0 & _ & _ & _ & _ & _ & _ & _ & _ & _ &
                 Htied & Ht & _ & Hid).
  split; [|split].
  - eapply (Forall_same_identity _ tbl0 tbl Hid).
    + intros p p' (_ & _ & _ & _ & _ & _ & Hsame) Hp. rewrite Hsame. exact Hp.
    + eapply make_table_Forall; [exact Ht|]. intros jj ii e He.
      apply make_entry_all_fields in He.
      destruct He as (_ & _ & _ & _ & _ & _ & _ & _ & t & _ & ->).
      destruct (truthy t) eqn:Ht'; [left; exact Ht' | right; reflexivity].
  - intros Hnone.
    eapply (Forall_same_identity _ tbl0 tbl Hid).
    + intros p p' (_ & _ & _ & _ & _ & _ & Hsame) Hp. rewrite Hsame. exact Hp.
    + eapply make_table_Forall; [exact Ht|]. intros jj ii e He.
      apply make_entry_all_fields in He.
      destruct He as (_ & _ & _ & _ & _ & _ & _ & _ & t & Hget & ->).
      rewrite Hnone in Htied.
      rewrite (default_or_item _ _ _ _ _ Htied eq_refl Hget). reflexivity.
  - intros Hgiven.
    eapply (Forall_same_identity _ tbl0 tbl Hid).
    + intros p p' (Hn & _ & _ & _ & _ & _ & Hsame) Hp. rewrite Hsame, Hn. exact Hp.
    + eapply make_table_Forall; [exact Ht|]. intros jj ii e He.
      apply make_entry_all_fields in He.
      destruct He as (_ & _ & _ & _ & _ & _ & _ & _ & t & Hget & Htie).
      rewrite (default_or_given _ _ _ Htied Hgiven) in Hget. eauto.
Qed.

(** X5 - The defaults.  In a returned table, a field whose sequence the
    call does not give has its default in every entry: False (numpy's
    zero) for ['value'], ['step'], ['fixed'] and ['error'], and, when
    [negamp] is unset, the pair (0, 0) for ['limits'] (no keyword of the
    limits being given) and (False, False) for ['limited']. *)
Theorem make_parinfo_defaults (self self' : SpectralModel) (kw kw' : kwargs)
  (tbl : list ParinfoEntry) :
  _make_parinfo self kw = (self', OK (tbl, kw')) ->
  (keyword kw "params" VNone = VNone ->
   sequence_of kw "parvalues" "values" = VNone ->
   Forall (fun e => pi_value e = VBool false) tbl) /\
  (sequence_of kw "parsteps" "steps" = VNone ->
   Forall (fun e => pi_step e = VBool false) tbl) /\
  (sequence_of kw "parfixed" "fixed" = VNone ->
   Forall (fun e => pi_fixed e = VBool false) tbl) /\
  (sequence_of kw "parerror" "error" = VNone ->
   Forall (fun e => pi_error e = VBool false) tbl) /\
  (keyword kw "negamp" VNone = VNone ->
   sequence_of kw "parlimits" "limits" = VNone ->
   keyword kw "limitedmin" VNone = VNone ->
   keyword kw "limitedmax" VNone = VNone ->
   keyword kw "minpars" VNone = VNone ->
   keyword kw "maxpars" VNone = VNone ->
   Forall (fun e => pi_limits e = VTuple [VInt 0; VInt 0]) tbl) /\
  (keyword kw "negamp" VNone = VNone ->
   sequence_of kw "parlimited" "limited" = VNone ->
   Forall (fun e => pi_limited e = VTuple [VBool false; VBool false]) tbl).
Proof.
  intros H. apply make_parinfo_built in H.
  destruct H as (names & r & td & tbl0 & _ & Hl & _ & Hvalues & Hsteps &
                 Hlimits & Hlimited & Hfixed & Herror & _ & Ht & Ha & Hid).
  split; [|split; [|split; [|split; [|split]]]].
  - intros Hp Hv. rewrite Hp, Hv in Hvalues. cbn [is_none negb] in Hvalues.
    eapply (Forall_same_identity _ tbl0 tbl Hid).
    + intros p p' (_ & _ & Hsame & _) Hq. rewrite Hsame. exact Hq.
    + eapply make_table_Forall; [exact Ht|]. intros jj ii e He.
      apply make_entry_all_fields in He. destruct He as (_ & Hget & _).
      exact (default_or_item _ _ _ _ _ Hvalues eq_refl Hget).
  - intros Hv. rewrite Hv in Hsteps.
    eapply (Forall_same_identity _ tbl0 tbl Hid).
    + intros p p' (_ & _ & _ & Hsame & _) Hq. rewrite Hsame. exact Hq.
    + eapply make_table_Forall; [exact Ht|]. intros jj ii e He.
      apply make_entry_all_fields in He. destruct He as (_ & _ & Hget & _).
      exact (default_or_item _ _ _ _ _ Hsteps eq_refl Hget).
  - intros Hv. rewrite Hv in Hfixed.
    eapply (Forall_same_identity _ tbl0 tbl Hid).
    + intros p p' (_ & _ & _ & _ & Hsame & _) Hq. rewrite Hsame. exact Hq.
    + eapply make_table_Forall; [exact Ht|]. intros jj ii e He.
      apply make_entry_all_fields in He.
      destruct He as (_ & _ & _ & _ & _ & Hget & _).
      exact (default_or_item _ _ _ _ _ Hfixed eq_refl Hget).
  - intros Hv. rewrite Hv in Herror.
    eapply (Forall_same_identity _ tbl0 tbl Hid).
    + intros p p' (_ & _ & _ & _ & _ & Hsame & _) Hq. rewrite Hsame. exact Hq.
    + eapply make_table_Forall; [exact Ht|]. intros jj ii e He.
      apply make_entry_all_fields in He.
      destruct He as (_ & _ & _ & _ & _ & _ & Hget & _).
      exact (default_or_item _ _ _ _ _ Herror eq_refl Hget).
  - intros Hneg Hv H1 H2 H3 H4. rewrite Hneg in Ha.
    unfold apply_negamp in Ha. cbn [is_none] in Ha. injection Ha as <-.
    rewrite Hv, H1, H2, H3, H4 in Hl. unfold limit_synthesis in Hl.
    cbn in Hl. injection Hl as <-.
    eapply make_table_Forall; [exact Ht|]. intros jj ii e He.
    apply make_entry_all_fields in He. destruct He as (_ & _ & _ & Hget & _).
    exact (default_or_item _ _ _ _ _ Hlimits eq_refl Hget).
  - intros Hneg Hv. rewrite Hneg in Ha.
    unfold apply_negamp in Ha. cbn [is_none] in Ha. injection Ha as <-.
    rewrite Hv in Hlimited.
    eapply make_table_Forall; [exact Ht|]. intros jj ii e He.
    apply make_entry_all_fields in He.
    destruct He as (_ & _ & _ & _ & Hget & _).
    exact (default_or_item _ _ _ _ _ Hlimited eq_refl Hget).
Qed.



Lemma zip_length_right (a r : pyval) (n len : nat) :
  py_zip a (false_tuple n) = OK r -> py_len r = OK len -> (len <= n)%nat.
Proof.
  unfold py_zip. intros H. inv_bind H. cbn in H. injection H as <-.
  unfold py_len. cbn. intros Hlen. injection Hlen as <-.
  rewrite length_zip_with, repeat_length. lia.
Qed.

Lemma zip_length_left (b r : pyval) (n len : nat) :
  py_zip (false_tuple n) b = OK r -> py_len r = OK len -> (len <= n)%nat.
Proof.
  unfold py_zip. cbn. intros H. inv_bind H. injection H as <-.
  unfold py_len. cbn. intros Hlen. injection Hlen as <-.
  rewrite length_zip_with, repeat_length. lia.
Qed.

Lemma zip_is_list (a b r : pyval) :
  py_zip a b = OK r -> exists l, r = VList l.
Proof.
  unfold py_zip. intros H. do 2 inv_bind H. injection H as <-. eauto.
Qed.

(** The limits synthesized from one keyword of a pair are a list no
    longer than the list of names. *)
Lemma limit_synthesis_one_sided (names parlimits lmin lmax minp maxp r : pyval) :
  limit_synthesis names parlimits lmin lmax minp maxp = OK r ->
  one_sided minp maxp = true \/
  (is_none minp = true /\ is_none maxp = true /\ one_sided lmin lmax = true) ->
  exists l n,
    r = VList l /\ py_len names = OK n /\ (length l <= n)%nat.
Proof.
  unfold limit_synthesis, one_sided. intros H Hside.
  apply bind_OK in H. destruct H as (r1 & Hr1 & H).
  assert (Hright : forall x r',
    (n <- py_len names ;; py_zip x (false_tuple n)) = OK r' ->
    exists l n, r' = VList l /\ py_len names = OK n /\ (length l <= n)%nat).
  { intros x r' Hz. apply bind_OK in Hz. destruct Hz as (n & Hn & Hz).
    destruct (zip_is_list _ _ _ Hz) as [l ->].
    exists l, n. split; [reflexivity|]. split; [exact Hn|].
    apply (zip_length_right _ _ _ _ Hz). reflexivity. }
  assert (Hleft : forall x r',
    (n <- py_len names ;; py_zip (false_tuple n) x) = OK r' ->
    exists l n, r' = VList l /\ py_len names = OK n /\ (length l <= n)%nat).
  { intros x r' Hz. apply bind_OK in Hz. destruct Hz as (n & Hn & Hz).
    destruct (zip_is_list _ _ _ Hz) as [l ->].
    exists l, n. split; [reflexivity|]. split; [exact Hn|].
    apply (zip_length_left _ _ _ _ Hz). reflexivity. }
  destruct (is_none minp) eqn:Emin, (is_none maxp) eqn:Emax;
    cbn [negb xorb] in H, Hside.
  - injection H as <-.
    destruct Hside as [Hs|(_ & _ & Hs)]; [discriminate|].
    destruct (is_none lmin) eqn:Elmin, (is_none lmax) eqn:Elmax;
      cbn [negb xorb] in Hr1, Hs; try discriminate.
    + exact (Hleft _ _ Hr1).
    + exact (Hright _ _ Hr1).
  - exact (Hleft _ _ H).
  - exact (Hright _ _ H).
  - destruct Hside as [Hs|(Hs & _)]; discriminate.
Qed.

(** X7 - The one-sided forms.  When only one of [minpars]/[maxpars] is
    given (or, these two being absent, only one of
    [limitedmin]/[limitedmax]), the limits are paired with a tuple as
    long as the list of names; so a call that returns a table of
    [npars * k] entries has at least [npars * k] names: with as many
    names as parameters and more than one peak, the one-sided form makes
    the call raise. *)
Theorem make_parinfo_one_sided (self self' : SpectralModel)
  (kw kw' : kwargs) (tbl : list ParinfoEntry) (k : Z) :
  1 <= npars self ->
  keyword kw "npeaks" (VInt 1) = VInt k ->
  1 <= k ->
  one_sided (keyword kw "minpars" VNone) (keyword kw "maxpars" VNone) = true \/
  (is_none (keyword kw "minpars" VNone) = true /\
   is_none (keyword kw "maxpars" VNone) = true /\
   one_sided (keyword kw "limitedmin" VNone) (keyword kw "limitedmax" VNone)
     = true) ->
  _make_parinfo self kw = (self', OK (tbl, kw')) ->
  exists names len,
    parnames self' = Some names /\ py_len names = OK len /\
    npars self * k <= Z.of_nat len.
Proof.
  intros Hn Hk Hk1 Hside H. apply make_parinfo_built in H.
  destruct H as (names & r & td & tbl0 & Hstored & Hl & _ & _ & _ & Hlimits &
                 _ & _ & _ & _ & Ht & _ & _).
  destruct (limit_synthesis_one_sided _ _ _ _ _ _ _ Hl Hside)
    as (l & len & -> & Hlen & Hle).
  rewrite Hk in Ht.
  destruct (make_table_last _ k _ _ _ Ht eq_refl Hn Hk1) as (e & He & Hlast).
  apply make_entry_all_fields in He. cbv zeta in He.
  destruct He as (_ & _ & _ & Hget & _).
  rewrite (default_or_given _ _ _ Hlimits eq_refl) in Hget.
  apply getitem_at_least in Hget.
  specialize (Hget (length l) eq_refl).
  exists names, len. split; [|split; [exact Hlen | lia]].
  apply Hstored. destruct names; try reflexivity. discriminate.
Qed.

(** The body of the builder reads the eight sequences through their
    aliases only. *)
Lemma make_parinfo_body_ext (self : SpectralModel) (a b : Bound) :
  alias (a_parnames a) (a_names a) = alias (a_parnames b) (a_names b) ->
  alias (a_parvalues a) (a_values a) = alias (a_parvalues b) (a_values b) ->
  alias (a_parsteps a) (a_steps a) = alias (a_parsteps b) (a_steps b) ->
  alias (a_parlimits a) (a_limits a) = alias (a_parlimits b) (a_limits b) ->
  alias (a_parlimited a) (a_limited a) = alias (a_parlimited b) (a_limited b) ->
  alias (a_parfixed a) (a_fixed a) = alias (a_parfixed b) (a_fixed b) ->
  alias (a_parerror a) (a_error a) = alias (a_parerror b) (a_error b) ->
  alias (a_partied a) (a_tied a) = alias (a_partied b) (a_tied b) ->
  a_params a = a_params b -> a_fitunits a = a_fitunits b ->
  a_npeaks a = a_npeaks b -> a_shortvarnames a = a_shortvarnames b ->
  a_negamp a = a_negamp b -> a_limitedmin a = a_limitedmin b ->
  a_limitedmax a = a_limitedmax b -> a_minpars a = a_minpars b ->
  a_maxpars a = a_maxpars b -> a_kwargs a = a_kwargs b ->
  make_parinfo_body self a = make_parinfo_body self b.
Proof.
  intros H1 H2 H3 H4 H5 H6 H7 H8 H9 H10 H11 H12 H13 H14 H15 H16 H17 H18.
  unfold make_parinfo_body. cbv zeta.
  rewrite H1, H2, H3, H4, H5, H6, H7, H8, H9, H10, H11, H12, H13, H14, H15,
    H16, H17, H18. reflexivity.
Qed.

Lemma alias_pair_keywords (long short : string) :
  (long, short) ∈ alias_pairs ->
  long ∈ make_parinfo_keywords /\ short ∈ make_parinfo_keywords /\ long <> short.
Proof.
  unfold alias_pairs. intros H.
  repeat (apply elem_of_cons in H; destruct H as [H|H];
          [injection H as -> ->;
           split; [unfold make_parinfo_keywords; repeat (first [left | right])|];
           split; [unfold make_parinfo_keywords; repeat (first [left | right])
                  | discriminate] |]).
  inversion H.
Qed.

Lemma keyword_moved (kw : kwargs) (long short x : string) (v d : pyval) :
  x <> long -> x <> short ->
  keyword (<[long := v]> (delete short kw)) x d = keyword kw x d.
Proof.
  intros H1 H2. rewrite keyword_insert_ne by congruence.
  apply keyword_delete_ne. congruence.
Qed.

(** X8 - The short keywords.  For each of the eight sequences, a call
    that gives the short keyword ([names], [values], [steps], [limits],
    [limited], [fixed], [error], [tied]) with a value other than [None]
    is the call that gives this value under the long keyword instead:
    whatever the call gave under the long keyword is ignored. *)
Theorem make_parinfo_short_keyword (self : SpectralModel) (kw : kwargs)
  (long short : string) (v : pyval) :
  (long, short) ∈ alias_pairs ->
  kw !! short = Some v ->
  is_none v = false ->
  _make_parinfo self kw = _make_parinfo self (<[long := v]> (delete short kw)).
Proof.
  intros Hin Hs Hv.
  destruct (alias_pair_keywords _ _ Hin) as (Hl & Hsh & Hne).
  assert (Hshort : keyword kw short VNone = v)
    by (unfold keyword; rewrite Hs; reflexivity).
  assert (Hnew_long : forall d, keyword (<[long := v]> (delete short kw)) long d = v)
    by (intros d; apply keyword_insert_eq).
  assert (Hnew_short : forall d,
            keyword (<[long := v]> (delete short kw)) short d = d).
  { intros d. rewrite keyword_insert_ne by exact Hne. apply keyword_delete_eq. }
  assert (Hres : residual_kwargs make_parinfo_keywords
                   (<[long := v]> (delete short kw))
                 = residual_kwargs make_parinfo_keywords kw).
  { rewrite (residual_insert_named _ _ _ _ Hl).
    apply (residual_delete_named _ _ _ Hsh). }
  assert (Hal : forall c, alias c v = v)
    by (intros c; unfold alias; rewrite Hv; reflexivity).
  assert (Hal' : alias v VNone = v) by reflexivity.
  unfold _make_parinfo.
  unfold alias_pairs in Hin.
  repeat (apply elem_of_cons in Hin; destruct Hin as [Hin|Hin];
    [injection Hin as -> ->;
     apply make_parinfo_body_ext;
     cbn [bind_arguments a_params a_parnames a_parvalues a_parlimits
          a_parlimited a_parfixed a_parerror a_partied a_fitunits a_parsteps
          a_npeaks a_shortvarnames a_parinfo a_names a_values a_limits
          a_limited a_fixed a_error a_tied a_steps a_negamp a_limitedmin
          a_limitedmax a_minpars a_maxpars a_kwargs];
     rewrite ?Hnew_long, ?Hnew_short, ?Hshort, ?Hal, ?Hal', ?Hres;
     rewrite ?keyword_moved by discriminate;
     reflexivity |]).
  inversion Hin.
Qed.

(* ===================================================================== *)
(** ** The composer: further properties *)
(* ===================================================================== *)

Lemma np_iadd_length (v m v' : list float) :
  np_iadd v m = OK v' -> length v' = length v.
Proof.
  unfold np_iadd. destruct (Nat.eqb_spec (length v) (length m)) as [Heq|_].
  - intros H. injection H as <-. rewrite length_zip_with. lia.
  - destruct m as [|y [|]]; try discriminate.
    intros H. injection H as <-. apply length_map.
Qed.

Lemma sum_peaks_length (f : nat -> result (list float)) (peaks : list nat)
  (v out : list float) :
  sum_peaks f peaks v = OK out -> length out = length v.
Proof.
  revert v. induction peaks as [|jj rest IH]; cbn [sum_peaks]; intros v H.
  - injection H as <-. reflexivity.
  - apply bind_OK in H. destruct H as (m & _ & H).
    apply bind_OK in H. destruct H as (v' & Hv' & H).
    rewrite (IH _ H). exact (np_iadd_length _ _ _ Hv').
Qed.

Lemma n_modelfunc_out_length (self : SpectralModel) (pars : list float)
  (kw : kwargs) (x : Axis) (out : list float) :
  n_modelfunc self pars kw x = OK out ->
  length out = length (ax_values x).
Proof.
  unfold n_modelfunc. destruct (npars self =? 0); [discriminate|].
  intros H. rewrite (sum_peaks_length _ _ _ _ H).
  unfold np_zeros. apply repeat_length.
Qed.

(** X9 - The composed curve has one sample for each sample of the axis,
    whatever the model function returns: a curve of another length is
    broadcast (one sample) or refused with [ValueError], never kept in its
    own length. *)
Theorem n_modelfunc_length (self : SpectralModel) (pars : list float)
  (kw : kwargs) (x : Axis) :
  (forall out, n_modelfunc self pars kw x = OK out ->
               length out = length (ax_values x)) /\
  (forall v m : list float, length m <> length v -> length m <> 1%nat ->
               is_ok (np_iadd v m) = false).
Proof.
  split.
  - intros out. apply n_modelfunc_out_length.
  - intros v m H1 H2. unfold np_iadd.
    destruct (Nat.eqb_spec (length v) (length m)) as [Heq|_]; [congruence|].
    destruct m as [|y [|z t]]; try reflexivity. contradiction.
Qed.

Lemma firstn_skipn_firstn {A : Type} (l : list A) (a n b : nat) :
  (a + n <= b)%nat ->
  firstn n (skipn a (firstn b l)) = firstn n (skipn a l).
Proof.
  intros H. rewrite skipn_firstn_comm, firstn_firstn.
  f_equal. lia.
Qed.

(** The composer for any length of the vector: the loop runs over the
    whole slices only. *)
Lemma n_modelfunc_floor (self : SpectralModel) (pars : list float) (kw : kwargs)
  (x : Axis) :
  1 <= npars self ->
  let n := Z.to_nat (npars self) in
  let k := (length pars / n)%nat in
  n_modelfunc self pars kw x
  = sum_peaks
      (fun jj => modelfunc self x (firstn n (skipn (jj * n) pars)) kw)
      (seq 0 k) (np_zeros (length (ax_values x))).
Proof.
  intros Hn n k. unfold n_modelfunc.
  destruct (Z.eqb_spec (npars self) 0) as [?|_]; [lia|].
  assert (Hk : Z.to_nat (Z.of_nat (length pars) / npars self) = k).
  { unfold k, n. rewrite <- (Z2Nat.id (npars self)) at 1 by lia.
    rewrite <- Nat2Z.inj_div. apply Nat2Z.id. }
  rewrite Hk.
  assert (Hle : (k * n <= length pars)%nat).
  { unfold k. rewrite Nat.mul_comm. apply Nat.Div0.mul_div_le. }
  apply sum_peaks_ext_in. intros jj Hjj. apply in_seq in Hjj.
  f_equal.
  replace (Z.of_nat jj * npars self) with (Z.of_nat (jj * n)) by (unfold n; lia).
  replace ((Z.of_nat jj + 1) * npars self)
    with (Z.of_nat ((jj + 1) * n)) by (unfold n; lia).
  rewrite py_slice_Z_inside by nia.
  f_equal. lia.
Qed.

(** X10 - The edges of the composer.  With [npars] equal to 0 the
    composed function raises [ZeroDivisionError] when it is called.  With
    [npars >= 1], the parameters beyond the last whole slice are ignored
    (the vector counts for [len(pars)/npars] peaks, rounded down); in
    particular a vector shorter than [npars] gives the curve of zeros,
    the model function not being called. *)
Theorem n_modelfunc_edges (self : SpectralModel) (pars : list float)
  (kw : kwargs) (x : Axis) :
  (npars self = 0 -> n_modelfunc self pars kw x = Err ZeroDivisionError) /\
  (1 <= npars self ->
   let n := Z.to_nat (npars self) in
   n_modelfunc self pars kw x
   = n_modelfunc self (firstn (length pars / n * n) pars) kw x) /\
  (1 <= npars self ->
   Z.of_nat (length pars) < npars self ->
   n_modelfunc self pars kw x = OK (np_zeros (length (ax_values x)))).
Proof.
  split; [|split].
  - intros H0. unfold n_modelfunc. rewrite H0. reflexivity.
  - intros Hn n.
    pose proof (n_modelfunc_floor self pars kw x Hn) as H1.
    pose proof (n_modelfunc_floor self
                  (firstn (length pars / n * n) pars) kw x Hn) as H2.
    cbv zeta in H1, H2. fold n in H1, H2.
    assert (Hle : (length pars / n * n <= length pars)%nat)
      by (rewrite Nat.mul_comm; apply Nat.Div0.mul_div_le).
    assert (Hpos : (0 < n)%nat) by (unfold n; lia).
    rewrite length_firstn, Nat.min_l, Nat.div_mul in H2 by lia.
    rewrite H1, H2. apply sum_peaks_ext_in. intros jj Hjj.
    apply in_seq in Hjj. f_equal. symmetry.
    apply firstn_skipn_firstn. nia.
  - intros Hn Hshort.
    rewrite (n_modelfunc_floor self pars kw x Hn). cbv zeta.
    rewrite Nat.div_small by lia. reflexivity.
Qed.

(* ===================================================================== *)
(** ** Sanitization and the residuals: further properties *)
(* ===================================================================== *)

Lemma bad_sanitized (d : list float) :
  Forall (fun y => bad y = false) (sanitized_data d).
Proof.
  unfold sanitized_data. induction d as [|y t IH]; cbn [map]; constructor;
    [|exact IH].
  destruct (bad y) eqn:Hy; [reflexivity | exact Hy].
Qed.

Lemma has_bad_false (d : list float) :
  Forall (fun y => bad y = false) d -> has_bad d = false.
Proof.
  unfold has_bad, np_any. intros H.
  induction H as [|y t Hy _ IH]; cbn [map existsb]; [reflexivity|].
  apply orb_false_iff in IH. destruct IH as [IH1 IH2].
  unfold bad in Hy. apply orb_false_iff in Hy. destruct Hy as [Hy1 Hy2].
  rewrite Hy1, Hy2, IH1, IH2. reflexivity.
Qed.

(** X11 - Sanitizing once is enough.  Sanitized data hold no NaN and no
    infinite sample, so on the heap a first sanitization left, a second
    one changes nothing and raises nothing, with or without an error
    array. *)
Theorem sanitize_twice (h : Heap) (dl el : nat) (d e : list float)
  (err' : option nat) :
  h !! dl = Some d -> h !! el = Some e -> el <> dl ->
  length e = length d -> has_bad d = true ->
  let h' := fst (sanitize h dl (Some el)) in
  has_bad (sanitized_data d) = false /\
  h' !! dl = Some (sanitized_data d) /\
  sanitize h' dl err' = (h', OK tt).
Proof.
  intros Hd He Hne Hlen Hbad h'.
  assert (Hclean : has_bad (sanitized_data d) = false)
    by (apply has_bad_false, bad_sanitized).
  assert (Hh' : h' = <[dl := sanitized_data d]> (<[el := sanitized_error d e]> h)).
  { unfold h'. rewrite (sanitize_arrays _ _ _ _ _ Hd He Hne Hlen Hbad).
    reflexivity. }
  assert (Hread : h' !! dl = Some (sanitized_data d))
    by (rewrite Hh'; apply lookup_insert_eq).
  split; [exact Hclean|]. split; [exact Hread|].
  exact (sanitize_clean _ _ _ _ Hread Hclean).
Qed.

Lemma bad_mask_of_marked (d : list float) :
  bad_mask (zip_with (fun x (b : bool) => if b then f64_inf else x) d (bad_mask d))
  = bad_mask d.
Proof.
  rewrite !bad_mask_map. induction d as [|y t IH]; cbn [map zip_with];
    [reflexivity|].
  rewrite IH. f_equal. destruct (bad y) eqn:Hy; [reflexivity | exact Hy].
Qed.

Lemma zero_marked (d : list float) :
  zip_with (fun x (b : bool) => if b then f64_of_Z 0 else x)
    (zip_with (fun x (b : bool) => if b then f64_inf else x) d (map bad d))
    (map bad d)
  = sanitized_data d.
Proof.
  unfold sanitized_data. induction d as [|y t IH]; cbn [map zip_with];
    [reflexivity|].
  rewrite IH. f_equal. destruct (bad y); reflexivity.
Qed.

(** X12 - One array given as data and as errors.  When the error array is
    the data array itself, the samples that are NaN or infinite end at 0
    (line 230 writes over the infinity of line 229): the array holds the
    sanitized data and no error is left infinite. *)
Theorem sanitize_aliased (h : Heap) (l : nat) (d : list float) :
  h !! l = Some d -> has_bad d = true ->
  sanitize h l (Some l) = (<[l := sanitized_data d]> h, OK tt).
Proof.
  intros Hd Hbad. unfold sanitize, heap_read.
  rewrite Hd. fold (has_bad d). rewrite Hbad. cbn [bind].
  unfold np_setmask at 1.
  rewrite (bad_mask_map d) at 1. rewrite length_map, Nat.eqb_refl.
  rewrite lookup_insert_eq. cbn [bind].
  rewrite bad_mask_of_marked. unfold np_setmask.
  rewrite length_zip_with, !bad_mask_map, length_map, Nat.min_id, Nat.eqb_refl.
  rewrite zero_marked, insert_insert_eq. reflexivity.
Qed.

(** X13 - An error array of another length.  When the data hold a NaN or
    an infinite sample and the error array has not the length of the
    data, the assignment of line 229 raises [IndexError] and neither
    array is written. *)
Theorem sanitize_length_mismatch (h : Heap) (dl el : nat) (d e : list float) :
  h !! dl = Some d -> h !! el = Some e ->
  length e <> length d -> has_bad d = true ->
  sanitize h dl (Some el) = (h, Err IndexError).
Proof.
  intros Hd He Hlen Hbad. unfold sanitize, heap_read.
  rewrite Hd. fold (has_bad d). rewrite Hbad, He. cbn [bind].
  unfold np_setmask. rewrite bad_mask_map, length_map.
  destruct (Nat.eqb_spec (length e) (length d)); [contradiction | reflexivity].
Qed.

(** Lines 228-230 write to the two arrays of the call only. *)
Lemma sanitize_frame (h h' : Heap) (dl : nat) (err : option nat)
  (r : result unit) (l : nat) :
  sanitize h dl err = (h', r) ->
  l <> dl -> (forall el, err = Some el -> l <> el) ->
  h' !! l = h !! l.
Proof.
  unfold sanitize. intros H Hl Hel.
  destruct (heap_read h dl) as [d|x]; [|injection H as <- _; reflexivity].
  destruct (np_any (map isnan d) || np_any (map isinf d));
    [|injection H as <- _; reflexivity].
  destruct err as [el|]; [|injection H as <- _; reflexivity].
  specialize (Hel el eq_refl).
  destruct (bind (heap_read h el) _) as [e'|x];
    [|injection H as <- _; reflexivity].
  destruct (bind (heap_read (<[el := e']> h) dl) _) as [d'|x];
    injection H as <- _.
  - rewrite !lookup_insert_ne by congruence. reflexivity.
  - rewrite lookup_insert_ne by congruence. reflexivity.
Qed.

Lemma zero_residual (m : float) :
  isfinite m = true ->
  is_zero (f64_div (f64_sub (f64_of_Z 0) m) f64_inf) = true.
Proof.
  destruct m as [s|s| |s mant e]; try discriminate; intros _.
  - destruct s; reflexivity.
  - reflexivity.
Qed.

Lemma np_binop_same_length (op : float -> float -> float) (a b : list float) :
  length a = length b -> np_binop op a b = OK (zip_with op a b).
Proof. intros H. unfold np_binop. rewrite H, Nat.eqb_refl. reflexivity. Qed.

(** X14 - What sanitization is for.  On the sanitized arrays, the
    weighted residual of a sample that was NaN or infinite is a zero
    wherever the model is finite: (0 - model) / infinity.  Such a sample
    adds nothing to the sum of squares the solver minimizes. *)
Theorem mpfitfun_sanitized_residual (self : SpectralModel) (h : Heap)
  (x : Axis) (dl el : nat) (d e p m : list float) (kw : kwargs) :
  h !! dl = Some d -> h !! el = Some e -> el <> dl ->
  length e = length d ->
  modelfunc_kwargs self = Some kw ->
  n_modelfunc self p kw x = OK m ->
  length m = length d ->
  let h' := <[dl := sanitized_data d]> (<[el := sanitized_error d e]> h) in
  exists r,
    mpfitfun self h' x dl (Some el) p = OK r /\
    length r = length d /\
    forall i y mi,
      d !! i = Some y -> bad y = true ->
      m !! i = Some mi -> isfinite mi = true ->
      exists ri, r !! i = Some ri /\ is_zero ri = true.
Proof.
  intros Hd He Hne Hlen Hkw Hm Hml h'.
  assert (Hsd : length (sanitized_data d) = length d)
    by (unfold sanitized_data; apply length_map).
  assert (Hse : length (sanitized_error d e) = length d)
    by (unfold sanitized_error; rewrite length_zip_with; lia).
  exists (zip_with f64_div (zip_with f64_sub (sanitized_data d) m)
            (sanitized_error d e)).
  split; [|split].
  - unfold mpfitfun, heap_read. rewrite Hkw. cbn [getattr bind].
    rewrite Hm. cbn [bind]. unfold h'.
    rewrite lookup_insert_eq. cbn [bind].
    rewrite np_binop_same_length by lia. cbn [bind].
    rewrite lookup_insert_ne by congruence. rewrite lookup_insert_eq.
    cbn [bind]. apply np_binop_same_length.
    rewrite length_zip_with. lia.
  - rewrite !length_zip_with. lia.
  - intros i y mi Hy Hbad Hmi Hfin.
    assert (He_i : exists s, e !! i = Some s).
    { apply lookup_lt_is_Some. rewrite Hlen. eapply lookup_lt_Some. exact Hy. }
    destruct He_i as [s Hs].
    exists (f64_div (f64_sub (f64_of_Z 0) mi) f64_inf). split.
    + rewrite !lookup_zip_with. unfold sanitized_data, sanitized_error.
      rewrite list_lookup_fmap, lookup_zip_with, Hy, Hmi, Hs.
      cbn. rewrite Hbad. reflexivity.
    + exact (zero_residual mi Hfin).
Qed.

(* ===================================================================== *)
(** ** The fit driver: further properties *)
(* ===================================================================== *)

Lemma resolve_parnames_keeps (self self1 : SpectralModel) (given names : pyval) :
  resolve_parnames self given = OK (self1, names) ->
  keeps_model self self1 /\ keeps_fit self self1 /\ xax self1 = xax self.
Proof.
  unfold resolve_parnames, keeps_model, keeps_fit.
  destruct (negb (is_none given)).
  - intros H. injection H as <- _. cbn. tauto.
  - intros H. inv_bind H.
    destruct (negb (is_none a)); injection H as <- _; tauto.
Qed.

Lemma after_settings_keeps (a : Bound) (self : SpectralModel) :
  keeps_model self (after_settings a self) /\
  keeps_fit self (after_settings a self) /\
  xax (after_settings a self) = xax self.
Proof.
  unfold after_settings, keeps_model, keeps_fit.
  destruct (negb (is_none (a_shortvarnames a))); cbn; tauto.
Qed.

(** Whatever its outcome, the builder keeps the model, the recorded fit
    and the stored axis. *)
Lemma make_parinfo_body_keeps (self : SpectralModel) (a : Bound) :
  let self' := fst (make_parinfo_body self a) in
  keeps_model self self' /\ keeps_fit self self' /\ xax self' = xax self.
Proof.
  assert (Hrefl : keeps_model self self /\ keeps_fit self self /\ xax self = xax self)
    by (unfold keeps_model, keeps_fit; tauto).
  cbv zeta. unfold make_parinfo_body. cbv zeta.
  destruct (negb (is_none (a_params a)) && _); [exact Hrefl|].
  destruct (resolve_parnames self _) as [[self1 names]|e] eqn:Hn; [|exact Hrefl].
  apply resolve_parnames_keeps in Hn.
  destruct (limit_synthesis names _ _ _ _ _) as [parlimits|e].
  2:{ cbn [fst]. destruct (negb (is_none (a_shortvarnames a))); exact Hn. }
  fold (after_settings a self1).
  assert (H1 : keeps_model self (after_settings a self1) /\
               keeps_fit self (after_settings a self1) /\
               xax (after_settings a self1) = xax self).
  { pose proof (after_settings_keeps a self1) as H.
    unfold keeps_model, keeps_fit in *.
    destruct H as ((-> & -> & -> & ->) & (-> & -> & -> & ->) & ->). exact Hn. }
  match goal with |- context [bind ?m ?k] => destruct (bind m k) as [tbl|e] end;
    [|exact H1].
  destruct (apply_negamp (a_negamp a) tbl) as [tbl' [e|]]; exact H1.
Qed.

Section DriverMore.

Variable mpfit :
  (list float -> result (list float)) -> list ParinfoEntry -> bool ->
  kwargs -> result MpResult.
Variable mpfit_messages : Z -> result string.

Lemma verbose_report_keeps (self self' : SpectralModel) (r : MpResult)
  (mpperr : list float) (out : result unit) :
  verbose_report mpfit_messages self r mpperr = (self', out) ->
  keeps_model self self' /\ keeps_fit self self' /\ xax self' = xax self.
Proof.
  assert (Hrefl : keeps_model self self /\ keeps_fit self self /\ xax self = xax self)
    by (unfold keeps_model, keeps_fit; tauto).
  unfold verbose_report.
  destruct (mpfit_messages (mp_status r)); [|intros H; injection H as <- _; exact Hrefl].
  destruct (mp_params r); [intros H; injection H as <- _; exact Hrefl|].
  destruct (parinfo self); [|intros H; injection H as <- _; exact Hrefl].
  destruct (store_values 0 _ mpperr _) as [tbl' [e|]];
    intros H; injection H as <- _; exact Hrefl.
Qed.

Lemma n_modelfunc_same_model (self other : SpectralModel) (pars : list float)
  (kw : kwargs) (x : Axis) :
  keeps_model self other ->
  n_modelfunc other pars kw x = n_modelfunc self pars kw x.
Proof.
  intros (Hf & Hn & _). unfold n_modelfunc. rewrite Hf, Hn. reflexivity.
Qed.


Lemma run_solver_keeps (self self' : SpectralModel) (h : Heap) (axis : Axis)
  (dl : nat) (err : option nat) (quiet veryverbose debug : bool)
  (tbl : list ParinfoEntry) (kw : kwargs)
  (r : result (list float * list float * list float * float)) :
  run_solver mpfit mpfit_messages self h axis dl err quiet veryverbose debug
    tbl kw = (self', r) ->
  keeps_model self self' /\ xax self' = xax self.
Proof.
  assert (Hrefl : keeps_model self self /\ xax self = xax self)
    by (unfold keeps_model; tauto).
  unfold run_solver.
  destruct (mpfit _ tbl quiet kw) as [report|x];
    [|intros H; injection H as <- _; exact Hrefl].
  destruct (mp_status report =? 0);
    [intros H; injection H as <- _; exact Hrefl|].
  destruct (if veryverbose then _ else _) as [self1 [u|x]] eqn:Hv.
  2:{ intros H. injection H as <- _. destruct veryverbose.
      - apply verbose_report_keeps in Hv. tauto.
      - injection Hv as <- _. exact Hrefl. }
  assert (Hk : keeps_model self self1 /\ xax self1 = xax self).
  { destruct veryverbose.
    - apply verbose_report_keeps in Hv. tauto.
    - injection Hv as <- _. exact Hrefl. }
  assert (Hk2 : forall m, keeps_model self (set_model m (set_fit report
                  (mp_params report) (report_errors report) self1)) /\
                xax (set_model m (set_fit report (mp_params report)
                  (report_errors report) self1)) = xax self)
    by (intros m; unfold keeps_model in *; cbn; tauto).
  assert (Hk1 : keeps_model self (set_fit report (mp_params report)
                  (report_errors report) self1) /\
                xax (set_fit report (mp_params report)
                  (report_errors report) self1) = xax self)
    by (unfold keeps_model in *; cbn; tauto).
  fold (report_errors report).
  destruct (bind _ _) as [m|x]; [|intros H; injection H as <- _; exact Hk1].
  destruct (isnan (mp_fnorm report) && debug);
    intros H; injection H as <- _; apply Hk2.
Qed.

(** X15 - The driver and the caller's heap.  Whatever the outcome of a
    call, no array other than the data and error arrays of the call is
    written; and when the data hold no NaN and no infinite sample, the
    heap is left as it was. *)
Theorem fitter_heap_frame (self self' : SpectralModel) (h h' : Heap)
  (axis : Axis) (dl : nat) (err : option nat)
  (quiet veryverbose debug : bool) (parinfo : option (list ParinfoEntry))
  (kw : kwargs) (r : result (list float * list float * list float * float)) :
  fitter mpfit mpfit_messages self h axis dl err quiet veryverbose debug
    parinfo kw = (h', self', r) ->
  (forall l, l <> dl -> (forall el, err = Some el -> l <> el) ->
             h' !! l = h !! l) /\
  (forall d, h !! dl = Some d -> has_bad d = false -> h' = h).
Proof.
  unfold fitter. intros H.
  destruct (_make_parinfo self kw) as [self1 [[built kw1]|x]];
    [|injection H as <- _ _; split; intros; reflexivity].
  destruct (fit_axis _ axis quiet) as [axis1|x];
    [|injection H as <- _ _; split; intros; reflexivity].
  destruct (sanitize h dl err) as [h1 [u|x]] eqn:Hs.
  - destruct (run_solver _ _ _ _ _ _ _ _ _ _ _ _) as [s out].
    injection H as <- _ _. split.
    + intros l Hl Hel. exact (sanitize_frame _ _ _ _ _ _ Hs Hl Hel).
    + intros d Hd Hclean. rewrite (sanitize_clean _ _ _ _ Hd Hclean) in Hs.
      congruence.
  - injection H as <- _ _. split.
    + intros l Hl Hel. exact (sanitize_frame _ _ _ _ _ _ Hs Hl Hel).
    + intros d Hd Hclean. rewrite (sanitize_clean _ _ _ _ Hd Hclean) in Hs.
      congruence.
Qed.

(** X16 - The driver and the model.  Whatever the outcome of a call, the
    instance keeps its model function, its [npars], its mode and its
    model options; and once the builder has gone through, the axis the
    instance stores is the axis the caller gave, also when a converted
    copy went to the solver. *)
Theorem fitter_keeps_model (self self' : SpectralModel) (h h' : Heap)
  (axis : Axis) (dl : nat) (err : option nat)
  (quiet veryverbose debug : bool) (parinfo : option (list ParinfoEntry))
  (kw : kwargs) (r : result (list float * list float * list float * float)) :
  fitter mpfit mpfit_messages self h axis dl err quiet veryverbose debug
    parinfo kw = (h', self', r) ->
  keeps_model self self' /\
  (is_ok (snd (_make_parinfo self kw)) = true -> xax self' = Some axis).
Proof.
  unfold fitter, _make_parinfo. intros H.
  pose proof (make_parinfo_body_keeps self (bind_arguments kw)) as Hk.
  cbv zeta in Hk.
  destruct (make_parinfo_body self (bind_arguments kw))
    as [self1 [[built kw1]|x]]; cbn [fst snd is_ok] in *.
  2:{ injection H as _ <- _. split; [tauto | discriminate]. }
  destruct Hk as (Hk & _ & _).
  assert (Hk1 : keeps_model self (set_xax axis self1))
    by (unfold keeps_model in *; cbn; exact Hk).
  destruct (fit_axis _ axis quiet) as [axis1|x];
    [|injection H as _ <- _; split; [exact Hk1 | reflexivity]].
  destruct (sanitize h dl err) as [h1 [u|x]];
    [|injection H as _ <- _; split; [exact Hk1 | reflexivity]].
  destruct (run_solver _ _ _ _ _ _ _ _ _ _ _ _) as [s out] eqn:Hrun.
  injection H as _ <- _.
  apply run_solver_keeps in Hrun. destruct Hrun as (Hk2 & Hx).
  split; [|intros _; rewrite Hx; reflexivity].
  unfold keeps_model in *.
  destruct Hk2 as (-> & -> & -> & ->). exact Hk1.
Qed.

(** X17 - A solver that fails.  When the solver returns with status 0,
    the call raises [Exception] with the message of the solver; the fit
    the instance recorded before (if any) is still the one it records,
    while the arrays have been sanitized and the axis stored. *)
Theorem fitter_solver_failure (self self1 : SpectralModel) (h h1 : Heap)
  (axis axis1 : Axis) (dl : nat) (err : option nat)
  (quiet veryverbose debug : bool) (parinfo : option (list ParinfoEntry))
  (kw kw1 : kwargs) (built : list ParinfoEntry) (report : MpResult) :
  _make_parinfo self kw = (self1, OK (built, kw1)) ->
  fit_axis (set_xax axis self1) axis quiet = OK axis1 ->
  sanitize h dl err = (h1, OK tt) ->
  mpfit (mpfitfun (set_xax axis self1) h1 axis1 dl err)
    (match parinfo with Some given => given | None => built end) quiet kw1
    = OK report ->
  mp_status report = 0 ->
  fitter mpfit mpfit_messages self h axis dl err quiet veryverbose debug
    parinfo kw
  = (h1, set_xax axis self1, Err (Exception (mp_errmsg report))) /\
  keeps_fit self (set_xax axis self1).
Proof.
  intros Hmk Hax Hs Hmp Hst. split.
  - unfold fitter. rewrite Hmk, Hax, Hs. unfold run_solver.
    rewrite Hmp, Hst. reflexivity.
  - pose proof (make_parinfo_body_keeps self (bind_arguments kw)) as Hk.
    cbv zeta in Hk. unfold _make_parinfo in Hmk. rewrite Hmk in Hk.
    cbn [fst] in Hk. destruct Hk as (_ & Hk & _).
    unfold keeps_fit in *. cbn. exact Hk.
Qed.


(** X19 - A chi-square that is NaN.  When the solver succeeds (status not
    0) with a chi-square that is NaN, the fit is recorded on the instance
    in both modes; in debug mode the call then raises [ValueError], and
    otherwise it returns the fit. *)
Theorem fitter_nan_chi2 (self self1 : SpectralModel) (h h1 : Heap)
  (axis axis1 : Axis) (dl : nat) (err : option nat) (quiet debug : bool)
  (parinfo : option (list ParinfoEntry)) (kw kw1 kw0 : kwargs)
  (built : list ParinfoEntry) (report : MpResult) (m : list float) :
  _make_parinfo self kw = (self1, OK (built, kw1)) ->
  fit_axis (set_xax axis self1) axis quiet = OK axis1 ->
  sanitize h dl err = (h1, OK tt) ->
  mpfit (mpfitfun (set_xax axis self1) h1 axis1 dl err)
    (match parinfo with Some given => given | None => built end) quiet kw1
    = OK report ->
  mp_status report <> 0 ->
  isnan (mp_fnorm report) = true ->
  modelfunc_kwargs self = Some kw0 ->
  n_modelfunc self (mp_params report) kw0 axis1 = OK m ->
  let recorded :=
    set_model m (set_fit report (mp_params report) (report_errors report)
                   (set_xax axis self1)) in
  fitter mpfit mpfit_messages self h axis dl err quiet false debug parinfo kw
  = (h1, recorded,
     if debug then Err (ValueError "Error: chi^2 is nan")
     else OK (mp_params report, m, report_errors report, mp_fnorm report)) /\
  model recorded = Some m /\ mpp recorded = Some (mp_params report).
Proof.
  intros Hmk Hax Hs Hmp Hst Hnan Hkw Hm recorded.
  split; [|split; reflexivity].
  pose proof (make_parinfo_body_keeps self (bind_arguments kw)) as Hk.
  cbv zeta in Hk. unfold _make_parinfo in Hmk. rewrite Hmk in Hk.
  cbn [fst] in Hk. destruct Hk as (Hk & _ & _).
  assert (Hk1 : keeps_model self (set_fit report (mp_params report)
                  (report_errors report) (set_xax axis self1)))
    by (unfold keeps_model in *; cbn; exact Hk).
  fold (_make_parinfo self kw) in Hmk.
  unfold fitter. rewrite Hmk, Hax, Hs. unfold run_solver.
  rewrite Hmp. destruct (Z.eqb_spec (mp_status report) 0) as [?|_];
    [contradiction|].
  fold (report_errors report).
  destruct Hk1 as (Hf & Hn & Hms & Hmk1).
  rewrite Hmk1, Hkw. cbn [getattr bind].
  rewrite (n_modelfunc_same_model self _ _ _ _
             (conj Hf (conj Hn (conj Hms Hmk1)))), Hm.
  rewrite Hnan. cbn [andb]. destruct debug; reflexivity.
Qed.

(** X20 - The units of the fit.  Each call stores the keyword [fitunits]
    of that call, [None] when it is not given: units given to an earlier
    call or to the constructor are forgotten.  So the solver gets the
    caller's axis unless this call gives [fitunits]; when it does and the
    axis can convert, the solver gets the converted samples. *)
Theorem fitter_axis_units (self self1 : SpectralModel) (kw kw1 : kwargs)
  (built : list ParinfoEntry) (axis : Axis) (quiet : bool) :
  _make_parinfo self kw = (self1, OK (built, kw1)) ->
  fitunits self1 = Some (keyword kw "fitunits" VNone) /\
  (keyword kw "fitunits" VNone = VNone ->
   fit_axis (set_xax axis self1) axis quiet = OK axis) /\
  (ax_convert_to_unit axis = None ->
   fit_axis (set_xax axis self1) axis quiet = OK axis) /\
  (forall convert,
     ax_convert_to_unit axis = Some convert ->
     is_none (keyword kw "fitunits" VNone) = false ->
     fit_axis (set_xax axis self1) axis quiet
     = (vals <- convert (keyword kw "fitunits" VNone) quiet ;;
        OK (mkAxis vals (ax_convert_to_unit axis) (ax_x_to_pix axis)))).
Proof.
  intros H. unfold _make_parinfo in H.
  assert (Hf : a_fitunits (bind_arguments kw) = keyword kw "fitunits" VNone)
    by reflexivity.
  revert H Hf. generalize (keyword kw "fitunits" VNone) as units.
  generalize (bind_arguments kw) as a. intros a units H Hf.
  apply make_parinfo_body_stages in H.
  destruct H as (s & _ & _ & _ & _ & _ & _ & _ & _ & _ & _ & _ & ->).
  assert (Hu : fitunits (set_xax axis (set_parinfo built (after_settings a s)))
               = Some units).
  { cbn. unfold after_settings. rewrite Hf.
    destruct (negb (is_none (a_shortvarnames a))); reflexivity. }
  split; [rewrite <- Hu; reflexivity|].
  unfold fit_axis. rewrite Hu. cbn [getattr bind].
  split; [|split].
  - intros ->. destruct (ax_convert_to_unit axis); reflexivity.
  - intros ->. reflexivity.
  - intros convert -> ->. reflexivity.
Qed.

End DriverMore.

(* ===================================================================== *)
(** ** The accessors: further properties *)
(* ===================================================================== *)

Lemma np_diff_length (m : list float) :
  length (np_diff m) = (length m - 1)%nat.
Proof.
  induction m as [|x [|y t] IH]; cbn [np_diff length] in *; try reflexivity.
  rewrite IH. lia.
Qed.

Lemma np_diff_lookup (m : list float) (i : nat) (y0 y1 : float) :
  m !! i = Some y0 -> m !! S i = Some y1 ->
  np_diff m !! i = Some (f64_sub y1 y0).
Proof.
  revert i. induction m as [|x [|y t] IH]; intros i H0 H1; try discriminate.
  destruct i as [|i].
  - cbn in H0, H1. injection H0 as <-. injection H1 as <-. reflexivity.
  - cbn [np_diff]. cbn. apply IH; assumption.
Qed.

Lemma window_of_two {A : Type} (l : list A) (i : nat) (a b : A) :
  l !! i = Some a -> l !! S i = Some b -> firstn 2 (skipn i l) = [a; b].
Proof.
  revert i. induction l as [|x t IH]; intros i Ha Hb; [discriminate|].
  destruct i as [|i].
  - cbn in Ha. injection Ha as <-. destruct t as [|y t']; [discriminate|].
    cbn in Hb. injection Hb as <-. reflexivity.
  - cbn [skipn]. apply IH; assumption.
Qed.

Lemma window_of_one {A : Type} (l : list A) (i : nat) (a : A) :
  l !! i = Some a -> S i = length l -> skipn i l = [a].
Proof.
  revert i. induction l as [|x t IH]; intros i Ha Hlen; [discriminate|].
  destruct i as [|i].
  - cbn in Ha. injection Ha as <-. destruct t; [reflexivity | discriminate].
  - cbn [skipn]. apply IH; [exact Ha | cbn in Hlen; lia].
Qed.

(** The value [slope] makes of the average of its window (lines 275-278). *)
Lemma slope_unfold (self : SpectralModel) (m : list float) (axis : Axis)
  (to_pix : float -> result Z) (xinp : float) (xpix : Z) :
  model self = Some m -> xax self = Some axis ->
  ax_x_to_pix axis = Some to_pix -> to_pix xinp = OK xpix ->
  slope self xinp
  = OK (let dmx := np_average (py_slice_Z (np_diff m) (xpix - 1) (xpix + 1)) in
        if isfinite dmx then VFloat dmx else VInt 0).
Proof.
  intros Hm Hx Hp Hpix. unfold slope. rewrite Hm, Hx. cbn [getattr bind].
  rewrite Hp. cbn [getattr bind]. rewrite Hpix. cbn [bind].
  destruct (isfinite _); reflexivity.
Qed.

Lemma average_of_none : isfinite (np_average []) = false.
Proof. reflexivity. Qed.

(** X21 - What [slope] can return: [None] (exactly when no curve is
    stored), the integer 0, or a finite float; never NaN and never an
    infinity. *)
Theorem slope_result (self : SpectralModel) (xinp : float) (v : pyval) :
  slope self xinp = OK v ->
  (v = VNone /\ model self = None) \/
  (model self <> None /\
   (v = VInt 0 \/ exists f, v = VFloat f /\ isfinite f = true)).
Proof.
  unfold slope. destruct (model self) as [m|].
  - intros H. right. split; [discriminate|].
    apply bind_OK in H. destruct H as (axis & _ & H).
    apply bind_OK in H. destruct H as (to_pix & _ & H).
    apply bind_OK in H. destruct H as (xpix & _ & H).
    destruct (isfinite _) eqn:Hfin; injection H as <-; eauto.
  - intros H. injection H as <-. left. split; reflexivity.
Qed.

(** X22 - The window of [slope].  With a stored curve [m] and an axis
    that maps the coordinate to the pixel [xpix]: at an inner pixel the
    value is the mean of the two differences around it,
    [((m[xpix] - m[xpix-1]) + (m[xpix+1] - m[xpix])) / 2]; at the last
    pixel it is the last difference; at pixel 0 of a curve of three
    samples or more the window [dm[-1:1]] is empty and the value is 0, as
    it is for a curve of fewer than two samples.  A value that is not
    finite is replaced by 0. *)
Theorem slope_window (self : SpectralModel) (m : list float) (axis : Axis)
  (to_pix : float -> result Z) (xinp : float) (xpix : Z) :
  model self = Some m -> xax self = Some axis ->
  ax_x_to_pix axis = Some to_pix -> to_pix xinp = OK xpix ->
  (forall y0 y1 y2,
     1 <= xpix ->
     m !! Z.to_nat (xpix - 1) = Some y0 -> m !! Z.to_nat xpix = Some y1 ->
     m !! Z.to_nat (xpix + 1) = Some y2 ->
     slope self xinp
     = OK (let s := f64_div (f64_add (f64_sub y1 y0) (f64_sub y2 y1)) f64_two in
           if isfinite s then VFloat s else VInt 0)) /\
  (forall y0 y1,
     1 <= xpix -> Z.of_nat (length m) = xpix + 1 ->
     m !! Z.to_nat (xpix - 1) = Some y0 -> m !! Z.to_nat xpix = Some y1 ->
     slope self xinp
     = OK (let s := f64_div (f64_sub y1 y0) f64_one in
           if isfinite s then VFloat s else VInt 0)) /\
  (xpix = 0 -> (3 <= length m)%nat -> slope self xinp = OK (VInt 0)) /\
  ((length m <= 1)%nat -> slope self xinp = OK (VInt 0)).
Proof.
  intros Hm Hx Hp Hpix.
  rewrite (slope_unfold _ _ _ _ _ _ Hm Hx Hp Hpix). cbv zeta.
  pose proof (np_diff_length m) as Hlen.
  split; [|split; [|split]].
  - intros y0 y1 y2 H1 H0 Hy1 Hy2.
    assert (Hd0 : np_diff m !! Z.to_nat (xpix - 1) = Some (f64_sub y1 y0)).
    { apply np_diff_lookup; [exact H0|].
      replace (S (Z.to_nat (xpix - 1))) with (Z.to_nat xpix) by lia. exact Hy1. }
    assert (Hd1 : np_diff m !! S (Z.to_nat (xpix - 1)) = Some (f64_sub y2 y1)).
    { replace (S (Z.to_nat (xpix - 1))) with (Z.to_nat xpix) by lia.
      apply np_diff_lookup; [exact Hy1|].
      replace (S (Z.to_nat xpix)) with (Z.to_nat (xpix + 1)) by lia. exact Hy2. }
    pose proof (lookup_lt_Some _ _ _ Hd1) as Hlt.
    assert (Hslice : py_slice_Z (np_diff m) (xpix - 1) (xpix + 1)
                     = [f64_sub y1 y0; f64_sub y2 y1]).
    { replace (xpix - 1) with (Z.of_nat (Z.to_nat (xpix - 1))) by lia.
      replace (xpix + 1) with (Z.of_nat (Z.to_nat (xpix - 1) + 2)) by lia.
      rewrite py_slice_Z_inside by lia.
      replace (Z.to_nat (xpix - 1) + 2 - Z.to_nat (xpix - 1))%nat
        with 2%nat by lia.
      exact (window_of_two _ _ _ _ Hd0 Hd1). }
    rewrite Hslice.
    unfold np_average, np_sum, f64_two. cbn [length fold_left].
    change (Z.of_nat 2) with 2. reflexivity.
  - intros y0 y1 H1 Hlast H0 Hy1.
    assert (Hd0 : np_diff m !! Z.to_nat (xpix - 1) = Some (f64_sub y1 y0)).
    { apply np_diff_lookup; [exact H0|].
      replace (S (Z.to_nat (xpix - 1))) with (Z.to_nat xpix) by lia. exact Hy1. }
    assert (Hslice : py_slice_Z (np_diff m) (xpix - 1) (xpix + 1)
                     = [f64_sub y1 y0]).
    { unfold py_slice_Z, py_slice.
      destruct (Z.ltb_spec (xpix - 1) 0) as [?|_]; [lia|].
      destruct (Z.ltb_spec (xpix + 1) 0) as [?|_]; [lia|].
      rewrite Hlen.
      replace (Z.to_nat (Z.min (Z.of_nat (length m - 1)) (Z.max 0 (xpix - 1))))
        with (Z.to_nat (xpix - 1)) by lia.
      replace (Z.to_nat (Z.min (Z.of_nat (length m - 1)) (Z.max 0 (xpix + 1))))
        with (S (Z.to_nat (xpix - 1))) by lia.
      replace (S (Z.to_nat (xpix - 1)) - Z.to_nat (xpix - 1))%nat
        with 1%nat by lia.
      rewrite (window_of_one _ _ _ Hd0) by lia. reflexivity. }
    rewrite Hslice.
    unfold np_average, np_sum, f64_one. cbn [length fold_left].
    change (Z.of_nat 1) with 1. reflexivity.
  - intros -> H3.
    assert (Hslice : py_slice_Z (np_diff m) (0 - 1) (0 + 1) = []).
    { unfold py_slice_Z, py_slice. rewrite Hlen.
      change (0 - 1 <? 0) with true. change (0 + 1 <? 0) with false.
      cbv iota.
      match goal with |- firstn ?n _ = [] => replace n with 0%nat by lia end.
      reflexivity. }
    rewrite Hslice. reflexivity.
  - intros Hshort.
    assert (Hnil : np_diff m = [])
      by (destruct m as [|x [|y t]]; [reflexivity | reflexivity | cbn in Hshort; lia]).
    assert (Hslice : py_slice_Z (np_diff m) (xpix - 1) (xpix + 1) = []).
    { rewrite Hnil. unfold py_slice_Z, py_slice.
      rewrite skipn_nil. apply firstn_nil. }
    rewrite Hslice. reflexivity.
Qed.

Lemma lookup_concat_repeat {A : Type} (l : list A) (k jj ii : nat) :
  (jj < k)%nat -> (ii < length l)%nat ->
  concat (repeat l k) !! (jj * length l + ii)%nat = l !! ii.
Proof.
  revert jj. induction k as [|k IH]; intros jj Hj Hi; [lia|].
  cbn [repeat concat]. destruct jj as [|jj].
  - cbn [Nat.mul Nat.add]. apply lookup_app_l. exact Hi.
  - rewrite lookup_app_r by (cbn; lia).
    replace (S jj * length l + ii - length l)%nat
      with (jj * length l + ii)%nat by (cbn; lia).
    apply IH; lia.
Qed.

Section Labels.

Variable format_label : pyval -> nat -> float -> float -> result string.

Lemma make_label_OK (self : SpectralModel) (svn : pyval) (jj ii : nat)
  (label : string) :
  make_label format_label self svn jj ii = OK label ->
  let idx := Z.to_nat (Z.of_nat ii + Z.of_nat jj * npars self) in
  exists name values errors v e,
    py_getitem svn idx = OK name /\
    mpp self = Some values /\ values !! idx = Some v /\
    mpperr self = Some errors /\ errors !! idx = Some e /\
    format_label name jj v e = OK label.
Proof.
  intros H. cbv zeta. unfold make_label in H.
  set (idx := Z.to_nat (Z.of_nat ii + Z.of_nat jj * npars self)) in *.
  apply bind_OK in H. destruct H as (name & Hname & H).
  apply bind_OK in H. destruct H as (values & Hvalues & H).
  apply bind_OK in H. destruct H as (v & Hv & H).
  apply bind_OK in H. destruct H as (errors & Herrors & H).
  apply bind_OK in H. destruct H as (e & He & H).
  exists name, values, errors, v, e.
  destruct (mpp self); [|discriminate]. injection Hvalues as ->.
  destruct (mpperr self); [|discriminate]. injection Herrors as ->.
  destruct (values !! idx); [|discriminate]. injection Hv as ->.
  destruct (errors !! idx); [|discriminate]. injection He as ->.
  repeat split; try reflexivity; assumption.
Qed.

(** X23 - The labels.  When [annotations] returns, for a stored number of
    peaks [k], there is one label for each peak and parameter, in
    peak-major order, and the label of peak [jj] and parameter [ii] is
    the format applied to the short name, the peak index, the fitted
    value and the uncertainty at [ii + jj*npars].  The short names are
    recycled: given as a tuple of [npars] names, the name of parameter
    [ii] is used for every peak. *)
Theorem annotations_labels (self : SpectralModel) (given : pyval)
  (labels : list string) :
  annotations format_label self given = OK labels ->
  exists k values errors,
    (exists peaks, npeaks self = Some peaks /\ py_int peaks = OK k) /\
    length labels = (Z.to_nat k * Z.to_nat (npars self))%nat /\
    (labels <> [] -> mpp self = Some values /\ mpperr self = Some errors) /\
    forall jj ii : nat,
      Z.of_nat jj < k -> Z.of_nat ii < npars self ->
      let idx := (jj * Z.to_nat (npars self) + ii)%nat in
      exists label name v e,
        labels !! idx = Some label /\
        values !! idx = Some v /\ errors !! idx = Some e /\
        format_label name jj v e = OK label /\
        (forall l,
           (if is_none given then shortvarnames self else Some given)
             = Some (VTuple l) ->
           Z.of_nat (length l) = npars self -> l !! ii = Some name).
Proof.
  unfold annotations. intros H.
  apply bind_OK in H. destruct H as (svn0 & Hsvn0 & H).
  apply bind_OK in H. destruct H as (len & Hlen & H).
  apply bind_OK in H. destruct H as (peaks & Hpeaks & H).
  apply bind_OK in H. destruct H as (k & Hk & H).
  apply bind_OK in H. destruct H as (svn & Hsvn & H).
  apply mapM_OK_Forall2 in H.
  pose proof (Forall2_length _ _ _ H) as Hcount.
  rewrite peak_major_length in Hcount.
  assert (Hcell : forall jj ii : nat,
    Z.of_nat jj < k -> Z.of_nat ii < npars self ->
    exists label,
      labels !! (jj * Z.to_nat (npars self) + ii)%nat = Some label /\
      make_label format_label self svn jj ii = OK label).
  { intros jj ii Hj Hi.
    assert (Hl : peak_major (Z.to_nat k) (Z.to_nat (npars self))
                   !! (jj * Z.to_nat (npars self) + ii)%nat = Some (jj, ii))
      by (apply peak_major_lookup; lia).
    destruct (Forall2_lookup_l _ _ _ _ _ H Hl) as (label & Hlab & Hmk).
    eauto. }
  assert (Hattr : exists values errors,
    labels <> [] -> mpp self = Some values /\ mpperr self = Some errors).
  { destruct labels as [|lab rest].
    - exists [], []. intros Hne. contradiction.
    - destruct (peak_major (Z.to_nat k) (Z.to_nat (npars self)))
        as [|[jj ii] cells] eqn:Hpm; [inversion H|].
      apply Forall2_cons_1 in H. destruct H as [Hmk _].
      apply make_label_OK in Hmk.
      destruct Hmk as (_ & values & errors & _ & _ & _ & Hv & _ & He & _).
      exists values, errors. intros _. split; assumption. }
  destruct Hattr as (values & errors & Hattr).
  exists k, values, errors.
  split; [exists peaks; split;
          [destruct (npeaks self); [cbn in Hpeaks; congruence | discriminate]
          | exact Hk]|].
  split; [symmetry; exact Hcount|]. split; [exact Hattr|].
  intros jj ii Hj Hi.
  set (idx := (jj * Z.to_nat (npars self) + ii)%nat).
  destruct (Hcell jj ii Hj Hi) as (label & Hlab & Hmk).
  assert (Hne : labels <> []) by (intros ->; discriminate).
  destruct (Hattr Hne) as (Hv & He).
  apply make_label_OK in Hmk. cbv zeta in Hmk.
  destruct Hmk as (name & values' & errors' & v & e &
                   Hname & Hv' & Hvi & He' & Hei & Hfmt).
  rewrite Hv in Hv'. injection Hv' as <-.
  rewrite He in He'. injection He' as <-.
  replace (Z.to_nat (Z.of_nat ii + Z.of_nat jj * npars self)) with idx
    in Hname, Hvi, Hei by (unfold idx; nia).
  exists label, name, v, e.
  repeat (split; [assumption|]).
  intros l Hgiven Hl.
  assert (Hsvn0' : svn0 = VTuple l).
  { destruct (is_none given).
    - rewrite Hgiven in Hsvn0. cbn in Hsvn0. congruence.
    - congruence. }
  subst svn0. cbn in Hlen. injection Hlen as <-.
  assert (Hii : (ii < length l)%nat) by lia.
  assert (Hnl : Z.to_nat (npars self) = length l) by lia.
  destruct (Z.ltb_spec (Z.of_nat (length l)) (k * npars self)) as [Hlt|Hge].
  - cbn in Hsvn. injection Hsvn as <-.
    unfold py_getitem in Hname. cbn in Hname. unfold idx in Hname.
    rewrite Hnl, lookup_concat_repeat in Hname by lia.
    destruct (l !! ii); [congruence | discriminate].
  - injection Hsvn as <-.
    assert (jj = 0%nat) by nia. subst jj.
    unfold py_getitem in Hname. cbn in Hname. unfold idx in Hname.
    cbn [Nat.mul Nat.add] in Hname.
    destruct (l !! ii); [congruence | discriminate].
Qed.

End Labels.

(* ===================================================================== *)
(** ** The per-peak curves *)
(* ===================================================================== *)

(** X24 - The rows of [components].  When it returns, there is one curve
    for each of the stored number of peaks, whatever the length of the
    parameter vector: row [i] is the model function called, with
    [return_components] set beside the model options, on the slice
    [pars[i*npars:(i+1)*npars]], which is cut short or empty when the
    vector is too short. *)
Theorem components_rows (self : SpectralModel) (axis : Axis)
  (pars : list float) (rows : list (list float)) :
  components self axis pars = OK rows ->
  exists k,
    (exists peaks, npeaks self = Some peaks /\ py_int peaks = OK k) /\
    length rows = Z.to_nat k /\
    (rows <> [] ->
     exists kw,
       modelfunc_kwargs self = Some kw /\ kw !! "return_components" = None /\
       forall i row,
         rows !! i = Some row ->
         modelfunc self axis
           (py_slice_Z pars (Z.of_nat i * npars self)
              ((Z.of_nat i + 1) * npars self))
           (<["return_components" := VBool true]> kw) = OK row).
Proof.
  unfold components. intros H.
  apply bind_OK in H. destruct H as (peaks & Hpeaks & H).
  apply bind_OK in H. destruct H as (k & Hk & H).
  apply mapM_OK_Forall2 in H.
  exists k. split.
  { exists peaks. split; [|exact Hk].
    destruct (npeaks self); [cbn in Hpeaks; congruence | discriminate]. }
  pose proof (Forall2_length _ _ _ H) as Hlen. rewrite length_seq in Hlen.
  split; [symmetry; exact Hlen|].
  intros Hne.
  assert (Hkw : exists kw, modelfunc_kwargs self = Some kw /\
                           kw !! "return_components" = None).
  { destruct rows as [|row rest]; [contradiction|].
    destruct (seq 0 (Z.to_nat k)) as [|i others]; [inversion H|].
    apply Forall2_cons_1 in H. destruct H as [Hcall _].
    unfold component_call in Hcall.
    destruct (modelfunc_kwargs self) as [kw|]; [|discriminate].
    cbn [getattr bind] in Hcall. exists kw. split; [reflexivity|].
    destruct (kw !! "return_components"); [discriminate | reflexivity]. }
  destruct Hkw as (kw & Hkw & Hfree). exists kw.
  split; [exact Hkw|]. split; [exact Hfree|].
  intros i row Hrow.
  destruct (Forall2_lookup_r _ _ _ _ _ H Hrow) as (i' & Hi' & Hcall).
  apply lookup_seq in Hi'. destruct Hi' as [-> _]. cbn [Nat.add] in Hcall.
  unfold component_call in Hcall. rewrite Hkw in Hcall.
  cbn [getattr bind] in Hcall. rewrite Hfree in Hcall. exact Hcall.
Qed.

(** X25 - The edges of [components].  With no peak stored ([npeaks] 0 or
    less) it returns no curve and calls nothing.  With one peak or more,
    it raises [TypeError] when the model options already hold
    [return_components] (the keyword would be given twice), and
    [AttributeError] when the instance has no model options. *)
Theorem components_edges (self : SpectralModel) (axis : Axis)
  (pars : list float) (peaks : pyval) (k : Z) :
  npeaks self = Some peaks -> py_int peaks = OK k ->
  (k <= 0 -> components self axis pars = OK []) /\
  (1 <= k -> forall kw v,
     modelfunc_kwargs self = Some kw -> kw !! "return_components" = Some v ->
     components self axis pars = Err TypeError) /\
  (1 <= k -> modelfunc_kwargs self = None ->
   components self axis pars = Err (AttributeError "modelfunc_kwargs")).
Proof.
  intros Hp Hk. unfold components. rewrite Hp. cbn [getattr bind].
  rewrite Hk. cbn [bind]. split; [|split].
  - intros Hle. replace (Z.to_nat k) with 0%nat by lia. reflexivity.
  - intros Hge kw v Hkw Hv.
    destruct (Z.to_nat k) as [|n] eqn:Hn; [lia|].
    cbn [seq mapM]. unfold component_call at 1. rewrite Hkw.
    cbn [getattr bind]. rewrite Hv. reflexivity.
  - intros Hge Hkw.
    destruct (Z.to_nat k) as [|n] eqn:Hn; [lia|].
    cbn [seq mapM]. unfold component_call at 1. rewrite Hkw. reflexivity.
Qed.

(* ===================================================================== *)
(** ** The constructor and the verbose report *)
(* ===================================================================== *)


Lemma store_values_from (i : nat) (mpp mpperr : list float)
  (tbl tbl' : list ParinfoEntry) :
  store_values i mpp mpperr tbl = (tbl', None) ->
  length tbl' = length tbl /\
  (mpp = [] \/
   ((i + length mpp <= length tbl)%nat /\
    (i + length mpp <= length mpperr)%nat)) /\
  (forall j, (j < i)%nat -> tbl' !! j = tbl !! j) /\
  (forall j, (i + length mpp <= j)%nat -> tbl' !! j = tbl !! j) /\
  (forall j p, mpp !! j = Some p ->
     exists e, tbl !! (i + j)%nat = Some e /\
               tbl' !! (i + j)%nat = Some (set_value (VFloat p) e)).
Proof.
  revert i tbl. induction mpp as [|p rest IH]; intros i tbl H.
  - cbn in H. injection H as <-.
    split; [reflexivity|]. split; [left; reflexivity|].
    split; [reflexivity|]. split; [reflexivity|]. intros j q Hq. discriminate.
  - cbn [store_values] in H.
    destruct (tbl !! i) as [e|] eqn:He; [|discriminate].
    destruct (mpperr !! i) as [x|] eqn:Hx; [|discriminate].
    apply IH in H.
    pose proof (lookup_lt_Some _ _ _ He) as Hlt.
    pose proof (lookup_lt_Some _ _ _ Hx) as Hlt'.
    rewrite length_insert in H.
    destruct H as (Hlen & Hb & Hlow & Hhigh & Hcells).
    cbn [length]. split; [exact Hlen|].
    split; [right; destruct Hb as [->|[? ?]]; cbn [length]; lia|].
    split; [|split].
    + intros j Hj. rewrite Hlow by lia.
      apply list_lookup_insert_ne. lia.
    + intros j Hj. rewrite Hhigh by lia.
      apply list_lookup_insert_ne. lia.
    + intros j q Hq. destruct j as [|j].
      * cbn in Hq. injection Hq as <-. rewrite Nat.add_0_r.
        exists e. split; [exact He|].
        rewrite Hlow by lia. apply list_lookup_insert_eq. exact Hlt.
      * cbn in Hq. destruct (Hcells j q Hq) as (e' & He' & Hset).
        replace (i + S j)%nat with (S i + j)%nat by lia.
        exists e'. split; [|exact Hset].
        rewrite list_lookup_insert_ne in He' by lia. exact He'.
Qed.

Section Report.

Variable mpfit_messages : Z -> result string.

(** X27 - The verbose report.  When it goes through, the table stored on
    the instance has the fitted values as the ['value'] of its first
    entries, one for each fitted value, every other field and entry being
    kept; so there are no more fitted values than entries, nor than
    uncertainties.  Nothing else of the instance changes. *)
Theorem verbose_report_values (self self' : SpectralModel) (r : MpResult)
  (mpperr : list float) (p0 : float) (rest : list float)
  (tbl : list ParinfoEntry) :
  mp_params r = p0 :: rest ->
  parinfo self = Some tbl ->
  verbose_report mpfit_messages self r mpperr = (self', OK tt) ->
  exists tbl',
    self' = set_parinfo tbl' self /\
    length tbl' = length tbl /\
    (length (mp_params r) <= length tbl)%nat /\
    (length (mp_params r) <= length mpperr)%nat /\
    (forall j, (length (mp_params r) <= j)%nat -> tbl' !! j = tbl !! j) /\
    (forall j p, mp_params r !! j = Some p ->
       exists e, tbl !! j = Some e /\ tbl' !! j = Some (set_value (VFloat p) e)).
Proof.
  intros Hp Htbl. unfold verbose_report.
  destruct (mpfit_messages (mp_status r)); [|discriminate].
  rewrite Hp, Htbl.
  destruct (store_values 0 (p0 :: rest) mpperr tbl) as [tbl' [e|]] eqn:Hs;
    [discriminate|].
  intros H. injection H as <-. exists tbl'.
  apply store_values_from in Hs.
  destruct Hs as (Hlen & Hb & _ & Hhigh & Hcells).
  destruct Hb as [Hb|[Hb1 Hb2]]; [discriminate|].
  split; [reflexivity|]. split; [exact Hlen|]. split; [exact Hb1|].
  split; [exact Hb2|].
  split; [exact Hhigh | exact Hcells].
Qed.

End Report.

(* ===================================================================== *)
(** ** The worked instance, continued *)
(* ===================================================================== *)

Lemma demo_call_plain :
  _make_parinfo demo_self ∅
  = (state_after demo_self ∅,
     OK (table_of demo_self ∅, residual_of demo_self ∅)).
Proof. vm_compute. reflexivity. Defined.

Lemma make_parinfo_residual_witness :
  residual_of demo_self demo_kw !! "quiet" = Some (VBool true) /\
  residual_of demo_self demo_kw !! "npeaks" = None.
Proof.
  pose proof (make_parinfo_residual demo_self (state_after demo_self demo_kw)
                demo_kw (residual_of demo_self demo_kw)
                (table_of demo_self demo_kw) demo_call) as H.
  split.
  - rewrite (H "quiet"). vm_compute. reflexivity.
  - rewrite (H "npeaks"). vm_compute. reflexivity.
Defined.

Lemma make_parinfo_records_witness :
  parinfo (state_after demo_self demo_kw) = Some (table_of demo_self demo_kw) /\
  npeaks (state_after demo_self demo_kw) = Some (VInt 2) /\
  fitunits (state_after demo_self demo_kw) = Some VNone.
Proof.
  destruct (make_parinfo_records demo_self (state_after demo_self demo_kw)
              demo_kw (residual_of demo_self demo_kw)
              (table_of demo_self demo_kw) demo_call)
    as (H1 & H2 & H3 & _).
  split; [exact H1|]. split; [exact H2 | exact H3].
Defined.

Lemma make_parinfo_no_names_witness :
  _make_parinfo blank_self ∅ = (blank_self, Err (AttributeError "parnames")) /\
  snd (__init__ None flat_model 3 "multi" ∅) = Err (AttributeError "parnames").
Proof.
  destruct (make_parinfo_no_names blank_self ∅) as (H1 & H2);
    [reflexivity | reflexivity | reflexivity | left; reflexivity |].
  split; [exact H1|]. apply H2. reflexivity.
Defined.

Lemma make_parinfo_tied_witness :
  Forall (fun e => pi_tied e = VStr "") (table_of demo_self demo_kw).
Proof.
  destruct (make_parinfo_tied demo_self (state_after demo_self demo_kw)
              demo_kw (residual_of demo_self demo_kw)
              (table_of demo_self demo_kw) demo_call) as (_ & H & _).
  apply H. reflexivity.
Defined.

Lemma make_parinfo_defaults_witness :
  Forall (fun e => pi_value e = VBool false) (table_of demo_self ∅) /\
  Forall (fun e => pi_limits e = VTuple [VInt 0; VInt 0]) (table_of demo_self ∅).
Proof.
  destruct (make_parinfo_defaults demo_self (state_after demo_self ∅) ∅
              (residual_of demo_self ∅) (table_of demo_self ∅) demo_call_plain)
    as (Hv & _ & _ & _ & Hl & _).
  split; [apply Hv; reflexivity | apply Hl; reflexivity].
Defined.


Lemma make_parinfo_one_sided_witness :
  exists names len,
    parnames (state_after demo_self demo_kw_params) = Some names /\
    py_len names = OK len /\ npars demo_self * 1 <= Z.of_nat len.
Proof.
  apply (make_parinfo_one_sided demo_self (state_after demo_self demo_kw_params)
           demo_kw_params (residual_of demo_self demo_kw_params)
           (table_of demo_self demo_kw_params) 1).
  - vm_compute. discriminate.
  - reflexivity.
  - lia.
  - left. reflexivity.
  - exact demo_call_params.
Defined.

Lemma make_parinfo_short_keyword_witness :
  _make_parinfo demo_self demo_kw_names
  = _make_parinfo demo_self
      (<["parnames" := demo_parnames]> (delete "names" demo_kw_names)).
Proof.
  apply (make_parinfo_short_keyword demo_self demo_kw_names "parnames" "names"
           demo_parnames).
  - unfold alias_pairs. left.
  - reflexivity.
  - reflexivity.
Defined.

Lemma demo_composed :
  n_modelfunc demo_self demo_pars ∅ demo_axis
  = OK [f64_of_Z 3; f64_of_Z 3; f64_of_Z 3; f64_of_Z 3].
Proof. vm_compute. reflexivity. Defined.

Lemma n_modelfunc_length_witness :
  length [f64_of_Z 3; f64_of_Z 3; f64_of_Z 3; f64_of_Z 3]
  = length (ax_values demo_axis).
Proof.
  destruct (n_modelfunc_length demo_self demo_pars ∅ demo_axis) as (H & _).
  exact (H _ demo_composed).
Defined.

Lemma n_modelfunc_edges_witness :
  n_modelfunc demo_self (demo_pars ++ [f64_two]) ∅ demo_axis
    = n_modelfunc demo_self demo_pars ∅ demo_axis /\
  n_modelfunc demo_self [f64_one; f64_two] ∅ demo_axis
    = OK (np_zeros 4).
Proof.
  destruct (n_modelfunc_edges demo_self (demo_pars ++ [f64_two]) ∅ demo_axis)
    as (_ & Hfloor & _).
  destruct (n_modelfunc_edges demo_self [f64_one; f64_two] ∅ demo_axis)
    as (_ & _ & Hshort).
  split.
  - rewrite Hfloor by (vm_compute; discriminate). reflexivity.
  - apply Hshort; [vm_compute; discriminate | vm_compute; reflexivity].
Defined.

Lemma sanitize_twice_witness :
  has_bad (sanitized_data [f64_nan; f64_one; f64_inf; f64_two]) = false /\
  sanitize demo_clean_heap 0%nat None = (demo_clean_heap, OK tt).
Proof.
  destruct (sanitize_twice demo_heap 0%nat 1%nat
              [f64_nan; f64_one; f64_inf; f64_two]
              [f64_one; f64_one; f64_one; f64_one] None)
    as (H1 & _ & H2);
    [reflexivity | reflexivity | discriminate | reflexivity | reflexivity |].
  split; [exact H1 | exact H2].
Defined.

Lemma sanitize_aliased_witness :
  sanitize demo_heap 0%nat (Some 0%nat)
  = (<[0%nat := [f64_zero; f64_one; f64_zero; f64_two]]> demo_heap, OK tt).
Proof.
  exact (sanitize_aliased demo_heap 0%nat [f64_nan; f64_one; f64_inf; f64_two]
           eq_refl eq_refl).
Defined.

Lemma sanitize_length_mismatch_witness :
  sanitize demo_heap_short 0%nat (Some 1%nat) = (demo_heap_short, Err IndexError).
Proof.
  apply (sanitize_length_mismatch demo_heap_short 0%nat 1%nat
           [f64_nan; f64_one] [f64_one]).
  - reflexivity.
  - reflexivity.
  - discriminate.
  - reflexivity.
Defined.

Lemma mpfitfun_sanitized_residual_witness :
  exists r,
    mpfitfun demo_self demo_clean_heap demo_axis 0%nat (Some 1%nat)
      [f64_one; f64_zero; f64_one] = OK r /\
    exists r0, r !! 0%nat = Some r0 /\ is_zero r0 = true.
Proof.
  destruct (mpfitfun_sanitized_residual demo_self demo_heap demo_axis
              0%nat 1%nat [f64_nan; f64_one; f64_inf; f64_two]
              [f64_one; f64_one; f64_one; f64_one]
              [f64_one; f64_zero; f64_one]
              [f64_one; f64_one; f64_one; f64_one] ∅)
    as (r & Hr & _ & Hzero);
    [reflexivity | reflexivity | discriminate | reflexivity
     | vm_compute; reflexivity | vm_compute; reflexivity | reflexivity |].
  exists r. split; [exact Hr|].
  apply (Hzero 0%nat f64_nan f64_one); reflexivity.
Defined.

Lemma fitter_heap_frame_witness :
  fst (fst demo_outcome) !! 7%nat = demo_heap !! 7%nat.
Proof.
  destruct (fitter_heap_frame demo_mpfit demo_messages demo_self
              (snd (fst demo_outcome)) demo_heap (fst (fst demo_outcome))
              demo_axis 0%nat (Some 1%nat) true false false None ∅
              (OK demo_fitted) demo_fit) as (H & _).
  apply H; [discriminate|]. intros el Hel. injection Hel as <-. discriminate.
Defined.

Lemma fitter_keeps_model_witness :
  keeps_model demo_self demo_fit_state /\ xax demo_fit_state = Some demo_axis.
Proof.
  destruct (fitter_keeps_model demo_mpfit demo_messages demo_self
              (snd (fst demo_outcome)) demo_heap (fst (fst demo_outcome))
              demo_axis 0%nat (Some 1%nat) true false false None ∅
              (OK demo_fitted) demo_fit) as (H1 & H2).
  split; [exact H1|]. apply H2. vm_compute. reflexivity.
Defined.

Lemma fitter_solver_failure_witness :
  fitter failing_mpfit demo_messages demo_self demo_heap demo_axis 0%nat
    (Some 1%nat) true false false None ∅
  = (demo_clean_heap, set_xax demo_axis (state_after demo_self ∅),
     Err (Exception "no convergence")).
Proof.
  destruct (fitter_solver_failure failing_mpfit demo_messages demo_self
              (state_after demo_self ∅) demo_heap demo_clean_heap
              demo_axis demo_axis 0%nat (Some 1%nat) true false false None
              ∅ (residual_of demo_self ∅) (table_of demo_self ∅)
              (mkMpResult [] None f64_zero 0 "no convergence")) as (H & _).
  - exact demo_call_plain.
  - reflexivity.
  - vm_compute. reflexivity.
  - reflexivity.
  - reflexivity.
  - exact H.
Defined.



Lemma fitter_nan_chi2_witness :
  snd (fitter nan_mpfit demo_messages demo_self demo_heap demo_axis 0%nat
         (Some 1%nat) true false true None ∅)
    = Err (ValueError "Error: chi^2 is nan") /\
  model (snd (fst (fitter nan_mpfit demo_messages demo_self demo_heap
                     demo_axis 0%nat (Some 1%nat) true false true None ∅)))
    = Some [f64_one; f64_one; f64_one; f64_one].
Proof.
  destruct (fitter_nan_chi2 nan_mpfit demo_messages demo_self
              (state_after demo_self ∅) demo_heap demo_clean_heap
              demo_axis demo_axis 0%nat (Some 1%nat) true true None
              ∅ (residual_of demo_self ∅) ∅ (table_of demo_self ∅)
              demo_nan_report [f64_one; f64_one; f64_one; f64_one])
    as (H & _).
  - exact demo_call_plain.
  - reflexivity.
  - vm_compute. reflexivity.
  - reflexivity.
  - discriminate.
  - reflexivity.
  - vm_compute. reflexivity.
  - vm_compute. reflexivity.
  - rewrite H. split; reflexivity.
Defined.

Lemma fitter_axis_units_witness :
  fitunits (state_after demo_self ∅) = Some VNone /\
  fit_axis (set_xax demo_axis (state_after demo_self ∅)) demo_axis true
    = OK demo_axis.
Proof.
  destruct (fitter_axis_units demo_self (state_after demo_self ∅) ∅
              (residual_of demo_self ∅) (table_of demo_self ∅) demo_axis true
              demo_call_plain) as (H1 & H2 & _).
  split; [exact H1 | apply H2; reflexivity].
Defined.

Lemma demo_slope : slope demo_sloped f64_one = OK (VFloat f64_one).
Proof. vm_compute. reflexivity. Defined.

Lemma slope_result_witness :
  model demo_sloped <> None /\
  (VFloat f64_one = VInt 0 \/
   exists f, VFloat f64_one = VFloat f /\ isfinite f = true).
Proof.
  destruct (slope_result demo_sloped f64_one (VFloat f64_one) demo_slope)
    as [(H & _)|H]; [discriminate | exact H].
Defined.

Lemma slope_window_witness :
  slope demo_sloped f64_one
  = OK (let s := f64_div (f64_add (f64_sub f64_two f64_one)
                            (f64_sub (f64_of_Z 3) f64_two)) f64_two in
        if isfinite s then VFloat s else VInt 0).
Proof.
  destruct (slope_window demo_sloped demo_curve demo_pixel_axis
              (fun _ => OK 1) f64_one 1) as (H & _);
    [reflexivity | reflexivity | reflexivity | reflexivity |].
  apply H; [lia | reflexivity | reflexivity | reflexivity].
Defined.

Lemma demo_labels :
  annotations demo_format_label demo_fit_state VNone = OK [""; ""; ""].
Proof. vm_compute. reflexivity. Defined.

Lemma annotations_labels_witness :
  exists k values errors,
    length [""; ""; ""] = (Z.to_nat k * Z.to_nat (npars demo_fit_state))%nat /\
    mpp demo_fit_state = Some values /\ mpperr demo_fit_state = Some errors.
Proof.
  destruct (annotations_labels demo_format_label demo_fit_state VNone
              [""; ""; ""] demo_labels)
    as (k & values & errors & _ & Hlen & Hattr & _).
  exists k, values, errors. split; [exact Hlen|]. apply Hattr. discriminate.
Defined.

Lemma demo_components :
  components demo_fit_state demo_axis [f64_two; f64_zero; f64_one]
  = OK [[f64_two; f64_two; f64_two; f64_two]].
Proof. vm_compute. reflexivity. Defined.

Lemma components_rows_witness :
  exists k,
    length [[f64_two; f64_two; f64_two; f64_two]] = Z.to_nat k /\
    exists kw, modelfunc_kwargs demo_fit_state = Some kw /\
               kw !! "return_components" = None.
Proof.
  destruct (components_rows demo_fit_state demo_axis
              [f64_two; f64_zero; f64_one] _ demo_components)
    as (k & _ & Hlen & Hrows).
  exists k. split; [exact Hlen|].
  destruct Hrows as (kw & Hkw & Hfree & _); [discriminate|].
  exists kw. split; assumption.
Defined.

Lemma components_edges_witness :
  components (set_modelfunc_kwargs (<["return_components" := VBool false]> ∅)
                demo_fit_state) demo_axis [f64_two; f64_zero; f64_one]
  = Err TypeError.
Proof.
  destruct (components_edges
              (set_modelfunc_kwargs (<["return_components" := VBool false]> ∅)
                 demo_fit_state) demo_axis [f64_two; f64_zero; f64_one]
              (VInt 1) 1) as (_ & H & _);
    [vm_compute; reflexivity | reflexivity |].
  apply (H ltac:(lia) (<["return_components" := VBool false]> ∅) (VBool false));
    reflexivity.
Defined.



Lemma demo_verbose :
  verbose_report demo_messages (state_after demo_self ∅) demo_report
    [f64_zero; f64_zero; f64_zero]
  = (fst (verbose_report demo_messages (state_after demo_self ∅) demo_report
            [f64_zero; f64_zero; f64_zero]), OK tt).
Proof. vm_compute. reflexivity. Defined.

Lemma verbose_report_values_witness :
  exists tbl',
    fst (verbose_report demo_messages (state_after demo_self ∅) demo_report
           [f64_zero; f64_zero; f64_zero])
      = set_parinfo tbl' (state_after demo_self ∅) /\
    length tbl' = length (table_of demo_self ∅).
Proof.
  destruct (verbose_report_values demo_messages (state_after demo_self ∅)
              (fst (verbose_report demo_messages (state_after demo_self ∅)
                      demo_report [f64_zero; f64_zero; f64_zero]))
              demo_report [f64_zero; f64_zero; f64_zero]
              f64_one [f64_zero; f64_one] (table_of demo_self ∅))
    as (tbl' & H1 & H2 & _);
    [reflexivity | vm_compute; reflexivity | exact demo_verbose |].
  exists tbl'. split; [exact H1 | exact H2].
Defined.
